(** * AFS snapshot runbooks: creation (backupsnappy.py) and deletion
    (deletionsnappy.py)

    A shallow embedding of the two runbooks and the properties of their
    snapshot lifecycle policy.  The runbooks drive an external library
    (afs_snappy) and the Python runtime; both are modelled as an environment
    that answers each call as a function of everything that happened before
    it, so that the theorems hold for every backend behaviour. *)

From Stdlib Require Import ZArith List String Ascii Bool Lia.
From Stdlib Require Import DecimalString.
Import ListNotations.

Local Open Scope Z_scope.

(** ** Python's datetime and timedelta *)

Module PyDatetime.

(** A naive [datetime.datetime]: the fields CPython stores. *)
Record datetime := mk_datetime {
  year : Z;
  month : Z;
  day : Z;
  hour : Z;
  minute : Z;
  second : Z;
  microsecond : Z
}.

(** A [datetime.timedelta], always kept normalised by its constructor. *)
Record timedelta := mk_timedelta {
  days : Z;
  seconds : Z;
  microseconds : Z
}.

(** Python's [divmod] on integers: floor division and its remainder. *)
Definition divmod (a b : Z) : Z * Z := (a / b, a mod b).

Definition _is_leap (y : Z) : bool :=
  (y mod 4 =? 0) && (negb (y mod 100 =? 0) || (y mod 400 =? 0)).

Definition _days_before_year (y : Z) : Z :=
  let y := y - 1 in
  y * 365 + y / 4 - y / 100 + y / 400.

Definition _DAYS_IN_MONTH : list Z :=
  [31; 28; 31; 30; 31; 30; 31; 31; 30; 31; 30; 31].

Definition _days_before_month (y m : Z) : Z :=
  fold_right Z.add 0 (firstn (Z.to_nat (m - 1)) _DAYS_IN_MONTH)
  + (if (2 <? m) && _is_leap y then 1 else 0).

Definition _ymd2ord (y m d : Z) : Z :=
  _days_before_year y + _days_before_month y m + d.

Definition toordinal (t : datetime) : Z :=
  _ymd2ord (year t) (month t) (day t).

(** [timedelta(days, seconds, microseconds)] on integer arguments: the
    constructor carries microseconds into seconds and seconds into days. *)
Definition timedelta_new (days0 seconds0 microseconds0 : Z) : timedelta :=
  let d := days0 in
  let '(days1, seconds1) := divmod seconds0 (24 * 3600) in
  let d := d + days1 in
  let s := seconds1 in
  let '(seconds2, microseconds1) := divmod microseconds0 1000000 in
  let '(days2, seconds3) := divmod seconds2 (24 * 3600) in
  let d := d + days2 in
  let s := s + seconds3 in
  let '(seconds4, us) := divmod microseconds1 1000000 in
  let s := s + seconds4 in
  let '(days3, s) := divmod s (24 * 3600) in
  let d := d + days3 in
  mk_timedelta d s us.

(** [datetime.__sub__] on two naive datetimes. *)
Definition sub (self other : datetime) : timedelta :=
  let days1 := toordinal self in
  let days2 := toordinal other in
  let secs1 := second self + minute self * 60 + hour self * 3600 in
  let secs2 := second other + minute other * 60 + hour other * 3600 in
  timedelta_new (days1 - days2) (secs1 - secs2)
                (microsecond self - microsecond other).

Definition us_per_day : Z := 24 * 3600 * 1000000.

(** The instant a datetime denotes, in microseconds since the start of the
    proleptic Gregorian day 0. *)
Definition instant (t : datetime) : Z :=
  ((toordinal t * 24 + hour t) * 60 + minute t) * 60 * 1000000
  + second t * 1000000 + microsecond t.

(** Whole days from [earlier] to [later]: the floor of the difference of
    the two instants, in days. *)
Definition days_since (later earlier : datetime) : Z :=
  (instant later - instant earlier) / us_per_day.

End PyDatetime.

Import PyDatetime.

(** ** Control flow: what a Python call can end in *)

(** A call either returns or leaves by a signal: an exception that
    [except Exception] catches, [SystemExit] (raised by [sys.exit], not an
    [Exception]), or the [continue] of the enclosing loop. *)
Inductive signal : Type :=
| Exception (text : string)
| SystemExit (code : Z)
| LoopContinue.

Inductive outcome (A : Type) : Type :=
| Ret (a : A)
| Raise (s : signal).

Arguments Ret {A} a.
Arguments Raise {A} s.

(** ** Data of afs_snappy seen by the runbooks *)

Record Snapshot := mk_Snapshot {
  name : string;
  created_at : datetime;
  retention_days : option Z
}.

Module SnapshotList.
Record t := mk { total : Z; snapshots : list Snapshot }.
End SnapshotList.

Module AfsList.
Record t := mk { total : Z; afs_list : list string }.
End AfsList.

Inductive AlertType : Type := SUCCESS | FAIL.

(** ** Automation variables and command line *)

Record Config := mk_Config {
  SUBSCRIPTION_ID : string;
  RESOURCE_GROUP : string;
  OBJECT_STORAGE : string;
  EXCLUDE_AFS : string;
  RetentionDays : string;
  argv : list string
}.

(** ** The environment: every external call and what it answered *)

(** The calls the runbooks make into afs_snappy and the Python runtime. *)
Inductive Call : Type :=
| Uuid4
| GetCurrentDatetime
| GetCid (resource_group : string)
| ValidateIsNumeric (value label : string)
| GetManagedIdentityToken (correlation_id : string)
| ValidateStorage
| IsSoftdeleteEnabled
| EnableFileShareSoftdelete (days : Z)
| GetAfsList (exclude : string)
| ValidateAfsExists (afs_name : string)
| IsSnapshotAlreadyCreatedToday (afs_name : string)
| ValidateAfsSnapshotsStorageLimit (afs_name : string) (limit : Z)
| CreateSnapshot (afs_name : string) (retention : string) (is_adhoc : bool)
| GetSnapshots (afs_name : string)
| DeleteSnapshot (afs_name : string) (snapshot : Snapshot).

Inductive Value : Type :=
| VNone
| VBool (b : bool)
| VStr (s : string)
| VDatetime (t : datetime)
| VAfsList (l : AfsList.t)
| VSnapshotList (l : SnapshotList.t).

(** What an external call answers: a value, or an exception with its text. *)
Inductive reply (A : Type) : Type :=
| Returns (a : A)
| Raises (text : string).

Arguments Returns {A} a.
Arguments Raises {A} text.

Inductive Level : Type := INFO | WARNING | ERROR.

(** The log lines of the two runbooks, by their format string; the
    arguments are the interpolated values. *)
Inductive LogMsg : Type :=
| Text (s : string)
| Separator
| WatchStarting (label correlation_id : string)
| WatchElapsed (label correlation_id : string) (elapsed : timedelta)
| StartingCreationJob (adhoc : bool) (correlation_id : string)
| StartingDeletionJob (correlation_id : string)
| RunbookType (s : string)
| ScriptVersion (s : string)
| CustomerID (cid : string)
| FetchingIdentityToken
| ValidatingStorage (object_storage : string)
| FetchingAfsVolumes (object_storage : string)
| NoAfsVolumesFound (object_storage : string)
| TotalAfsFound (object_storage : string) (n : Z)
| IteratingAfsVolumes
| ValidatingAfs (afs_name : string)
| ValidatingAfsExists
| SkippingCreatedTodayCheck (afs_name : string)
| AlreadyCreatedToday (afs_name : string)
| CheckingSoftDelete (object_storage : string)
| SoftDeleteAlreadyEnabled (object_storage : string)
| EnablingSoftDelete (object_storage : string) (days : Z)
| ValidatingSnapshotLimit (limit : Z) (afs_name : string)
| CreatingSnapshot (adhoc : bool) (afs_name retention : string)
| CreationJobCompleted (snapshots_created : Z) (correlation_id : string)
| FetchingSnapshotsList
| NoSnapshotsInAfs (afs_name correlation_id : string)
| SnapshotsFound (n : Z)
| DeletingSnapshot (snapshot_name : string)
| SnapshotsDeletedInAfs (n : Z) (afs_name correlation_id : string)
| DeletionJobCompleted (deleted_snapshots : Z) (correlation_id : string).

(** The alerting object: what [TICHttpBasedAlerting] is constructed with. *)
Module Alerting.
Record t := TICHttpBasedAlerting {
  account_id : string;
  cid : string;
  hostname : string;
  script_version : string;
  correlation_id : string;
  sid : string;
  object_storage : string
}.
End Alerting.

(** Everything a run does that is visible from outside, in order. *)
Inductive Event : Type :=
| EvCall (c : Call) (r : reply Value)
| EvLog (lvl : Level) (m : LogMsg)
| EvAlert (sender : Alerting.t) (type : AlertType) (start_time : datetime)
          (message : option string) (db_name : option string)
| EvPrintExc (text : string).

Definition History := list Event.

(** The environment answers a call knowing the whole history of the run,
    so it stands for any backend, clock and credential service, stateful or
    not.  It also holds the one built-in of Python whose answer the
    runbooks depend on, [int] on a [str]: a function of its argument alone,
    which returns the integer or raises [ValueError].  Nothing is assumed
    about which strings it reads. *)
Record Env := mk_Env {
  env_uuid4 : History -> string;
  env_get_current_datetime : History -> datetime;
  env_get_cid : History -> string -> reply string;
  env_validate_is_numeric : History -> string -> string -> reply unit;
  env_get_managed_identity_token : History -> string -> reply string;
  env_validate_storage : History -> reply unit;
  env_is_softdelete_enabled : History -> reply bool;
  env_enable_file_share_softdelete : History -> Z -> reply unit;
  env_get_afs_list : History -> string -> reply AfsList.t;
  env_validate_afs_exists : History -> string -> reply unit;
  env_is_snapshot_already_created_today : History -> string -> reply bool;
  env_validate_afs_snapshots_storage_limit :
    History -> string -> Z -> reply unit;
  env_create_snapshot : History -> string -> string -> bool -> reply unit;
  env_get_snapshots : History -> string -> reply SnapshotList.t;
  env_delete_snapshot : History -> string -> Snapshot -> reply unit;
  env_int : string -> reply Z
}.

(** ** The monad of the runbooks

    A computation reads the environment and the history so far, and yields
    its outcome, the events it added, and the module's global variables. *)

Record result (G A : Type) : Type := mk_result {
  out : outcome A;
  emitted : list Event;
  globals : G
}.

Arguments mk_result {G A} out emitted globals.
Arguments out {G A} r.
Arguments emitted {G A} r.
Arguments globals {G A} r.

Definition M (G A : Type) : Type := Env -> History -> G -> result G A.

Definition ret {G A} (a : A) : M G A :=
  fun _ _ g => mk_result (Ret a) [] g.

Definition raise {G A} (s : signal) : M G A :=
  fun _ _ g => mk_result (Raise s) [] g.

Definition bind {G A B} (m : M G A) (f : A -> M G B) : M G B :=
  fun E h g =>
    let '(mk_result o d g1) := m E h g in
    match o with
    | Ret a =>
        let '(mk_result o' d' g2) := f a E (h ++ d) g1 in
        mk_result o' (d ++ d') g2
    | Raise s => mk_result (Raise s) d g1
    end.

Notation "x <- m ;; k" := (bind m (fun x => k))
  (at level 61, m at next level, right associativity).
Notation "m ;; k" := (bind m (fun _ => k))
  (at level 61, right associativity).

Definition emit {G} (e : Event) : M G unit :=
  fun _ _ g => mk_result (Ret tt) [e] g.

Definition get {G} : M G G :=
  fun _ _ g => mk_result (Ret g) [] g.

Definition put {G} (g : G) : M G unit :=
  fun _ _ _ => mk_result (Ret tt) [] g.

(** A pure call that may raise, such as a comparison. *)
Definition lift {G A} (o : outcome A) : M G A :=
  fun _ _ g => mk_result o [] g.

(** A computation that runs on a built-in of the runtime: it may raise and
    leaves no trace. *)
Definition builtin {G A} (f : Env -> outcome A) : M G A :=
  fun E _ g => mk_result (f E) [] g.

(** An external call that may raise: the environment's answer is recorded. *)
Definition call {G A} (c : Call) (inj : A -> Value)
  (ask : Env -> History -> reply A) : M G A :=
  fun E h g =>
    match ask E h with
    | Returns a => mk_result (Ret a) [EvCall c (Returns (inj a))] g
    | Raises text => mk_result (Raise (Exception text)) [EvCall c (Raises text)] g
    end.

(** An external call that always returns. *)
Definition call_total {G A} (c : Call) (inj : A -> Value)
  (ask : Env -> History -> A) : M G A :=
  fun E h g =>
    let a := ask E h in mk_result (Ret a) [EvCall c (Returns (inj a))] g.

(** [try: body / except Exception as ex: handler]. *)
Definition try_except {G A} (body : M G A) (handler : string -> M G A)
  : M G A :=
  fun E h g =>
    let '(mk_result o d g1) := body E h g in
    match o with
    | Raise (Exception ex) =>
        let '(mk_result o' d' g2) := handler ex E (h ++ d) g1 in
        mk_result o' (d ++ d') g2
    | _ => mk_result o d g1
    end.

(** [try: body / finally: final], the shape of a [with] block. *)
Definition try_finally {G A} (body : M G A) (final : M G unit) : M G A :=
  fun E h g =>
    let '(mk_result o d g1) := body E h g in
    let '(mk_result o' d' g2) := final E (h ++ d) g1 in
    match o' with
    | Ret _ => mk_result o (d ++ d') g2
    | Raise s => mk_result (Raise s) (d ++ d') g2
    end.

(** [for x in l: body x], where the body may [continue]. *)
Fixpoint for_each {G A} (l : list A) (body : A -> M G unit) : M G unit :=
  match l with
  | [] => ret tt
  | x :: l' =>
      fun E h g =>
        let '(mk_result o d g1) := body x E h g in
        match o with
        | Ret _ | Raise LoopContinue =>
            let '(mk_result o' d' g2) := for_each l' body E (h ++ d) g1 in
            mk_result o' (d ++ d') g2
        | Raise s => mk_result (Raise s) d g1
        end
  end.

(** [for x in l: body], where the body updates a local variable. *)
Fixpoint for_fold {G A S} (l : list A) (acc : S) (body : A -> S -> M G S)
  : M G S :=
  match l with
  | [] => ret acc
  | x :: l' => acc' <- body x acc ;; for_fold l' acc' body
  end.

(** [sys.exit(code)]. *)
Definition sys_exit {G A} (code : Z) : M G A := raise (SystemExit code).

(** [traceback.print_exc()] inside a handler. *)
Definition print_exc {G} (ex : string) : M G unit := emit (EvPrintExc ex).

(** The exit status of the interpreter when [main] ends in [o]: an uncaught
    exception gives 1, [sys.exit(code)] gives [code]. *)
Definition exit_status (o : outcome unit) : Z :=
  match o with
  | Ret _ => 0
  | Raise (SystemExit code) => code
  | Raise _ => 1
  end.

(** Python's truth value of an [int] or [None]. *)
Definition truthy (v : option Z) : bool :=
  match v with
  | None => false
  | Some n => negb (n =? 0)
  end.

(** Python's truth value of a [str]. *)
Definition truthy_str (s : string) : bool :=
  match s with
  | EmptyString => false
  | _ => true
  end.

(** [str(n)] for an [int]. *)
Definition str (n : Z) : string := NilZero.string_of_int (Z.to_int n).

(** ** afs_snappy: logger, clock, credentials, storage, volumes, alerts

    The package is imported by both runbooks and is not among the sources.
    Each of its operations that reaches the backend is a call answered by
    the environment, which may return or raise.  The logger, the clock and
    [uuid4] always return.  The constructors ([StorageManager],
    [AFSManager], [TICHttpBasedAlerting], [Watcher]) only store their
    arguments: they are records here and build without an event. *)

Section AfsSnappy.
Context {G : Type}.

Definition info (m : LogMsg) : M G unit := emit (EvLog INFO m).
Definition warning (m : LogMsg) : M G unit := emit (EvLog WARNING m).
Definition error (m : LogMsg) : M G unit := emit (EvLog ERROR m).
Definition add_seperator : M G unit := emit (EvLog INFO Separator).

Definition uuid4 : M G string :=
  call_total Uuid4 VStr env_uuid4.

Definition get_current_datetime : M G datetime :=
  call_total GetCurrentDatetime VDatetime env_get_current_datetime.

Definition get_cid (resource_group : string) : M G string :=
  call (GetCid resource_group) VStr (fun E h => env_get_cid E h resource_group).

Definition validate_is_numeric (value label : string) : M G unit :=
  call (ValidateIsNumeric value label) (fun _ => VNone)
       (fun E h => env_validate_is_numeric E h value label).

End AfsSnappy.

Module IdentityManager.
Definition get_managed_identity_token {G} (correlation_id : string)
  : M G string :=
  call (GetManagedIdentityToken correlation_id) VStr
       (fun E h => env_get_managed_identity_token E h correlation_id).
End IdentityManager.

Module StorageManager.
Record t := new {
  subscription_id : string;
  resource_group : string;
  object_storage : string;
  identity_token : string;
  correlation_id : string
}.

Definition validate_storage {G} (self : t) : M G unit :=
  call ValidateStorage (fun _ => VNone) env_validate_storage.

Definition is_softdelete_enabled {G} (self : t) : M G bool :=
  call IsSoftdeleteEnabled VBool env_is_softdelete_enabled.

Definition enable_file_share_softdelete {G} (self : t) (days : Z)
  : M G unit :=
  call (EnableFileShareSoftdelete days) (fun _ => VNone)
       (fun E h => env_enable_file_share_softdelete E h days).

Definition get_afs_list {G} (self : t) (exclude : string) : M G AfsList.t :=
  call (GetAfsList exclude) VAfsList
       (fun E h => env_get_afs_list E h exclude).
End StorageManager.

Module AFSManager.
Record t := new {
  identity_token : string;
  storage_manager : StorageManager.t;
  afs_name : string;
  correlation_id : string
}.

Section Methods.
Context {G : Type} (self : t).

Definition validate_afs_exists : M G unit :=
  call (ValidateAfsExists (afs_name self)) (fun _ => VNone)
       (fun E h => env_validate_afs_exists E h (afs_name self)).

Definition is_snapshot_already_created_today : M G bool :=
  call (IsSnapshotAlreadyCreatedToday (afs_name self)) VBool
       (fun E h => env_is_snapshot_already_created_today E h (afs_name self)).

Definition validate_afs_snapshots_storage_limit (limit : Z) : M G unit :=
  call (ValidateAfsSnapshotsStorageLimit (afs_name self) limit)
       (fun _ => VNone)
       (fun E h =>
          env_validate_afs_snapshots_storage_limit E h (afs_name self) limit).

Definition create_snapshot (retention : string) (is_adhoc : bool)
  : M G unit :=
  call (CreateSnapshot (afs_name self) retention is_adhoc) (fun _ => VNone)
       (fun E h => env_create_snapshot E h (afs_name self) retention is_adhoc).

Definition get_snapshots : M G SnapshotList.t :=
  call (GetSnapshots (afs_name self)) VSnapshotList
       (fun E h => env_get_snapshots E h (afs_name self)).

Definition delete_snapshot (snapshot : Snapshot) : M G unit :=
  call (DeleteSnapshot (afs_name self) snapshot) (fun _ => VNone)
       (fun E h => env_delete_snapshot E h (afs_name self) snapshot).
End Methods.
End AFSManager.

(** Modelled from the spec: [Alerting.send] is not among the sources.  The
    spec (4.4) makes it best-effort: one outbound alert per call, carrying
    what the alerting object was built with, and no exception reaches the
    caller. *)
Definition send {G} (alerting : Alerting.t) (type : AlertType)
  (start_time : datetime) (message db_name : option string) : M G unit :=
  emit (EvAlert alerting type start_time message db_name).

(** Modelled from the spec: [Watcher.watch] is not among the sources.  The
    spec (4.3) has it record a start timestamp and log the start on entry,
    log the elapsed time on every exit path, and forward any failure of the
    wrapped operation unchanged. *)
Definition watch {G A} (label correlation_id : string) (body : M G A)
  : M G A :=
  started <- get_current_datetime ;;
  info (WatchStarting label correlation_id) ;;
  try_finally body
    (ended <- get_current_datetime ;;
     info (WatchElapsed label correlation_id (sub ended started))).

(** ** deletionsnappy.py *)

Module Deletionsnappy.

Definition RUNBOOK_TYPE : string := "afs-snapshots-deletion".
Definition VERSION : string := "1.0.0".

(** The module's global variable; [deleted_snapshots = 0] at import. *)
Record Globals := mk_Globals { deleted_snapshots : Z }.

Definition initial_globals : Globals := mk_Globals 0.

Definition __has_snapshot_expired
  (current_date_time : datetime) (snapshot : Snapshot) : outcome bool :=
  let time_difference := sub current_date_time (created_at snapshot) in
  let created_since := days time_difference in
  match retention_days snapshot with
  | Some r => Ret (r <? created_since)
  | None =>
      Raise (Exception
        "'>' not supported between instances of 'int' and 'NoneType'")
  end.

Definition __delete_snapshot (snapshot : Snapshot) (afs_manager : AFSManager.t)
  (correlation_id : string) (alerting : Alerting.t) : M Globals bool :=
  current_date_time <- get_current_datetime ;;
  try_except
    (watch ("Delete snapshot: " ++ name snapshot) correlation_id
       (AFSManager.delete_snapshot afs_manager snapshot ;;
        g <- get ;;
        put (mk_Globals (deleted_snapshots g + 1)) ;;
        ret true))
    (fun ex =>
       let error_message :=
         ("Skipping: " ++ name snapshot
          ++ ", Unable to delete the snapshot with exception: " ++ ex
          ++ " - correlation_id=" ++ correlation_id)%string in
       send alerting FAIL current_date_time (Some error_message) None ;;
       warning (Text error_message) ;;
       ret false).

(** The condition of line 120,
    [snapshot.retention_days and snapshot.retention_days >= 0]: the
    comparison is evaluated only when the left operand is truthy. *)
Definition retention_gate (snapshot : Snapshot) : bool :=
  truthy (retention_days snapshot) &&
  match retention_days snapshot with
  | Some r => r >=? 0
  | None => false
  end.

(** The body of the loop over [snapshot_list.snapshots] (lines 119-135);
    the local [deleted_snapshots_in_afs] is threaded through. *)
Definition snapshot_loop_body (afs_manager : AFSManager.t)
  (correlation_id : string) (current_date_time : datetime)
  (alerting : Alerting.t) (snapshot : Snapshot)
  (deleted_snapshots_in_afs : Z) : M Globals Z :=
  if retention_gate snapshot then
    is_expired <- lift (__has_snapshot_expired current_date_time snapshot) ;;
    if is_expired : bool then
      info (DeletingSnapshot (name snapshot)) ;;
      snapshot_deleted <-
        __delete_snapshot snapshot afs_manager correlation_id alerting ;;
      if snapshot_deleted : bool then ret (deleted_snapshots_in_afs + 1)
      else ret deleted_snapshots_in_afs
    else ret deleted_snapshots_in_afs
  else ret deleted_snapshots_in_afs.

Definition __delete_snapshots_in_afs (afs_manager : AFSManager.t)
  (correlation_id : string) (current_date_time : datetime)
  (alerting : Alerting.t) : M Globals unit :=
  let afs_name := AFSManager.afs_name afs_manager in
  try_except
    (info FetchingSnapshotsList ;;
     snapshot_list <- AFSManager.get_snapshots afs_manager ;;
     if SnapshotList.total snapshot_list <? 1 then
       info (NoSnapshotsInAfs afs_name correlation_id)
     else
       info (SnapshotsFound (SnapshotList.total snapshot_list)) ;;
       deleted_snapshots_in_afs <-
         for_fold (SnapshotList.snapshots snapshot_list) 0
           (snapshot_loop_body afs_manager correlation_id current_date_time
                               alerting) ;;
       info (SnapshotsDeletedInAfs deleted_snapshots_in_afs afs_name
                                   correlation_id))
    (fun ex =>
       let error_message :=
         ("Skipping: '" ++ afs_name ++ "' due to exception: " ++ ex
          ++ " - correlation_id=" ++ correlation_id)%string in
       send alerting FAIL current_date_time (Some error_message) None ;;
       warning (Text error_message)).

Section Main.
Variable cfg : Config.

Let subscription_id := SUBSCRIPTION_ID cfg.
Let resource_group := RESOURCE_GROUP cfg.
Let object_storage := OBJECT_STORAGE cfg.
Let exclude_afs := EXCLUDE_AFS cfg.

(** The body of the loop over [afs_list_in_storage.afs_list]
    (lines 230-254). *)
Definition volume_loop_body (identity_token : string)
  (storage_manager : StorageManager.t) (correlation_id : string)
  (current_date_time : datetime) (alerting : Alerting.t)
  (afs_name : string) : M Globals unit :=
  let afs_manager :=
    AFSManager.new identity_token storage_manager afs_name correlation_id in
  add_seperator ;;
  info ValidatingAfsExists ;;
  AFSManager.validate_afs_exists afs_manager ;;
  __delete_snapshots_in_afs afs_manager correlation_id current_date_time
                            alerting ;;
  send alerting SUCCESS current_date_time None (Some afs_name).

(** The [try] block of [main] (lines 192-260). *)
Definition main_try (correlation_id : string) (current_date_time : datetime)
  (alerting : Alerting.t) : M Globals unit :=
  info FetchingIdentityToken ;;
  identity_token <- IdentityManager.get_managed_identity_token correlation_id ;;
  let storage_manager :=
    StorageManager.new subscription_id resource_group object_storage
                       identity_token correlation_id in
  info (ValidatingStorage object_storage) ;;
  StorageManager.validate_storage storage_manager ;;
  info (FetchingAfsVolumes object_storage) ;;
  afs_list_in_storage <- StorageManager.get_afs_list storage_manager exclude_afs ;;
  (if AfsList.total afs_list_in_storage <? 1 then
     info (NoAfsVolumesFound object_storage) ;;
     sys_exit 0
   else ret tt) ;;
  info (TotalAfsFound object_storage (AfsList.total afs_list_in_storage)) ;;
  info IteratingAfsVolumes ;;
  for_each (AfsList.afs_list afs_list_in_storage)
    (volume_loop_body identity_token storage_manager correlation_id
                      current_date_time alerting) ;;
  add_seperator ;;
  g <- get ;;
  info (DeletionJobCompleted (deleted_snapshots g) correlation_id).

(** The [except Exception] block of [main] (lines 262-275). *)
Definition main_except (correlation_id : string) (current_date_time : datetime)
  (alerting : Alerting.t) (ex : string) : M Globals unit :=
  print_exc ex ;;
  let error_message :=
    ("An error occurred while executing AFS listing and deletion runbook: "
     ++ ex ++ " - correlation_id=" ++ correlation_id)%string in
  send alerting FAIL current_date_time (Some error_message) None ;;
  error (Text error_message) ;;
  sys_exit 1.

Definition main : M Globals unit :=
  correlation_id <- uuid4 ;;
  current_date_time <- get_current_datetime ;;
  info (StartingDeletionJob correlation_id) ;;
  info (RunbookType RUNBOOK_TYPE) ;;
  info (ScriptVersion VERSION) ;;
  cid <- get_cid resource_group ;;
  info (CustomerID cid) ;;
  let alerting :=
    Alerting.TICHttpBasedAlerting subscription_id cid object_storage VERSION
                                  correlation_id "SID" object_storage in
  try_except (main_try correlation_id current_date_time alerting)
             (main_except correlation_id current_date_time alerting).

End Main.

(** One run of the script as a process: fresh globals, empty history. *)
Definition run (E : Env) (cfg : Config) : result Globals unit :=
  main cfg E [] initial_globals.

End Deletionsnappy.

(** ** backupsnappy.py *)

Module Backupsnappy.

Definition RUNBOOK_TYPE : string := "afs-backup".
Definition VERSION : string := "1.0.0".

Definition AFS_SOFTDELETE_RETENTION_DAYS : Z := 7.
Definition AFS_TOTAL_SNAPSHOTS_LIMIT : Z := 200.

Definition allowed_adhoc_backup_retention_days_list : list Z :=
  [3; 7; 15; 30; 45; 60; 67; 90; 180; 365; 730; 1095; 1460; 1825].

(** [x in l] for a list of ints. *)
Definition contains (x : Z) (l : list Z) : bool := existsb (Z.eqb x) l.

(** The globals that [main] and its helpers assign to. *)
Record Globals := mk_Globals {
  correlation_id : string;
  snapshots_created : Z
}.

(** [int] is the built-in of the runtime that runs the script. *)
Definition __validate_allowed_adhoc_backup_retention_days
  (int : string -> reply Z) (rdays : string) : outcome unit :=
  match int rdays with
  | Raises text => Raise (Exception text)
  | Returns retenion_days_int =>
      if negb (contains retenion_days_int
                 allowed_adhoc_backup_retention_days_list)
      then
        Raise (Exception
          ("The retention days for adhoc backup must be from: ["
           ++ String.concat ", "
                (map str allowed_adhoc_backup_retention_days_list)
           ++ "]")%string)
      else Ret tt
  end.

Section Runbook.
Variable cfg : Config.

Let subscription_id := SUBSCRIPTION_ID cfg.
Let resource_group := RESOURCE_GROUP cfg.
Let object_storage := OBJECT_STORAGE cfg.
Let exclude_afs := EXCLUDE_AFS cfg.

(** Lines 37-79: the module-level reading of [sys.argv]. *)
Definition is_adhoc_backup : bool := (1 <? List.length (argv cfg))%nat.

Definition retention_days : string :=
  if (1 <? List.length (argv cfg))%nat then nth 1 (argv cfg) ""%string
  else RetentionDays cfg.

Definition triggered_from_vm : string :=
  if (3 <? List.length (argv cfg))%nat then nth 3 (argv cfg) ""%string
  else ""%string.

Definition sid : string :=
  if (4 <? List.length (argv cfg))%nat then nth 4 (argv cfg) ""%string
  else "SID"%string.

Definition initial_globals : Globals :=
  mk_Globals
    (if (2 <? List.length (argv cfg))%nat then nth 2 (argv cfg) ""%string
     else ""%string)
    0.

Definition __enable_softdelete_in_file_share
  (storage_manager : StorageManager.t) (correlation_id : string)
  (current_date_time : datetime) (alerting : Alerting.t) : M Globals unit :=
  let storage := StorageManager.object_storage storage_manager in
  try_except
    (info (CheckingSoftDelete storage) ;;
     enabled <- StorageManager.is_softdelete_enabled storage_manager ;;
     if enabled : bool then
       info (SoftDeleteAlreadyEnabled storage)
     else
       info (EnablingSoftDelete storage AFS_SOFTDELETE_RETENTION_DAYS) ;;
       watch ("Enable soft delete for file share service in '" ++ storage
              ++ "'") correlation_id
         (StorageManager.enable_file_share_softdelete storage_manager
            AFS_SOFTDELETE_RETENTION_DAYS))
    (fun ex =>
       let error_message :=
         ("Skipping softdelete enablement for file share service in '"
          ++ storage ++ "' due to exception: " ++ ex
          ++ " - correlation_id=" ++ correlation_id)%string in
       send alerting FAIL current_date_time (Some error_message) None ;;
       warning (Text error_message)).

Definition __create_afs_snapshot (afs_manager : AFSManager.t)
  (correlation_id : string) (current_date_time : datetime)
  (alerting : Alerting.t) (is_adhoc_bkp : bool) : M Globals unit :=
  let afs_name := AFSManager.afs_name afs_manager in
  try_except
    (info (ValidatingSnapshotLimit AFS_TOTAL_SNAPSHOTS_LIMIT afs_name) ;;
     AFSManager.validate_afs_snapshots_storage_limit afs_manager
       AFS_TOTAL_SNAPSHOTS_LIMIT ;;
     info (CreatingSnapshot is_adhoc_bkp afs_name retention_days) ;;
     watch "Create snapshot" correlation_id
       (AFSManager.create_snapshot afs_manager retention_days is_adhoc_bkp ;;
        g <- get ;;
        put (mk_Globals (Backupsnappy.correlation_id g)
                        (snapshots_created g + 1))))
    (fun ex =>
       let error_message :=
         ("Skipping create snapshot in: '" ++ afs_name
          ++ "' due to exception: " ++ ex
          ++ " - correlation_id=" ++ correlation_id)%string in
       send alerting FAIL current_date_time (Some error_message) None ;;
       warning (Text error_message)).

(** The body of the loop over [afs_list_in_storage.afs_list]
    (lines 299-339). *)
Definition volume_loop_body (identity_token : string)
  (storage_manager : StorageManager.t) (correlation_id : string)
  (current_date_time : datetime) (alerting : Alerting.t)
  (afs_name : string) : M Globals unit :=
  let afs_manager :=
    AFSManager.new identity_token storage_manager afs_name correlation_id in
  add_seperator ;;
  info (ValidatingAfs (AFSManager.afs_name afs_manager)) ;;
  AFSManager.validate_afs_exists afs_manager ;;
  (if is_adhoc_backup then
     info (SkippingCreatedTodayCheck (AFSManager.afs_name afs_manager))
   else
     created_today <- AFSManager.is_snapshot_already_created_today afs_manager ;;
     if created_today : bool then
       info (AlreadyCreatedToday (AFSManager.afs_name afs_manager)) ;;
       raise LoopContinue
     else ret tt) ;;
  __create_afs_snapshot afs_manager correlation_id current_date_time alerting
                        is_adhoc_backup ;;
  send alerting SUCCESS current_date_time None (Some afs_name).

(** The [try] block of [main] (lines 247-345). *)
Definition main_try (correlation_id : string) (current_date_time : datetime)
  (alerting : Alerting.t) : M Globals unit :=
  validate_is_numeric retention_days "RetentionDays" ;;
  (if is_adhoc_backup then
     builtin (fun E =>
                __validate_allowed_adhoc_backup_retention_days (env_int E)
                  retention_days)
   else ret tt) ;;
  info FetchingIdentityToken ;;
  identity_token <- IdentityManager.get_managed_identity_token correlation_id ;;
  let storage_manager :=
    StorageManager.new subscription_id resource_group object_storage
                       identity_token correlation_id in
  info (ValidatingStorage object_storage) ;;
  StorageManager.validate_storage storage_manager ;;
  __enable_softdelete_in_file_share storage_manager correlation_id
                                    current_date_time alerting ;;
  info (FetchingAfsVolumes object_storage) ;;
  afs_list_in_storage <- StorageManager.get_afs_list storage_manager exclude_afs ;;
  (if AfsList.total afs_list_in_storage <? 1 then
     info (NoAfsVolumesFound object_storage) ;;
     sys_exit 0
   else ret tt) ;;
  info (TotalAfsFound object_storage (AfsList.total afs_list_in_storage)) ;;
  info IteratingAfsVolumes ;;
  for_each (AfsList.afs_list afs_list_in_storage)
    (volume_loop_body identity_token storage_manager correlation_id
                      current_date_time alerting) ;;
  add_seperator ;;
  g <- get ;;
  info (CreationJobCompleted (snapshots_created g) correlation_id).

(** The [except Exception] block of [main] (lines 346-359). *)
Definition main_except (correlation_id : string) (current_date_time : datetime)
  (alerting : Alerting.t) (ex : string) : M Globals unit :=
  print_exc ex ;;
  let error_message :=
    ("An error occurred while executing AFS backup runbook: " ++ ex
     ++ " - correlation_id=" ++ correlation_id)%string in
  send alerting FAIL current_date_time (Some error_message) None ;;
  error (Text error_message) ;;
  sys_exit 1.

Definition main : M Globals unit :=
  g <- get ;;
  (if negb (truthy_str (Backupsnappy.correlation_id g)) then
     fresh <- uuid4 ;;
     put (mk_Globals fresh (snapshots_created g))
   else ret tt) ;;
  g <- get ;;
  let correlation_id := Backupsnappy.correlation_id g in
  current_date_time <- get_current_datetime ;;
  info (StartingCreationJob is_adhoc_backup correlation_id) ;;
  info (RunbookType RUNBOOK_TYPE) ;;
  info (ScriptVersion VERSION) ;;
  cid <- get_cid resource_group ;;
  info (CustomerID cid) ;;
  let hostname :=
    if truthy_str triggered_from_vm then triggered_from_vm
    else object_storage in
  let alerting :=
    Alerting.TICHttpBasedAlerting subscription_id cid hostname VERSION
                                  correlation_id sid object_storage in
  try_except (main_try correlation_id current_date_time alerting)
             (main_except correlation_id current_date_time alerting).

End Runbook.

(** One run of the script as a process: globals as the module sets them
    at import, empty history. *)
Definition run (E : Env) (cfg : Config) : result Globals unit :=
  main cfg E [] (initial_globals cfg).

End Backupsnappy.

(** ** Scripted environments, for concrete runs *)

Module Scenario.

(** How one volume of the storage account behaves. *)
Record Volume := mk_Volume {
  volume_name : string;
  present : bool;
  created_today : bool;
  under_limit : bool;
  creatable : bool;
  volume_snapshots : list Snapshot;
  undeletable : list string
}.

Record t := mk {
  clock : datetime;
  storage_valid : bool;
  softdelete : reply bool;
  softdelete_enablable : bool;
  volumes : list Volume
}.

Definition find_volume (s : t) (afs_name : string) : option Volume :=
  find (fun v => String.eqb (volume_name v) afs_name) (volumes s).

Definition answer (ok : bool) (text : string) : reply unit :=
  if ok then Returns tt else Raises text.

Definition on_volume {A} (s : t) (afs_name : string)
  (f : Volume -> reply A) : reply A :=
  match find_volume s afs_name with
  | Some v => f v
  | None => Raises "VolumeNotFound"
  end.

(** The [int] of the scripted runtime: it reads the plain decimal
    numerals, with an optional minus sign, and raises on any other
    string. *)
Definition read_decimal (s : string) : reply Z :=
  match NilZero.int_of_string s with
  | Some d => Returns (Z.of_int d)
  | None => Raises "ValueError"
  end.

(** The environment of a scenario: it answers by the script, whatever
    happened before. *)
Definition env (s : t) : Env :=
  {| env_uuid4 := fun _ => "00000000-0000-4000-8000-000000000000"%string;
     env_get_current_datetime := fun _ => clock s;
     env_get_cid := fun _ _ => Returns "CID"%string;
     env_validate_is_numeric := fun _ _ _ => Returns tt;
     env_get_managed_identity_token := fun _ _ => Returns "token"%string;
     env_validate_storage := fun _ =>
       answer (storage_valid s) "StorageValidationError";
     env_is_softdelete_enabled := fun _ => softdelete s;
     env_enable_file_share_softdelete := fun _ _ =>
       answer (softdelete_enablable s) "SoftDeleteError";
     env_get_afs_list := fun _ _ =>
       Returns (AfsList.mk (Z.of_nat (List.length (volumes s)))
                           (map volume_name (volumes s)));
     env_validate_afs_exists := fun _ afs_name =>
       on_volume s afs_name (fun v => answer (present v) "VolumeNotFound");
     env_is_snapshot_already_created_today := fun _ afs_name =>
       on_volume s afs_name (fun v => Returns (created_today v));
     env_validate_afs_snapshots_storage_limit := fun _ afs_name _ =>
       on_volume s afs_name
         (fun v => answer (under_limit v) "SnapshotLimitExceeded");
     env_create_snapshot := fun _ afs_name _ _ =>
       on_volume s afs_name (fun v => answer (creatable v) "CreateFailed");
     env_get_snapshots := fun _ afs_name =>
       on_volume s afs_name
         (fun v => Returns (SnapshotList.mk
                              (Z.of_nat (List.length (volume_snapshots v)))
                              (volume_snapshots v)));
     env_delete_snapshot := fun _ afs_name snapshot =>
       on_volume s afs_name
         (fun v => answer (negb (existsb (String.eqb (name snapshot))
                                         (undeletable v)))
                          "DeleteFailed");
     env_int := read_decimal |}.

Definition healthy_volume (n : string) : Volume :=
  mk_Volume n true false true true [] [].

Definition midnight (y m d : Z) : datetime := mk_datetime y m d 0 0 0 0.

Definition config : Config :=
  mk_Config "sub" "rg" "storage" "" "30" ["backupsnappy.py"%string].

Definition adhoc_config (retention : string) : Config :=
  mk_Config "sub" "rg" "storage" "" "30" ["backupsnappy.py"%string; retention].

Definition march_first : datetime := midnight 2024 3 1.

(** Two volumes; the first has reached the snapshot limit. *)
Definition limit_then_healthy : t :=
  mk march_first true (Returns true) true
     [mk_Volume "v1" true false false true [] []; healthy_volume "v2"].

(** Two volumes are listed; the first is gone from the backend. *)
Definition missing_then_healthy : t :=
  mk march_first true (Returns true) true
     [mk_Volume "v1" false false true true [] []; healthy_volume "v2"].

(** A storage account without volumes. *)
Definition no_volumes : t :=
  mk march_first true (Returns true) true [].

(** The storage account does not validate. *)
Definition invalid_storage : t :=
  mk march_first false (Returns true) true [healthy_volume "v1"].

(** The soft-delete query fails; one healthy volume. *)
Definition softdelete_broken : t :=
  mk march_first true (Raises "AuthorizationFailed") true
     [healthy_volume "v1"].

(** One volume whose snapshot of today exists already. *)
Definition snapshotted_today : t :=
  mk march_first true (Returns true) true
     [mk_Volume "v1" true true true true [] []].

(** A snapshot taken sixty days before [march_first]. *)
Definition new_year (snapshot_name : string) (retention : option Z)
  : Snapshot :=
  mk_Snapshot snapshot_name (midnight 2024 1 1) retention.

(** One volume with a single snapshot whose retention is zero days. *)
Definition zero_retention : t :=
  mk march_first true (Returns true) true
     [mk_Volume "v1" true false true true [new_year "s0" (Some 0)] []].

(** Two volumes holding snapshots of the same age and retention, and one
    snapshot each that is kept. *)
Definition twin_snapshots : t :=
  mk march_first true (Returns true) true
     [mk_Volume "v1" true false true true
        [new_year "a" (Some 30); new_year "kept" (Some 90)] [];
      mk_Volume "v2" true false true true
        [new_year "kept" (Some 60); new_year "a" (Some 30)] []].

End Scenario.

(** ** Vocabulary of the properties: reading a trace *)

Definition AlertType_eqb (a b : AlertType) : bool :=
  match a, b with
  | SUCCESS, SUCCESS | FAIL, FAIL => true
  | _, _ => false
  end.

Definition is_alert (type : AlertType) (e : Event) : bool :=
  match e with
  | EvAlert _ type' _ _ _ => AlertType_eqb type type'
  | _ => false
  end.

(** How many events of a trace satisfy [p]. *)
Definition count (p : Event -> bool) (tr : list Event) : Z :=
  Z.of_nat (List.length (filter p tr)).

Definition count_alerts (type : AlertType) (tr : list Event) : Z :=
  count (is_alert type) tr.

(** [create_snapshot] returned. *)
Definition created_ok (e : Event) : bool :=
  match e with
  | EvCall (CreateSnapshot _ _ _) (Returns _) => true
  | _ => false
  end.

(** [delete_snapshot] returned. *)
Definition deleted_ok (e : Event) : bool :=
  match e with
  | EvCall (DeleteSnapshot _ _) (Returns _) => true
  | _ => false
  end.

(** A call on one volume of the storage account. *)
Definition is_volume_call (c : Call) : bool :=
  match c with
  | ValidateAfsExists _ | IsSnapshotAlreadyCreatedToday _
  | ValidateAfsSnapshotsStorageLimit _ _ | CreateSnapshot _ _ _
  | GetSnapshots _ | DeleteSnapshot _ _ => true
  | _ => false
  end.

Definition is_call (sel : Call -> bool) (e : Event) : bool :=
  match e with
  | EvCall c _ => sel c
  | _ => false
  end.

(** The text of the exception when [e] is a call selected by [sel] that
    raised. *)
Definition raised_by (sel : Call -> bool) (e : Event) : option string :=
  match e with
  | EvCall c (Raises text) => if sel c then Some text else None
  | _ => None
  end.

Definition is_ValidateAfsExists (c : Call) : bool :=
  match c with ValidateAfsExists _ => true | _ => false end.

Definition is_ValidateStorage (c : Call) : bool :=
  match c with ValidateStorage => true | _ => false end.

Definition is_GetAfsList (c : Call) : bool :=
  match c with GetAfsList _ => true | _ => false end.

Definition is_GetSnapshots (c : Call) : bool :=
  match c with GetSnapshots _ => true | _ => false end.


(** The calls of the creation procedure of one volume. *)
Definition is_creation_call (c : Call) : bool :=
  match c with
  | ValidateAfsSnapshotsStorageLimit _ _ | CreateSnapshot _ _ _ => true
  | _ => false
  end.

Definition is_error_log (e : Event) : bool :=
  match e with
  | EvLog ERROR _ => true
  | EvPrintExc _ => true
  | _ => false
  end.

(** The final summary line of either runbook. *)
Definition is_summary (e : Event) : bool :=
  match e with
  | EvLog _ (CreationJobCompleted _ _) => true
  | EvLog _ (DeletionJobCompleted _ _) => true
  | _ => false
  end.

(** What [main]'s [except Exception] block adds to the trace for the
    exception text [ex]: the traceback, one FAIL alert, one error line. *)
Definition is_fatal_report (ex : string) (tr : list Event) : Prop :=
  exists alerting start_time message,
    tr = [EvPrintExc ex;
          EvAlert alerting FAIL start_time (Some message) None;
          EvLog ERROR (Text message)].

(** ** Judgments on computations *)

(** A property of traces that holds of the empty trace and is kept by
    concatenation. *)
Definition closed (Q : list Event -> Prop) : Prop :=
  Q [] /\ forall a b, Q a -> Q b -> Q (a ++ b).

(** Whatever the environment, history and globals, the events [m] adds
    satisfy [Q]. *)
Definition always {G A} (Q : list Event -> Prop) (m : M G A) : Prop :=
  forall E h g, Q (emitted (m E h g)).

(** [m] adds no event that [p] selects. *)
Definition quiet {G A} (p : Event -> bool) (m : M G A) : Prop :=
  always (Forall (fun e => p e = false)) m.

(** A selected call that raises ends [m] at once, with that exception. *)
Definition fatal_at {G A} (F : Event -> option string) (r : result G A)
  : Prop :=
  forall pre e post text,
    emitted r = pre ++ e :: post -> F e = Some text ->
    post = [] /\ out r = Raise (Exception text).

Definition fails_fast {G A} (F : Event -> option string) (m : M G A) : Prop :=
  forall E h g, fatal_at F (m E h g).

(** The global counter of [m]'s module moves by exactly the number of
    events selected by [p] that [m] adds. *)
Definition tracks {G A} (counter : G -> Z) (p : Event -> bool) (m : M G A)
  : Prop :=
  forall E h g,
    counter (globals (m E h g)) = counter g + count p (emitted (m E h g)).


(** What [main] does before its [try] block: it draws the correlation id,
    reads the clock, logs the banner and asks for the customer id. *)
Definition is_startup_event (e : Event) : bool :=
  match e with
  | EvCall Uuid4 _ | EvCall GetCurrentDatetime _ | EvCall (GetCid _) _ => true
  | EvLog INFO (StartingCreationJob _ _) | EvLog INFO (StartingDeletionJob _)
  | EvLog INFO (RunbookType _) | EvLog INFO (ScriptVersion _)
  | EvLog INFO (CustomerID _) => true
  | _ => false
  end.

(** A call that lists the volumes or works on one of them. *)
Definition touches_volumes (c : Call) : bool :=
  is_GetAfsList c || is_volume_call c.

(** What [get_current_datetime()] answers to the deletion flow's [main]
    at line 164: the second call of the run, after the correlation id was
    drawn. *)
Definition run_start_time (E : Env) : datetime :=
  env_get_current_datetime E [EvCall Uuid4 (Returns (VStr (env_uuid4 E [])))].

(** Every [delete_snapshot] call of the trace is on a snapshot that passes
    the retention gate and is expired at [now]. *)
Definition deletes_only_expired (now : datetime) (tr : list Event) : Prop :=
  Forall (fun e =>
            match e with
            | EvCall (DeleteSnapshot _ s) _ =>
                Deletionsnappy.retention_gate s = true /\
                Deletionsnappy.__has_snapshot_expired now s = Ret true
            | _ => True
            end) tr.

(** Every snapshot of a listing that passes the retention gate and is
    expired at [now] has its [delete_snapshot] call in the trace. *)
Definition deletes_every_expired (now : datetime) (tr : list Event) : Prop :=
  forall afs_name l s,
    In (EvCall (GetSnapshots afs_name) (Returns (VSnapshotList l))) tr ->
    1 <= SnapshotList.total l ->
    In s (SnapshotList.snapshots l) ->
    Deletionsnappy.retention_gate s = true ->
    Deletionsnappy.__has_snapshot_expired now s = Ret true ->
    exists reply, In (EvCall (DeleteSnapshot afs_name s) reply) tr.

(** The trace ends with the summary line [e], and has no other. *)
Definition ends_with_summary (e : Event) (tr : list Event) : Prop :=
  exists d, tr = d ++ [e] /\ count is_summary d = 0.

(** Every volume of a listing has its existence check in the trace: a
    failure on one volume does not keep the run from the others. *)
Definition visits_every_listed_volume (tr : list Event) : Prop :=
  forall exclude l afs_name,
    In (EvCall (GetAfsList exclude) (Returns (VAfsList l))) tr ->
    1 <= AfsList.total l ->
    In afs_name (AfsList.afs_list l) ->
    exists reply, In (EvCall (ValidateAfsExists afs_name) reply) tr.

(** A snapshot of a non-empty listing of the trace. *)
Definition listed (tr : list Event) (afs_name : string) (s : Snapshot)
  : Prop :=
  exists l,
    In (EvCall (GetSnapshots afs_name) (Returns (VSnapshotList l))) tr /\
    1 <= SnapshotList.total l /\
    In s (SnapshotList.snapshots l).

(** [delete_snapshot] was called on the snapshot. *)
Definition deletion_requested (tr : list Event) (afs_name : string)
  (s : Snapshot) : Prop :=
  exists reply, In (EvCall (DeleteSnapshot afs_name s) reply) tr.

(** ** Vocabulary of the further properties *)

Definition is_DeleteSnapshot (c : Call) : bool :=
  match c with DeleteSnapshot _ _ => true | _ => false end.

Definition is_CreateSnapshot (c : Call) : bool :=
  match c with CreateSnapshot _ _ _ => true | _ => false end.

(** Every [delete_snapshot] call of the trace is on a snapshot that a
    non-empty listing of the same volume, in the same trace, contains. *)
Definition deletes_only_listed (tr : list Event) : Prop :=
  forall afs_name s reply,
    In (EvCall (DeleteSnapshot afs_name s) reply) tr -> listed tr afs_name s.

(** The per-volume line that closes [__delete_snapshots_in_afs]. *)
Definition is_volume_summary (e : Event) : bool :=
  match e with
  | EvLog _ (SnapshotsDeletedInAfs _ _ _) => true
  | _ => false
  end.

(** The [delete_snapshot] calls of a trace are on the volume [afs] and on
    snapshots that satisfy [P]. *)
Definition targets (afs : string) (P : Snapshot -> Prop) (tr : list Event)
  : Prop :=
  Forall (fun e => match e with
                   | EvCall (DeleteSnapshot afs' s) _ => afs' = afs /\ P s
                   | _ => True
                   end) tr.

(** Objects and scripted backends for concrete runs of single
    procedures. *)
Module Fixture.

Definition storage_manager : StorageManager.t :=
  StorageManager.new "sub" "rg" "storage" "token" "cid".

Definition volume (afs_name : string) : AFSManager.t :=
  AFSManager.new "token" storage_manager afs_name "cid".

Definition alerting : Alerting.t :=
  Alerting.TICHttpBasedAlerting "sub" "CID" "storage" "1.0.0" "cid" "SID"
                                "storage".

(** One volume with two expired snapshots; the backend refuses to delete
    the first. *)
Definition stubborn : Scenario.t :=
  Scenario.mk Scenario.march_first true (Returns true) true
    [Scenario.mk_Volume "v1" true false true true
       [Scenario.new_year "a" (Some 30); Scenario.new_year "b" (Some 30)]
       ["a"%string]].

(** One volume whose snapshots carry no retention, or a negative one. *)
Definition untagged : Scenario.t :=
  Scenario.mk Scenario.march_first true (Returns true) true
    [Scenario.mk_Volume "v1" true false true true
       [Scenario.new_year "a" None; Scenario.new_year "b" (Some (-1))] []].

(** One volume without snapshots. *)
Definition bare : Scenario.t :=
  Scenario.mk Scenario.march_first true (Returns true) true
    [Scenario.healthy_volume "v1"].

(** The backend of [E], but with a customer id service that fails. *)
Definition without_customer (E : Env) : Env :=
  mk_Env (env_uuid4 E) (env_get_current_datetime E)
         (fun _ _ => Raises "CustomerNotFound")
         (env_validate_is_numeric E) (env_get_managed_identity_token E)
         (env_validate_storage E) (env_is_softdelete_enabled E)
         (env_enable_file_share_softdelete E) (env_get_afs_list E)
         (env_validate_afs_exists E)
         (env_is_snapshot_already_created_today E)
         (env_validate_afs_snapshots_storage_limit E) (env_create_snapshot E)
         (env_get_snapshots E) (env_delete_snapshot E) (env_int E).

End Fixture.

(** The volumes named by the SUCCESS alerts of a trace, in order. *)
Definition success_names (tr : list Event) : list string :=
  flat_map (fun e => match e with
                     | EvAlert _ SUCCESS _ _ (Some afs_name) => [afs_name]
                     | _ => []
                     end) tr.

(** The line of the creation flow that skips a volume already
    snapshotted today. *)
Definition is_skipped_today (e : Event) : bool :=
  match e with
  | EvLog _ (AlreadyCreatedToday _) => true
  | _ => false
  end.

(** How many volumes a trace reports by a SUCCESS alert or skips as
    already snapshotted today. *)
Definition reported_or_skipped (tr : list Event) : Z :=
  count_alerts SUCCESS tr + count is_skipped_today tr.

(** A call that reaches the credential service or the storage backend:
    every call but the correlation id, the clock, the customer id and the
    numeric check of the retention days. *)
Definition reaches_backend (c : Call) : bool :=
  match c with
  | Uuid4 | GetCurrentDatetime | GetCid _ | ValidateIsNumeric _ _ => false
  | _ => true
  end.

Definition is_ValidateIsNumeric (c : Call) : bool :=
  match c with ValidateIsNumeric _ _ => true | _ => false end.

Definition is_EnableFileShareSoftdelete (c : Call) : bool :=
  match c with EnableFileShareSoftdelete _ => true | _ => false end.

(** The parameters that the calls of a creation run must carry: the
    retention days and the ad-hoc flag of the run on [create_snapshot],
    the constants of the module on the limit and on soft delete, the
    automation variables on the listing and on the customer id. *)
Definition carries_run_parameters (cfg : Config) (e : Event) : Prop :=
  match e with
  | EvCall (CreateSnapshot _ retention is_adhoc) _ =>
      retention = Backupsnappy.retention_days cfg /\
      is_adhoc = Backupsnappy.is_adhoc_backup cfg
  | EvCall (ValidateAfsSnapshotsStorageLimit _ limit) _ =>
      limit = Backupsnappy.AFS_TOTAL_SNAPSHOTS_LIMIT
  | EvCall (EnableFileShareSoftdelete days) _ =>
      days = Backupsnappy.AFS_SOFTDELETE_RETENTION_DAYS
  | EvCall (GetAfsList exclude) _ => exclude = EXCLUDE_AFS cfg
  | EvCall (GetCid resource_group) _ => resource_group = RESOURCE_GROUP cfg
  | _ => True
  end.

(** The alerts of a trace are all sent by [alerting] with the start time
    [start_time]. *)
Definition alerts_from (alerting : Alerting.t) (start_time : datetime)
  (tr : list Event) : Prop :=
  Forall (fun e => match e with
                   | EvAlert sender _ t _ _ =>
                       sender = alerting /\ t = start_time
                   | _ => True
                   end) tr.

Definition is_Uuid4 (c : Call) : bool :=
  match c with Uuid4 => true | _ => false end.

(** The alerts of a trace are all sent by [alerting], and its SUCCESS
    alerts carry the start time [start_time]. *)
Definition alerts_sent_by (alerting : Alerting.t) (start_time : datetime)
  (tr : list Event) : Prop :=
  Forall (fun e => match e with
                   | EvAlert sender type t _ _ =>
                       sender = alerting /\
                       (type = SUCCESS -> t = start_time)
                   | _ => True
                   end) tr.

Definition is_GetCid (c : Call) : bool :=
  match c with GetCid _ => true | _ => false end.

(** An external call that raised. *)
Definition is_raised (e : Event) : bool :=
  match e with
  | EvCall _ (Raises _) => true
  | _ => false
  end.

(** 1 when the outcome is an exception still on its way up, else 0. *)
Definition pending {A} (o : outcome A) : Z :=
  match o with
  | Raise (Exception _) => 1
  | _ => 0
  end.

(** In the environment [E], every call that raised inside [m] has been
    answered by one FAIL alert, except the one whose exception [m] itself
    ends with. *)
Definition accounted (E : Env) {G A} (m : M G A) : Prop :=
  forall h g,
    count is_raised (emitted (m E h g))
    = count_alerts FAIL (emitted (m E h g)) + pending (out (m E h g)).

(** A handler: it sends the one FAIL alert that answers the exception it
    was entered with. *)
Definition settles {G A} (m : M G A) : Prop :=
  forall E h g,
    count is_raised (emitted (m E h g)) + 1
    = count_alerts FAIL (emitted (m E h g)) + pending (out (m E h g)).

(** A [finally] block that only logs. *)
Definition silent {G} (m : M G unit) : Prop :=
  forall E h g,
    out (m E h g) = Ret tt /\
    count is_raised (emitted (m E h g)) = 0 /\
    count_alerts FAIL (emitted (m E h g)) = 0.

(** The calls that [main] makes inside its [try] block but outside the
    handlers of the soft-delete guard and of the per-volume procedures. *)
Definition is_unguarded (c : Call) : bool :=
  match c with
  | ValidateIsNumeric _ _ | GetManagedIdentityToken _ | ValidateStorage
  | GetAfsList _ | ValidateAfsExists _ | IsSnapshotAlreadyCreatedToday _ =>
      true
  | _ => false
  end.

(** In the environment [E], when [m] ends by an exception, its last event
    is the call that raised it, and [sel] selects that call. *)
Definition raises_from (sel : Call -> bool) (E : Env) {G A} (m : M G A)
  : Prop :=
  forall h g text,
    out (m E h g) = Raise (Exception text) ->
    exists before c,
      emitted (m E h g) = before ++ [EvCall c (Raises text)] /\ sel c = true.

(** The volume a call works on, when it works on one. *)
Definition volume_of (c : Call) : option string :=
  match c with
  | ValidateAfsExists afs_name | IsSnapshotAlreadyCreatedToday afs_name
  | ValidateAfsSnapshotsStorageLimit afs_name _ | CreateSnapshot afs_name _ _
  | GetSnapshots afs_name | DeleteSnapshot afs_name _ => Some afs_name
  | _ => None
  end.

(** The calls of the trace that work on a volume work on one of [names]. *)
Definition within (names : list string) (tr : list Event) : Prop :=
  Forall (fun e => match e with
                   | EvCall c _ =>
                       match volume_of c with
                       | Some afs_name => In afs_name names
                       | None => True
                       end
                   | _ => True
                   end) tr.

(** Every call of the trace on a volume comes with a validation of the
    storage account that returned and with a listing, asked with the
    exclusion [exclude] and holding at least one volume, that names the
    volume. *)
Definition touches_only_listed (exclude : string) (tr : list Event) : Prop :=
  forall c reply afs_name,
    In (EvCall c reply) tr -> volume_of c = Some afs_name ->
    In (EvCall ValidateStorage (Returns VNone)) tr /\
    exists l,
      In (EvCall (GetAfsList exclude) (Returns (VAfsList l))) tr /\
      1 <= AfsList.total l /\
      In afs_name (AfsList.afs_list l).

(** Every [create_snapshot] call of the trace is on a volume whose
    existence check and limit validation returned and, unless the run is
    ad-hoc, whose created-today check answered no. *)
Definition creation_is_cleared (adhoc : bool) (tr : list Event) : Prop :=
  forall afs_name retention is_adhoc reply,
    In (EvCall (CreateSnapshot afs_name retention is_adhoc) reply) tr ->
    In (EvCall (ValidateAfsExists afs_name) (Returns VNone)) tr /\
    In (EvCall (ValidateAfsSnapshotsStorageLimit afs_name
                  Backupsnappy.AFS_TOTAL_SNAPSHOTS_LIMIT) (Returns VNone))
       tr /\
    (adhoc = false ->
     In (EvCall (IsSnapshotAlreadyCreatedToday afs_name)
                (Returns (VBool false))) tr).

(** Every listing and every deletion of snapshots in the trace is on a
    volume whose existence check returned. *)
Definition deletion_is_cleared (tr : list Event) : Prop :=
  forall c reply afs_name,
    In (EvCall c reply) tr ->
    is_GetSnapshots c || is_DeleteSnapshot c = true ->
    volume_of c = Some afs_name ->
    In (EvCall (ValidateAfsExists afs_name) (Returns VNone)) tr.

(** The calls that only the creation flow makes. *)
Definition creation_only (c : Call) : bool :=
  match c with
  | ValidateIsNumeric _ _ | IsSoftdeleteEnabled | EnableFileShareSoftdelete _
  | IsSnapshotAlreadyCreatedToday _ | ValidateAfsSnapshotsStorageLimit _ _
  | CreateSnapshot _ _ _ => true
  | _ => false
  end.

(** The calls that only the deletion flow makes. *)
Definition deletion_only (c : Call) : bool :=
  match c with
  | GetSnapshots _ | DeleteSnapshot _ _ => true
  | _ => false
  end.

(** What carries a correlation id carries [cid]: the request for the
    identity token, the log lines that interpolate the id as a value of
    its own, and the alerting object of every alert. *)
Definition correlates (cid : string) (e : Event) : Prop :=
  match e with
  | EvCall (GetManagedIdentityToken c) _ => c = cid
  | EvLog _ (WatchStarting _ c) | EvLog _ (WatchElapsed _ c _)
  | EvLog _ (StartingCreationJob _ c) | EvLog _ (StartingDeletionJob c)
  | EvLog _ (CreationJobCompleted _ c) | EvLog _ (DeletionJobCompleted _ c)
  | EvLog _ (NoSnapshotsInAfs _ c) | EvLog _ (SnapshotsDeletedInAfs _ _ c) =>
      c = cid
  | EvAlert sender _ _ _ _ => Alerting.correlation_id sender = cid
  | _ => True
  end.

(** ** Proof automation for the judgments *)

(** [r] with the events [d] in front of its own. *)
Definition prepend {G A} (d : list Event) (r : result G A) : result G A :=
  mk_result (out r) (d ++ emitted r) (globals r).

Create HintDb afs_snappy discriminated.
Create HintDb runbook discriminated.

#[global] Hint Unfold info warning error add_seperator uuid4
  get_current_datetime get_cid validate_is_numeric sys_exit print_exc send
  watch IdentityManager.get_managed_identity_token
  StorageManager.validate_storage StorageManager.is_softdelete_enabled
  StorageManager.enable_file_share_softdelete StorageManager.get_afs_list
  AFSManager.validate_afs_exists AFSManager.is_snapshot_already_created_today
  AFSManager.validate_afs_snapshots_storage_limit AFSManager.create_snapshot
  AFSManager.get_snapshots AFSManager.delete_snapshot
  : afs_snappy.

#[global] Hint Unfold
  Deletionsnappy.__delete_snapshot Deletionsnappy.snapshot_loop_body
  Deletionsnappy.__delete_snapshots_in_afs Deletionsnappy.volume_loop_body
  Deletionsnappy.main_try Deletionsnappy.main_except Deletionsnappy.main
  Backupsnappy.__enable_softdelete_in_file_share
  Backupsnappy.__create_afs_snapshot Backupsnappy.volume_loop_body
  Backupsnappy.main_try Backupsnappy.main_except Backupsnappy.main
  : runbook.

(** * Properties *)

(** ** Python's datetime *)

Lemma timedelta_new_days (d s us : Z) :
  days (timedelta_new d s us) = ((d * 86400 + s) * 1000000 + us) / us_per_day.
Proof.
  unfold timedelta_new, divmod, us_per_day; cbn [days].
  change (24 * 3600) with 86400.
  change (86400 * 1000000) with 86400000000.
  Z.div_mod_to_equations. lia.
Qed.

Lemma sub_days (a b : datetime) :
  days (sub a b) = days_since a b.
Proof.
  unfold sub, days_since. rewrite timedelta_new_days.
  f_equal. unfold instant. lia.
Qed.

(** ** Rules of the judgments *)

Lemma closed_Forall (P : Event -> Prop) : closed (Forall P).
Proof.
  split; [constructor |].
  intros a b Ha Hb. apply Forall_app. split; assumption.
Qed.

Lemma count_app (p : Event -> bool) (a b : list Event) :
  count p (a ++ b) = count p a + count p b.
Proof.
  unfold count. rewrite filter_app, length_app. lia.
Qed.

Lemma count_nonneg (p : Event -> bool) (tr : list Event) : 0 <= count p tr.
Proof. unfold count. lia. Qed.

Lemma count_quiet (p : Event -> bool) (tr : list Event) :
  Forall (fun e => p e = false) tr -> count p tr = 0.
Proof.
  unfold count. induction 1 as [| e tr He _ IH]; [reflexivity |].
  cbn [filter]. rewrite He. exact IH.
Qed.

Lemma tracks_never_decrements {G A} (counter : G -> Z) (p : Event -> bool)
      (m : M G A) :
  tracks counter p m ->
  forall E h g, counter g <= counter (globals (m E h g)).
Proof.
  intros H E h g. rewrite (H E h g).
  pose proof (count_nonneg p (emitted (m E h g))). lia.
Qed.

Section Rules.
Context {G : Type}.

Section Always.
Variable Q : list Event -> Prop.
Hypothesis HQ : closed Q.

Lemma always_ret {A} (a : A) : always Q (ret (G := G) a).
Proof. intros E h g. apply HQ. Qed.

Lemma always_raise {A} (s : signal) : always Q (raise (G := G) (A := A) s).
Proof. intros E h g. apply HQ. Qed.

Lemma always_get : always Q (get (G := G)).
Proof. intros E h g. apply HQ. Qed.

Lemma always_put (g0 : G) : always Q (put g0).
Proof. intros E h g. apply HQ. Qed.

Lemma always_lift {A} (o : outcome A) : always Q (lift (G := G) o).
Proof. intros E h g. apply HQ. Qed.

Lemma always_builtin {A} (f : Env -> outcome A) :
  always Q (builtin (G := G) f).
Proof. intros E h g. apply HQ. Qed.

Lemma always_emit (e : Event) : Q [e] -> always Q (emit (G := G) e).
Proof. intros He E h g. exact He. Qed.

Lemma always_call {A} (c : Call) (inj : A -> Value) ask :
  (forall r, Q [EvCall c r]) -> always Q (call (G := G) c inj ask).
Proof.
  intros Hc E h g. unfold call. destruct (ask E h); apply Hc.
Qed.

Lemma always_call_total {A} (c : Call) (inj : A -> Value) ask :
  (forall r, Q [EvCall c r]) -> always Q (call_total (G := G) c inj ask).
Proof. intros Hc E h g. apply Hc. Qed.

Lemma always_bind {A B} (m : M G A) (f : A -> M G B) :
  always Q m -> (forall a, always Q (f a)) -> always Q (bind m f).
Proof.
  intros Hm Hf E h g. unfold bind.
  specialize (Hm E h g). destruct (m E h g) as [o d g1]. cbn in Hm.
  destruct o as [a | s]; [| exact Hm].
  specialize (Hf a E (h ++ d) g1).
  destruct (f a E (h ++ d) g1) as [o' d' g2]. cbn in *.
  apply HQ; assumption.
Qed.

Lemma always_try_except {A} (body : M G A) (handler : string -> M G A) :
  always Q body -> (forall ex, always Q (handler ex)) ->
  always Q (try_except body handler).
Proof.
  intros Hm Hf E h g. unfold try_except.
  specialize (Hm E h g). destruct (body E h g) as [o d g1]. cbn in Hm.
  destruct o as [a | [ex | code |]]; try exact Hm.
  specialize (Hf ex E (h ++ d) g1).
  destruct (handler ex E (h ++ d) g1) as [o' d' g2]. cbn in *.
  apply HQ; assumption.
Qed.

Lemma always_try_finally {A} (body : M G A) (final : M G unit) :
  always Q body -> always Q final -> always Q (try_finally body final).
Proof.
  intros Hm Hf E h g. unfold try_finally.
  specialize (Hm E h g). destruct (body E h g) as [o d g1]. cbn in Hm.
  specialize (Hf E (h ++ d) g1).
  destruct (final E (h ++ d) g1) as [o' d' g2]. cbn in Hf.
  destruct o'; cbn; apply HQ; assumption.
Qed.

Lemma always_for_each {A} (l : list A) (body : A -> M G unit) :
  (forall x, always Q (body x)) -> always Q (for_each l body).
Proof.
  intros Hb. induction l as [| x l IH]; intros E h g; cbn.
  - apply HQ.
  - specialize (Hb x E h g). destruct (body x E h g) as [o d g1]. cbn in Hb.
    specialize (IH E (h ++ d) g1).
    destruct (for_each l body E (h ++ d) g1) as [o' d' g2]. cbn in IH.
    destruct o as [a | [ex | code |]]; cbn; try exact Hb;
      apply HQ; assumption.
Qed.

Lemma always_for_fold {A S} (l : list A) (acc : S) (body : A -> S -> M G S) :
  (forall x s, always Q (body x s)) -> always Q (for_fold l acc body).
Proof.
  intros Hb. revert acc. induction l as [| x l IH]; intros acc; cbn.
  - apply always_ret.
  - apply always_bind; [apply Hb | intros a; apply IH].
Qed.

End Always.

Section FailsFast.
Variable F : Event -> option string.

Lemma fatal_at_quiet {A} (r : result G A) :
  Forall (fun e => F e = None) (emitted r) -> fatal_at F r.
Proof.
  intros Hq pre e post text Heq He. rewrite Heq in Hq.
  apply Forall_app in Hq. destruct Hq as [_ Hq].
  inversion Hq; subst. congruence.
Qed.

Lemma fails_fast_quiet {A} (m : M G A) :
  always (Forall (fun e => F e = None)) m -> fails_fast F m.
Proof. intros Hm E h g. apply fatal_at_quiet, Hm. Qed.

(** Where an event of a concatenation lies. *)
Lemma split_event (a b pre post : list Event) (e : Event) :
  a ++ b = pre ++ e :: post ->
  (exists post1, a = pre ++ e :: post1 /\ post = post1 ++ b) \/
  (exists pre2, b = pre2 ++ e :: post /\ pre = a ++ pre2).
Proof.
  intros H. apply app_eq_app in H. destruct H as [l [[H1 H2] | [H1 H2]]].
  - destruct l as [| x l].
    + right. exists []. cbn in H2. rewrite app_nil_r in H1. subst. split.
      * reflexivity.
      * now rewrite app_nil_r.
    + left. cbn in H2. inversion H2; subst. exists l. split; reflexivity.
  - right. exists l. split; assumption.
Qed.

Lemma fails_fast_bind {A B} (m : M G A) (f : A -> M G B) :
  fails_fast F m -> (forall a, fails_fast F (f a)) -> fails_fast F (bind m f).
Proof.
  intros Hm Hf E h g. unfold bind.
  specialize (Hm E h g). destruct (m E h g) as [o d g1].
  destruct o as [a | s].
  2:{ intros pre e post text Heq He.
      destruct (Hm pre e post text Heq He) as [Hp Ho]. cbn in Ho.
      injection Ho as ->. split; [exact Hp | reflexivity]. }
  specialize (Hf a E (h ++ d) g1).
  destruct (f a E (h ++ d) g1) as [o' d' g2].
  intros pre e post text Heq He. cbn in Heq.
  apply split_event in Heq. destruct Heq as [[post1 [H1 H2]] | [pre2 [H1 H2]]].
  - destruct (Hm pre e post1 text H1 He) as [_ Hout]. discriminate Hout.
  - exact (Hf pre2 e post text H1 He).
Qed.

Lemma fails_fast_for_each {A} (l : list A) (body : A -> M G unit) :
  (forall x, fails_fast F (body x)) -> fails_fast F (for_each l body).
Proof.
  intros Hb. induction l as [| x l IH]; intros E h g; cbn.
  - intros pre e post text Heq _. cbn in Heq. now destruct pre.
  - specialize (Hb x E h g). destruct (body x E h g) as [o d g1].
    specialize (IH E (h ++ d) g1).
    destruct (for_each l body E (h ++ d) g1) as [o' d' g2].
    assert (Hcont :
      (forall pre e post text, d = pre ++ e :: post -> F e = Some text -> False) ->
      fatal_at F (mk_result o' (d ++ d') g2)).
    { intros Hno pre e post text Heq He. cbn in Heq.
      apply split_event in Heq.
      destruct Heq as [[post1 [H1 H2]] | [pre2 [H1 H2]]].
      - destruct (Hno pre e post1 text H1 He).
      - exact (IH pre2 e post text H1 He). }
    destruct o as [a | [ex | code |]]; try exact Hb; apply Hcont;
      intros pre e post text H1 He;
      destruct (Hb pre e post text H1 He) as [_ Hout]; discriminate Hout.
Qed.

End FailsFast.

Lemma fails_fast_call {A} (sel : Call -> bool) (c : Call) (inj : A -> Value)
  ask :
  fails_fast (raised_by sel) (call (G := G) c inj ask).
Proof.
  intros E h g. unfold call.
  destruct (ask E h) as [a | text']; intros pre e post text Heq He; cbn in Heq.
  - destruct pre as [| x pre]; [| now destruct pre].
    inversion Heq; subst. discriminate He.
  - destruct pre as [| x pre]; [| now destruct pre].
    inversion Heq; subst. cbn in He. destruct (sel c); [| discriminate].
    inversion He; subst. split; reflexivity.
Qed.

Section Tracks.
Variable counter : G -> Z.
Variable p : Event -> bool.

Lemma tracks_bind {A B} (m : M G A) (f : A -> M G B) :
  tracks counter p m -> (forall a, tracks counter p (f a)) ->
  tracks counter p (bind m f).
Proof.
  intros Hm Hf E h g. unfold bind.
  specialize (Hm E h g). destruct (m E h g) as [o d g1]. cbn in Hm.
  destruct o as [a | s]; [| exact Hm].
  specialize (Hf a E (h ++ d) g1).
  destruct (f a E (h ++ d) g1) as [o' d' g2]. cbn in *.
  rewrite count_app. lia.
Qed.

Lemma tracks_try_except {A} (body : M G A) (handler : string -> M G A) :
  tracks counter p body -> (forall ex, tracks counter p (handler ex)) ->
  tracks counter p (try_except body handler).
Proof.
  intros Hm Hf E h g. unfold try_except.
  specialize (Hm E h g). destruct (body E h g) as [o d g1]. cbn in Hm.
  destruct o as [a | [ex | code |]]; try exact Hm.
  specialize (Hf ex E (h ++ d) g1).
  destruct (handler ex E (h ++ d) g1) as [o' d' g2]. cbn in *.
  rewrite count_app. lia.
Qed.

Lemma tracks_try_finally {A} (body : M G A) (final : M G unit) :
  tracks counter p body -> tracks counter p final ->
  tracks counter p (try_finally body final).
Proof.
  intros Hm Hf E h g. unfold try_finally.
  specialize (Hm E h g). destruct (body E h g) as [o d g1]. cbn in Hm.
  specialize (Hf E (h ++ d) g1).
  destruct (final E (h ++ d) g1) as [o' d' g2]. cbn in Hf.
  destruct o'; cbn; rewrite count_app; lia.
Qed.

Lemma tracks_for_each {A} (l : list A) (body : A -> M G unit) :
  (forall x, tracks counter p (body x)) -> tracks counter p (for_each l body).
Proof.
  intros Hb. induction l as [| x l IH]; intros E h g; cbn.
  - unfold count. cbn. lia.
  - specialize (Hb x E h g). destruct (body x E h g) as [o d g1]. cbn in Hb.
    specialize (IH E (h ++ d) g1).
    destruct (for_each l body E (h ++ d) g1) as [o' d' g2]. cbn in IH.
    destruct o as [a | [ex | code |]]; cbn; try exact Hb;
      rewrite count_app; lia.
Qed.

Lemma tracks_for_fold {A S} (l : list A) (acc : S) (body : A -> S -> M G S) :
  (forall x s, tracks counter p (body x s)) ->
  tracks counter p (for_fold l acc body).
Proof.
  intros Hb. revert acc. induction l as [| x l IH]; intros acc; cbn.
  - intros E h g. unfold count. cbn. lia.
  - apply tracks_bind; [apply Hb | intros a; apply IH].
Qed.

End Tracks.

End Rules.

(** ** Deciding a judgment by the shape of the code *)

Ltac one_event :=
  cbn;
  try match goal with
      | r : reply _ |- _ => destruct r
      end;
  cbn; try reflexivity; try exact I; auto.

Ltac forall_event := constructor; [one_event | constructor].

(** [always Q m] by recursion on [m]: [cl] proves [closed Q], [ev] proves
    [Q] of a single event, [known] closes a goal about a procedure that has
    a lemma of its own. *)
Ltac always_gen cl ev known :=
  repeat (intros; cbv zeta;
    first
    [ solve [known]
    | lazymatch goal with
      | |- always _ (bind _ _) => apply always_bind; [cl | | intros ?]
      | |- always _ (try_except _ _) =>
          apply always_try_except; [cl | | intros ?]
      | |- always _ (try_finally _ _) => apply always_try_finally; [cl | |]
      | |- always _ (for_each _ _) => apply always_for_each; [cl | intros ?]
      | |- always _ (for_fold _ _ _) =>
          apply always_for_fold; [cl | intros ? ?]
      | |- always _ (ret _) => apply always_ret; cl
      | |- always _ (raise _) => apply always_raise; cl
      | |- always _ get => apply always_get; cl
      | |- always _ (put _) => apply always_put; cl
      | |- always _ (lift _) => apply always_lift; cl
      | |- always _ (builtin _) => apply always_builtin; cl
      | |- always _ (emit _) => apply always_emit; ev
      | |- always _ (call _ _ _) => apply always_call; intros ?; ev
      | |- always _ (call_total _ _ _) =>
          apply always_call_total; intros ?; ev
      | |- always _ (if ?b then _ else _) => destruct b
      | |- always _ (match ?x with _ => _ end) => destruct x
      | |- always _ _ => progress autounfold with afs_snappy runbook
      end ]).

Ltac always_with ev := always_gen ltac:(apply closed_Forall) ev fail.

Ltac quiet_tac := unfold quiet; always_with forall_event.

Lemma quiet_not_in (p : Event -> bool) (e : Event) (tr : list Event) :
  Forall (fun e => p e = false) tr -> p e = true -> ~ In e tr.
Proof.
  intros Hq He Hin. rewrite Forall_forall in Hq. apply Hq in Hin. congruence.
Qed.

(** ** The expiration check *)

(** C1: for a snapshot with a retention value, the expiration check of the
    deletion flow answers true exactly when the whole days elapsed since
    the snapshot was created (the floor of the time difference in days)
    exceed its retention days: elapsed days equal to the retention give
    not expired, one day more gives expired. *)
Theorem has_snapshot_expired_iff
  (now : datetime) (snapshot : Snapshot) (r : Z) :
  retention_days snapshot = Some r ->
  let elapsed := days_since now (created_at snapshot) in
  (Deletionsnappy.__has_snapshot_expired now snapshot = Ret true
   <-> elapsed > r) /\
  (Deletionsnappy.__has_snapshot_expired now snapshot = Ret false
   <-> elapsed <= r) /\
  (elapsed = r ->
   Deletionsnappy.__has_snapshot_expired now snapshot = Ret false) /\
  (elapsed = r + 1 ->
   Deletionsnappy.__has_snapshot_expired now snapshot = Ret true).
Proof.
  intros Hr elapsed.
  assert (Hcode : Deletionsnappy.__has_snapshot_expired now snapshot
                  = Ret (r <? elapsed)).
  { unfold Deletionsnappy.__has_snapshot_expired.
    rewrite Hr, sub_days. reflexivity. }
  rewrite Hcode.
  destruct (Z.ltb_spec r elapsed) as [Hlt | Hge].
  - repeat split; intros; try lia; try reflexivity; try discriminate.
  - repeat split; intros; try lia; try reflexivity; try discriminate.
Qed.

Lemma has_snapshot_expired_iff_witness :
  retention_days
    (mk_Snapshot "daily" (Scenario.midnight 2024 1 1) (Some 60)) = Some 60 /\
  Deletionsnappy.__has_snapshot_expired
    (Scenario.midnight 2024 3 1)
    (mk_Snapshot "daily" (Scenario.midnight 2024 1 1) (Some 60)) = Ret false /\
  Deletionsnappy.__has_snapshot_expired
    (Scenario.midnight 2024 3 2)
    (mk_Snapshot "daily" (Scenario.midnight 2024 1 1) (Some 60)) = Ret true.
Proof.
  split; [reflexivity |]. split.
  - exact (proj1 (proj2 (proj2
      (has_snapshot_expired_iff
         (Scenario.midnight 2024 3 1)
         (mk_Snapshot "daily" (Scenario.midnight 2024 1 1) (Some 60))
         60 eq_refl))) eq_refl).
  - exact (proj2 (proj2 (proj2
      (has_snapshot_expired_iff
         (Scenario.midnight 2024 3 2)
         (mk_Snapshot "daily" (Scenario.midnight 2024 1 1) (Some 60))
         60 eq_refl))) eq_refl).
Defined.

(** ** Running a procedure against an arbitrary environment *)

Ltac destruct_reply :=
  match goal with
  | |- context [match ?x with Returns _ => _ | Raises _ => _ end] =>
      destruct x eqn:?
  end.

Ltac eval_monad :=
  cbv beta iota zeta delta
    [bind ret raise emit get put lift builtin call call_total try_except
     try_finally
     sys_exit print_exc send watch info warning error add_seperator uuid4
     get_current_datetime get_cid validate_is_numeric
     IdentityManager.get_managed_identity_token
     StorageManager.validate_storage StorageManager.is_softdelete_enabled
     StorageManager.enable_file_share_softdelete StorageManager.get_afs_list
     AFSManager.validate_afs_exists
     AFSManager.is_snapshot_already_created_today
     AFSManager.validate_afs_snapshots_storage_limit
     AFSManager.create_snapshot AFSManager.get_snapshots
     AFSManager.delete_snapshot out emitted globals];
  cbn [AFSManager.afs_name StorageManager.object_storage].

Ltac destruct_if :=
  match goal with
  | |- context [if ?b then _ else _] => destruct b eqn:?
  end.

(** Run the code, splitting on each answer of the environment. *)
Ltac run := eval_monad; repeat (destruct_reply; eval_monad).

(** The same, splitting on each test of the code as well. *)
Ltac run_all :=
  eval_monad; repeat (first [destruct_reply | destruct_if]; eval_monad).

(** Membership in an explicit trace, decided by looking at each event. *)
Ltac in_trace :=
  cbn [app In];
  repeat match goal with
         | |- _ \/ _ => first [left; reflexivity | right]
         end.

Ltac not_in_trace H :=
  cbn [app In] in H;
  repeat match type of H with
         | _ \/ _ => destruct H as [H | H]
         end;
  try discriminate H; try contradiction.

(** ** The creation procedure of one volume *)

Section CreateSnapshot.
Variable cfg : Config.

Lemma create_afs_snapshot_run afs_manager cid now alerting adhoc E h g :
  let r := Backupsnappy.__create_afs_snapshot cfg afs_manager cid now
             alerting adhoc E h g in
  let afs := AFSManager.afs_name afs_manager in
  out r = Ret tt /\
  count created_ok (emitted r) + count_alerts FAIL (emitted r) = 1 /\
  count_alerts SUCCESS (emitted r) = 0 /\
  Backupsnappy.snapshots_created (globals r)
  = Backupsnappy.snapshots_created g + count created_ok (emitted r) /\
  Backupsnappy.correlation_id (globals r) = Backupsnappy.correlation_id g /\
  exists reply,
    In (EvCall (ValidateAfsSnapshotsStorageLimit afs
                  Backupsnappy.AFS_TOTAL_SNAPSHOTS_LIMIT) reply) (emitted r) /\
    (reply = Returns VNone ->
     exists reply',
       In (EvCall (CreateSnapshot afs (Backupsnappy.retention_days cfg) adhoc)
                  reply') (emitted r)).
Proof.
  unfold Backupsnappy.__create_afs_snapshot. run.
  - repeat split; try reflexivity; try (cbn; lia).
    eexists. split; [in_trace |]. intros _. eexists. in_trace.
  - repeat split; try reflexivity; try (cbn; lia).
    eexists. split; [in_trace |]. intros _. eexists. in_trace.
  - repeat split; try reflexivity; try (cbn; lia).
    eexists. split; [in_trace |]. intros Hr. discriminate Hr.
Qed.

End CreateSnapshot.
(** ** One volume of the creation flow *)

Section VolumeStep.
Variable cfg : Config.




End VolumeStep.

(** ** The soft-delete guard *)

Lemma softdelete_run sm cid now alerting E h g :
  let r := Backupsnappy.__enable_softdelete_in_file_share sm cid now alerting
             E h g in
  out r = Ret tt /\ globals r = g /\
  count_alerts SUCCESS (emitted r) = 0 /\
  ((exists c text, In (EvCall c (Raises text)) (emitted r)) ->
   count_alerts FAIL (emitted r) = 1 /\
   exists message,
     In (EvAlert alerting FAIL now (Some message) None) (emitted r) /\
     In (EvLog WARNING (Text message)) (emitted r)) /\
  ((forall c text, ~ In (EvCall c (Raises text)) (emitted r)) ->
   count_alerts FAIL (emitted r) = 0).
Proof.
  unfold Backupsnappy.__enable_softdelete_in_file_share. run_all.
  all: repeat match goal with u : unit |- _ => destruct u end.
  all: split; [reflexivity | split; [reflexivity | split; [reflexivity |]]].
  all: split.
  all: first
    [ solve [intros (c & text & Hin); not_in_trace Hin]
    | solve [intros _; reflexivity]
    | solve [intros _; split; [reflexivity | eexists; split; in_trace]]
    | solve [intros Hno; exfalso; eapply Hno; in_trace] ].
Qed.

(** ** Stepping through a sequence of statements *)

Section Steps.
Context {G : Type}.

Lemma prepend_nil {A} (r : result G A) : prepend [] r = r.
Proof. destruct r; reflexivity. Qed.

Lemma prepend_prepend {A} (a b : list Event) (r : result G A) :
  prepend a (prepend b r) = prepend (a ++ b) r.
Proof. unfold prepend; cbn. now rewrite app_assoc. Qed.

Lemma step_bind {A B} (m : M G A) (f : A -> M G B) E h g :
  bind m f E h g =
  match out (m E h g) with
  | Ret a =>
      prepend (emitted (m E h g))
        (f a E (h ++ emitted (m E h g)) (globals (m E h g)))
  | Raise s => mk_result (Raise s) (emitted (m E h g)) (globals (m E h g))
  end.
Proof.
  unfold bind, prepend. destruct (m E h g) as [[a | s] d g1]; cbn.
  - destruct (f a E (h ++ d) g1); reflexivity.
  - reflexivity.
Qed.

Lemma step_emit {B} (e : Event) (f : unit -> M G B) E h g :
  bind (emit e) f E h g = prepend [e] (f tt E (h ++ [e]) g).
Proof. rewrite step_bind. reflexivity. Qed.

Lemma step_call {A B} c (inj : A -> Value) ask (f : A -> M G B) E h g :
  bind (call c inj ask) f E h g =
  match ask E h with
  | Returns a =>
      prepend [EvCall c (Returns (inj a))]
        (f a E (h ++ [EvCall c (Returns (inj a))]) g)
  | Raises text =>
      mk_result (Raise (Exception text)) [EvCall c (Raises text)] g
  end.
Proof. rewrite step_bind. unfold call. destruct (ask E h); reflexivity. Qed.

Lemma step_call_total {A B} c (inj : A -> Value) ask (f : A -> M G B) E h g :
  bind (call_total c inj ask) f E h g =
  prepend [EvCall c (Returns (inj (ask E h)))]
    (f (ask E h) E (h ++ [EvCall c (Returns (inj (ask E h)))]) g).
Proof. rewrite step_bind. reflexivity. Qed.

Lemma step_get {B} (f : G -> M G B) E h g :
  bind get f E h g = f g E h g.
Proof.
  rewrite step_bind. cbn. rewrite app_nil_r. apply prepend_nil.
Qed.

Lemma step_put {B} (g' : G) (f : unit -> M G B) E h g :
  bind (put g') f E h g = f tt E h g'.
Proof.
  rewrite step_bind. cbn. rewrite app_nil_r. apply prepend_nil.
Qed.

Lemma step_ret {A B} (a : A) (f : A -> M G B) E h g :
  bind (ret a) f E h g = f a E h g.
Proof.
  rewrite step_bind. cbn. rewrite app_nil_r. apply prepend_nil.
Qed.

Lemma step_lift {A B} (o : outcome A) (f : A -> M G B) E h g :
  bind (lift o) f E h g =
  match o with
  | Ret a => f a E h g
  | Raise s => mk_result (Raise s) [] g
  end.
Proof.
  rewrite step_bind. cbn. destruct o; [| reflexivity].
  rewrite app_nil_r. apply prepend_nil.
Qed.

Lemma step_builtin {A B} (o : Env -> outcome A) (f : A -> M G B) E h g :
  bind (builtin o) f E h g =
  match o E with
  | Ret a => f a E h g
  | Raise s => mk_result (Raise s) [] g
  end.
Proof.
  rewrite step_bind. cbn. destruct (o E); [| reflexivity].
  rewrite app_nil_r. apply prepend_nil.
Qed.

Lemma step_raise {A B} (s : signal) (f : A -> M G B) E h g :
  bind (raise s) f E h g = mk_result (Raise s) [] g.
Proof. rewrite step_bind. reflexivity. Qed.

Lemma step_assoc {A B C} (m : M G A) (f : A -> M G B) (k : B -> M G C)
  E h g :
  bind (bind m f) k E h g = bind m (fun a => bind (f a) k) E h g.
Proof.
  unfold bind. destruct (m E h g) as [[a | s] d g1]; [| reflexivity].
  destruct (f a E (h ++ d) g1) as [[b | s] d' g2]; [| reflexivity].
  rewrite <- app_assoc. destruct (k b E (h ++ d ++ d') g2).
  now rewrite app_assoc.
Qed.

Lemma step_try_except {A} (body : M G A) (handler : string -> M G A) E h g :
  try_except body handler E h g =
  match out (body E h g) with
  | Raise (Exception ex) =>
      prepend (emitted (body E h g))
        (handler ex E (h ++ emitted (body E h g)) (globals (body E h g)))
  | _ => body E h g
  end.
Proof.
  unfold try_except, prepend.
  destruct (body E h g) as [[a | [ex | code |]] d g1]; cbn; try reflexivity.
  destruct (handler ex E (h ++ d) g1); reflexivity.
Qed.

(** The last statement of a block. *)
Lemma last_emit (e : Event) E h (g : G) :
  emit e E h g = mk_result (Ret tt) [e] g.
Proof. reflexivity. Qed.

Lemma last_ret {A} (a : A) E h (g : G) : ret a E h g = mk_result (Ret a) [] g.
Proof. reflexivity. Qed.

Lemma last_raise {A} (s : signal) E h (g : G) :
  raise (A := A) s E h g = mk_result (Raise s) [] g.
Proof. reflexivity. Qed.

Lemma last_call {A} c (inj : A -> Value) ask E h (g : G) :
  call c inj ask E h g =
  match ask E h with
  | Returns a => mk_result (Ret a) [EvCall c (Returns (inj a))] g
  | Raises text =>
      mk_result (Raise (Exception text)) [EvCall c (Raises text)] g
  end.
Proof. reflexivity. Qed.

End Steps.

Ltac step :=
  first
    [ rewrite step_assoc
    | rewrite step_emit
    | rewrite step_call_total
    | rewrite step_call; destruct_reply
    | rewrite step_get
    | rewrite step_put
    | rewrite step_ret
    | rewrite step_raise
    | rewrite step_lift;
      match goal with
      | |- context [match ?o with Ret _ => _ | Raise _ => _ end] =>
          destruct o eqn:?
      end
    | rewrite step_builtin; cbv beta;
      match goal with
      | |- context [match ?o with Ret _ => _ | Raise _ => _ end] =>
          destruct o eqn:?
      end
    | rewrite last_emit
    | rewrite last_ret
    | rewrite last_raise
    | rewrite last_call; destruct_reply
    | match goal with
      | |- context [bind (if ?b then _ else _) _ _ _ _] => destruct b eqn:?
      | |- context [(if ?b then _ else _) ?E ?h ?g] => destruct b eqn:?
      end ];
  cbv beta.

Ltac steps := autounfold with afs_snappy; cbv beta zeta; repeat step.

Ltac flatten :=
  repeat rewrite prepend_prepend;
  cbn [prepend out emitted globals app];
  repeat rewrite <- app_assoc;
  repeat rewrite app_nil_r;
  cbn [app].

(** Step as far as the code is known, through handlers as well. *)
Ltac walk := repeat progress (steps; flatten).


(** Name what remains of the code after the statements stepped through, and
    record that it adds no event selected by [p]. *)
Ltac continuation_quiet p :=
  match goal with
  | |- context [bind ?m ?f ?E ?h ?g] =>
      let Hq := fresh "Hquiet" in
      assert (Hq : quiet p (bind m f)) by quiet_tac;
      specialize (Hq E h g);
      let o := fresh "o" in
      let d := fresh "d" in
      let g1 := fresh "g" in
      destruct (bind m f E h g) as [o d g1];
      cbn [out emitted globals prepend app] in Hq |- *
  end.

(** ** The shape of a run *)

(** [main]'s [except Exception] block: the report, then [sys.exit(1)]. *)
Lemma backup_except_run cid now alerting ex E h g :
  exists report,
    is_fatal_report ex report /\
    Backupsnappy.main_except cid now alerting ex E h g
    = mk_result (Raise (SystemExit 1)) report g.
Proof.
  unfold Backupsnappy.main_except. steps. flatten.
  eexists. split; [| reflexivity]. do 3 eexists. reflexivity.
Qed.

Lemma deletion_except_run cid now alerting ex E h g :
  exists report,
    is_fatal_report ex report /\
    Deletionsnappy.main_except cid now alerting ex E h g
    = mk_result (Raise (SystemExit 1)) report g.
Proof.
  unfold Deletionsnappy.main_except. steps. flatten.
  eexists. split; [| reflexivity]. do 3 eexists. reflexivity.
Qed.

(** A [try] block under a handler that reports and exits: either the block
    raised an exception and the run ends with the report and status 1, or
    the block's own outcome is the outcome. *)
Lemma attempt_cases {G} (body : M G unit) (handler : string -> M G unit)
  E h g :
  (forall ex E h g,
     exists report,
       is_fatal_report ex report /\
       handler ex E h g = mk_result (Raise (SystemExit 1)) report g) ->
  let tried := body E h g in
  let r := try_except body handler E h g in
  (exists ex report,
     out tried = Raise (Exception ex) /\ is_fatal_report ex report /\
     r = mk_result (Raise (SystemExit 1)) (emitted tried ++ report)
                   (globals tried)) \/
  ((forall ex, out tried <> Raise (Exception ex)) /\ r = tried).
Proof.
  intros Hh tried r. subst tried r. rewrite step_try_except.
  destruct (body E h g) as [[[] | [ex | code |]] d g1]; cbn [out emitted globals].
  - right. split; [discriminate | reflexivity].
  - left. destruct (Hh ex E (h ++ d) g1) as (report & Hrep & ->).
    exists ex, report. repeat split; assumption.
  - right. split; [discriminate | reflexivity].
  - right. split; [discriminate | reflexivity].
Qed.

Lemma backup_run_shape E cfg :
  exists startup,
    Forall (fun e => is_startup_event e = true) startup /\
    ((exists text g0,
        Backupsnappy.snapshots_created g0 = 0 /\
        Backupsnappy.run E cfg
        = mk_result (Raise (Exception text)) startup g0) \/
     (exists cid now alerting g0,
        Backupsnappy.snapshots_created g0 = 0 /\
        let tried := Backupsnappy.main_try cfg cid now alerting E startup g0 in
        (exists ex report,
           out tried = Raise (Exception ex) /\ is_fatal_report ex report /\
           Backupsnappy.run E cfg
           = mk_result (Raise (SystemExit 1))
                       (startup ++ emitted tried ++ report) (globals tried)) \/
        ((forall ex, out tried <> Raise (Exception ex)) /\
         Backupsnappy.run E cfg = prepend startup tried))).
Proof.
  assert (Hshape : forall startup cid now alerting g0 r,
    r = prepend startup
          (try_except (Backupsnappy.main_try cfg cid now alerting)
             (Backupsnappy.main_except cid now alerting) E startup g0) ->
    let tried := Backupsnappy.main_try cfg cid now alerting E startup g0 in
    (exists ex report,
       out tried = Raise (Exception ex) /\ is_fatal_report ex report /\
       r = mk_result (Raise (SystemExit 1))
                     (startup ++ emitted tried ++ report) (globals tried)) \/
    ((forall ex, out tried <> Raise (Exception ex)) /\
     r = prepend startup tried)).
  { intros startup cid now alerting g0 r -> tried.
    destruct (attempt_cases (Backupsnappy.main_try cfg cid now alerting)
                (Backupsnappy.main_except cid now alerting) E startup g0
                (backup_except_run cid now alerting))
      as [(ex & report & Hout & Hrep & ->) | (Hno & ->)].
    - left. exists ex, report. repeat split; assumption.
    - right. split; [assumption | reflexivity]. }
  unfold Backupsnappy.run, Backupsnappy.main.
  steps; flatten.
  1, 3: eexists; split;
    [| right; do 4 eexists; split; [| apply Hshape; reflexivity];
       reflexivity];
    repeat constructor.
  all: eexists; split;
    [| left; do 2 eexists; split; [| reflexivity]; reflexivity];
    repeat constructor.
Qed.

Lemma deletion_run_shape E cfg :
  exists startup,
    Forall (fun e => is_startup_event e = true) startup /\
    ((exists text g0,
        Deletionsnappy.deleted_snapshots g0 = 0 /\
        Deletionsnappy.run E cfg
        = mk_result (Raise (Exception text)) startup g0) \/
     (exists cid alerting g0,
        Deletionsnappy.deleted_snapshots g0 = 0 /\
        let tried :=
          Deletionsnappy.main_try cfg cid (run_start_time E) alerting E
                                  startup g0 in
        (exists ex report,
           out tried = Raise (Exception ex) /\ is_fatal_report ex report /\
           Deletionsnappy.run E cfg
           = mk_result (Raise (SystemExit 1))
                       (startup ++ emitted tried ++ report) (globals tried)) \/
        ((forall ex, out tried <> Raise (Exception ex)) /\
         Deletionsnappy.run E cfg = prepend startup tried))).
Proof.
  assert (Hshape : forall startup cid now alerting g0 r,
    r = prepend startup
          (try_except (Deletionsnappy.main_try cfg cid now alerting)
             (Deletionsnappy.main_except cid now alerting) E startup g0) ->
    let tried := Deletionsnappy.main_try cfg cid now alerting E startup g0 in
    (exists ex report,
       out tried = Raise (Exception ex) /\ is_fatal_report ex report /\
       r = mk_result (Raise (SystemExit 1))
                     (startup ++ emitted tried ++ report) (globals tried)) \/
    ((forall ex, out tried <> Raise (Exception ex)) /\
     r = prepend startup tried)).
  { intros startup cid now alerting g0 r -> tried.
    destruct (attempt_cases (Deletionsnappy.main_try cfg cid now alerting)
                (Deletionsnappy.main_except cid now alerting) E startup g0
                (deletion_except_run cid now alerting))
      as [(ex & report & Hout & Hrep & ->) | (Hno & ->)].
    - left. exists ex, report. repeat split; assumption.
    - right. split; [assumption | reflexivity]. }
  unfold Deletionsnappy.run, Deletionsnappy.main, run_start_time.
  steps; flatten.
  - eexists; split;
      [| right; do 3 eexists; split; [| apply Hshape; reflexivity];
         reflexivity];
      repeat constructor.
  - eexists; split;
      [| left; do 2 eexists; split; [| reflexivity]; reflexivity];
      repeat constructor.
Qed.

(** ** One snapshot and one volume of the deletion flow *)

Lemma delete_snapshot_run snapshot afs_manager cid alerting E h g :
  let r := Deletionsnappy.__delete_snapshot snapshot afs_manager cid alerting
             E h g in
  (exists b, out r = Ret b) /\
  Deletionsnappy.deleted_snapshots (globals r)
  = Deletionsnappy.deleted_snapshots g + count deleted_ok (emitted r) /\
  count deleted_ok (emitted r) + count_alerts FAIL (emitted r) = 1 /\
  count_alerts SUCCESS (emitted r) = 0 /\
  (exists reply,
     In (EvCall (DeleteSnapshot (AFSManager.afs_name afs_manager) snapshot)
                reply) (emitted r)) /\
  Forall (fun e => match e with
                   | EvCall (DeleteSnapshot _ s) _ => s = snapshot
                   | _ => True
                   end) (emitted r).
Proof.
  unfold Deletionsnappy.__delete_snapshot. run.
  all: split; [eexists; reflexivity |].
  all: split; [cbn; lia |].
  all: split; [reflexivity |].
  all: split; [reflexivity |].
  all: split; [eexists; in_trace |].
  all: cbn [app]; repeat constructor.
Qed.

Lemma delete_snapshot_quiet (p : Event -> bool) snapshot afs_manager cid
  alerting :
  (forall r, p (EvCall GetCurrentDatetime r) = false) ->
  (forall afs s r, p (EvCall (DeleteSnapshot afs s) r) = false) ->
  (forall a t s m d, p (EvAlert a t s m d) = false) ->
  (forall l m, p (EvLog l m) = false) ->
  quiet p (Deletionsnappy.__delete_snapshot snapshot afs_manager cid alerting).
Proof.
  intros Hc Hd Ha Hl. unfold quiet.
  always_with ltac:(constructor; [first [apply Hc | apply Hd | apply Ha
                                        | apply Hl] | constructor]).
Qed.

(** The retention gate lets through exactly the snapshots that carry a
    positive retention; for them the expiration check returns. *)
Lemma retention_gate_true (s : Snapshot) :
  Deletionsnappy.retention_gate s = true <->
  exists r, retention_days s = Some r /\ 0 < r.
Proof.
  unfold Deletionsnappy.retention_gate, truthy.
  destruct (retention_days s) as [r |]; split.
  - intros H. apply andb_prop in H. destruct H as [H1 H2].
    apply negb_true_iff, Z.eqb_neq in H1. apply Z.geb_le in H2.
    exists r. split; [reflexivity | lia].
  - intros (r' & Hr & Hpos). injection Hr as ->. apply andb_true_intro. split.
    + apply negb_true_iff, Z.eqb_neq. lia.
    + apply Z.geb_le. lia.
  - discriminate.
  - intros (r' & Hr & _). discriminate Hr.
Qed.

Lemma gated_check_returns (now : datetime) (s : Snapshot) :
  Deletionsnappy.retention_gate s = true ->
  exists b, Deletionsnappy.__has_snapshot_expired now s = Ret b.
Proof.
  intros H. apply retention_gate_true in H. destruct H as (r & Hr & _).
  unfold Deletionsnappy.__has_snapshot_expired. rewrite Hr.
  eexists. reflexivity.
Qed.

Section SnapshotLoop.
Variables (afs_manager : AFSManager.t) (cid : string) (now : datetime)
  (alerting : Alerting.t).

Let body := Deletionsnappy.snapshot_loop_body afs_manager cid now alerting.

Lemma snapshot_step_run snapshot acc E h g :
  let r := body snapshot acc E h g in
  (exists n, out r = Ret n) /\
  Deletionsnappy.deleted_snapshots (globals r)
  = Deletionsnappy.deleted_snapshots g + count deleted_ok (emitted r) /\
  deletes_only_expired now (emitted r) /\
  Forall (fun e => is_call is_GetSnapshots e = false) (emitted r) /\
  count_alerts SUCCESS (emitted r) = 0 /\
  (Deletionsnappy.retention_gate snapshot = true ->
   Deletionsnappy.__has_snapshot_expired now snapshot = Ret true ->
   exists reply,
     In (EvCall (DeleteSnapshot (AFSManager.afs_name afs_manager) snapshot)
                reply) (emitted r)).
Proof.
  assert (Hidle : forall (P1 P2 : Prop) (g : Deletionsnappy.Globals),
    let r := mk_result (Ret acc) [] g in
    (P1 -> P2 -> False) ->
    (exists n, out r = Ret n) /\
    Deletionsnappy.deleted_snapshots (globals r)
    = Deletionsnappy.deleted_snapshots g + count deleted_ok (emitted r) /\
    deletes_only_expired now (emitted r) /\
    Forall (fun e => is_call is_GetSnapshots e = false) (emitted r) /\
    count_alerts SUCCESS (emitted r) = 0 /\
    (P1 -> P2 ->
     exists reply,
       In (EvCall (DeleteSnapshot (AFSManager.afs_name afs_manager) snapshot)
                  reply) (emitted r))).
  { intros P1 P2 g0 r Hno. subst r. cbn [out emitted globals].
    split; [eexists; reflexivity |].
    split; [unfold count; cbn; lia |].
    split; [constructor |].
    split; [constructor |].
    split; [reflexivity |].
    intros H1 H2. destruct (Hno H1 H2). }
  subst body. unfold Deletionsnappy.snapshot_loop_body.
  destruct (Deletionsnappy.retention_gate snapshot) eqn:Hgate.
  2:{ apply Hidle. intros Hf. discriminate Hf. }
  destruct (gated_check_returns now snapshot Hgate) as [expired Hexp].
  rewrite step_lift, Hexp. destruct expired.
  2:{ apply Hidle. intros _ Hf. discriminate Hf. }
  unfold info. rewrite step_emit. cbv beta. rewrite step_bind.
  pose proof (delete_snapshot_run snapshot afs_manager cid alerting E
                (h ++ [EvLog INFO (DeletingSnapshot (name snapshot))]) g)
    as Hrun.
  pose proof (delete_snapshot_quiet (is_call is_GetSnapshots) snapshot
                afs_manager cid alerting) as Hq.
  specialize (Hq ltac:(reflexivity) ltac:(reflexivity)
                 ltac:(reflexivity) ltac:(reflexivity)
                 E (h ++ [EvLog INFO (DeletingSnapshot (name snapshot))]) g).
  cbv zeta in Hrun.
  destruct (Deletionsnappy.__delete_snapshot snapshot afs_manager cid
              alerting E
              (h ++ [EvLog INFO (DeletingSnapshot (name snapshot))]) g)
    as [o d g1].
  cbn [out emitted globals] in Hrun, Hq |- *.
  destruct Hrun as ((b & ->) & Hcount & _ & Hsucc & (reply & Hin) & Hsame).
  assert (Hfinal :
    (if b then ret (G := Deletionsnappy.Globals) (acc + 1) else ret acc)
      E ((h ++ [EvLog INFO (DeletingSnapshot (name snapshot))]) ++ d) g1
    = mk_result (Ret (if b then acc + 1 else acc)) [] g1).
  { destruct b; reflexivity. }
  rewrite Hfinal. flatten.
  split; [eexists; reflexivity |].
  split; [rewrite Hcount; unfold count; cbn; lia |].
  split.
  { constructor; [exact I |].
    eapply Forall_impl; [| exact Hsame].
    intros [[] r | | |]; try (intros; exact I).
    cbn. intros ->. split; assumption. }
  split; [constructor; [reflexivity | exact Hq] |].
  split; [exact Hsucc |].
  intros _ _. exists reply. right. exact Hin.
Qed.

End SnapshotLoop.
Lemma closed_deletes_every_expired (now : datetime) :
  closed (deletes_every_expired now).
Proof.
  split.
  - intros afs l s [].
  - intros a b Ha Hb afs l s Hin Htotal Hs Hgate Hexp.
    apply in_app_or in Hin. destruct Hin as [Hin | Hin].
    + destruct (Ha afs l s Hin Htotal Hs Hgate Hexp) as [reply Hr].
      exists reply. apply in_or_app. left. exact Hr.
    + destruct (Hb afs l s Hin Htotal Hs Hgate Hexp) as [reply Hr].
      exists reply. apply in_or_app. right. exact Hr.
Qed.

Lemma quiet_deletes_every_expired (now : datetime) (tr : list Event) :
  Forall (fun e => is_call is_GetSnapshots e = false) tr ->
  deletes_every_expired now tr.
Proof.
  intros Hq afs l s Hin. exfalso. revert Hin.
  apply quiet_not_in with (1 := Hq). reflexivity.
Qed.

Section DeletionVolume.
Variables (cid : string) (now : datetime) (alerting : Alerting.t).

Lemma snapshot_loop_run afs_manager snaps acc E h g :
  let r := for_fold snaps acc
             (Deletionsnappy.snapshot_loop_body afs_manager cid now alerting)
             E h g in
  (exists n, out r = Ret n) /\
  Deletionsnappy.deleted_snapshots (globals r)
  = Deletionsnappy.deleted_snapshots g + count deleted_ok (emitted r) /\
  deletes_only_expired now (emitted r) /\
  Forall (fun e => is_call is_GetSnapshots e = false) (emitted r) /\
  count_alerts SUCCESS (emitted r) = 0 /\
  (forall s, In s snaps ->
   Deletionsnappy.retention_gate s = true ->
   Deletionsnappy.__has_snapshot_expired now s = Ret true ->
   exists reply,
     In (EvCall (DeleteSnapshot (AFSManager.afs_name afs_manager) s) reply)
        (emitted r)).
Proof.
  revert acc h g. induction snaps as [| s0 snaps IH]; intros acc h g.
  - cbn. split; [eexists; reflexivity |].
    split; [unfold count; cbn; lia |].
    split; [constructor |]. split; [constructor |].
    split; [reflexivity |]. intros s [].
  - cbn [for_fold]. rewrite step_bind.
    pose proof (snapshot_step_run afs_manager cid now alerting s0 acc E h g)
      as Hstep.
    cbv zeta in Hstep.
    destruct (Deletionsnappy.snapshot_loop_body afs_manager cid now alerting
                s0 acc E h g) as [o d g1].
    cbn [out emitted globals] in Hstep |- *.
    destruct Hstep as ((n & ->) & Hc & Honly & Hq & Hs & Hdel).
    specialize (IH n (h ++ d) g1). cbv zeta in IH.
    destruct (for_fold snaps n
                (Deletionsnappy.snapshot_loop_body afs_manager cid now
                   alerting) E (h ++ d) g1) as [o' d' g2].
    cbn [out emitted globals prepend] in IH |- *.
    destruct IH as (Hout & Hc' & Honly' & Hq' & Hs' & Hdel').
    split; [exact Hout |].
    split; [rewrite count_app; lia |].
    split; [apply Forall_app; split; assumption |].
    split; [apply Forall_app; split; assumption |].
    split; [unfold count_alerts in *; rewrite count_app; lia |].
    intros s [<- | Hin] Hgate Hexp.
    + destruct (Hdel Hgate Hexp) as [reply Hr]. exists reply.
      apply in_or_app. left. exact Hr.
    + destruct (Hdel' s Hin Hgate Hexp) as [reply Hr]. exists reply.
      apply in_or_app. right. exact Hr.
Qed.

Lemma delete_snapshots_in_afs_run afs_manager E h g :
  let r := Deletionsnappy.__delete_snapshots_in_afs afs_manager cid now
             alerting E h g in
  out r = Ret tt /\
  Deletionsnappy.deleted_snapshots (globals r)
  = Deletionsnappy.deleted_snapshots g + count deleted_ok (emitted r) /\
  deletes_only_expired now (emitted r) /\
  deletes_every_expired now (emitted r) /\
  count_alerts SUCCESS (emitted r) = 0.
Proof.
  unfold Deletionsnappy.__delete_snapshots_in_afs. cbv zeta.
  rewrite step_try_except. walk.
  - (* the listing is empty *)
    split; [reflexivity |].
    split; [unfold count; cbn; lia |].
    split; [repeat constructor |].
    split; [| reflexivity].
    intros afs l s Hin Htotal. exfalso. not_in_trace Hin.
    injection Hin as _ <-. apply Z.ltb_lt in Heqb. lia.
  - (* the loop over the snapshots *)
    rewrite step_bind.
    match goal with
    | |- context [for_fold ?l ?acc ?b ?E ?h ?g] =>
        pose proof (snapshot_loop_run afs_manager l acc E h g) as Hloop;
        cbv zeta in Hloop;
        destruct (for_fold l acc b E h g) as [o d g1]
    end.
    cbn [out emitted globals] in Hloop |- *.
    destruct Hloop as ((n & ->) & Hc & Honly & Hq & Hs & Hdel).
    steps. flatten.
    split; [reflexivity |].
    split; [rewrite Hc; unfold count; cbn; rewrite filter_app, length_app;
            cbn; lia |].
    split.
    { repeat (constructor; [exact I |]).
      apply Forall_app. split; [exact Honly | repeat constructor]. }
    split.
    { intros afs l s Hin Htotal Hs' Hgate Hexp.
      cbn [In] in Hin. destruct Hin as [Hin | [Hin | [Hin | Hin]]];
        try discriminate Hin.
      - injection Hin as <- <-.
        destruct (Hdel s Hs' Hgate Hexp) as [reply Hr]. exists reply.
        do 3 right. apply in_or_app. left. exact Hr.
      - exfalso. apply in_app_or in Hin. destruct Hin as [Hin | Hin].
        + revert Hin. apply quiet_not_in with (1 := Hq). reflexivity.
        + not_in_trace Hin. }
    unfold count_alerts in *. unfold count in *. cbn.
    rewrite filter_app, length_app. cbn. lia.
  - (* the listing raised *)
    split; [reflexivity |].
    split; [unfold count; cbn; lia |].
    split; [repeat constructor |].
    split; [| reflexivity].
    intros afs l s Hin. exfalso. not_in_trace Hin.
Qed.

End DeletionVolume.

(** ** More rules: counters and fatal calls *)

Section MoreRules.
Context {G : Type}.
Variable counter : G -> Z.
Variable p : Event -> bool.

Lemma count_nil : count p [] = 0.
Proof. reflexivity. Qed.

Lemma count_one (e : Event) : p e = false -> count p [e] = 0.
Proof. intros H. unfold count. cbn. now rewrite H. Qed.

Lemma tracks_ret {A} (a : A) : tracks counter p (ret (G := G) a).
Proof. intros E h g. cbn [globals emitted ret raise get lift]. rewrite count_nil. lia. Qed.

Lemma tracks_raise {A} (s : signal) :
  tracks counter p (raise (G := G) (A := A) s).
Proof. intros E h g. cbn [globals emitted ret raise get lift]. rewrite count_nil. lia. Qed.

Lemma tracks_get : tracks counter p (get (G := G)).
Proof. intros E h g. cbn [globals emitted ret raise get lift]. rewrite count_nil. lia. Qed.

Lemma tracks_lift {A} (o : outcome A) : tracks counter p (lift (G := G) o).
Proof. intros E h g. cbn [globals emitted ret raise get lift]. rewrite count_nil. lia. Qed.

Lemma tracks_builtin {A} (f : Env -> outcome A) :
  tracks counter p (builtin (G := G) f).
Proof.
  intros E h g. cbn [globals emitted builtin]. rewrite count_nil. lia.
Qed.

Lemma tracks_emit (e : Event) : p e = false -> tracks counter p (emit e).
Proof.
  intros He E h g. cbn [globals emitted emit].
  rewrite count_one by assumption. lia.
Qed.

Lemma tracks_call {A} (c : Call) (inj : A -> Value) ask :
  (forall r, p (EvCall c r) = false) ->
  tracks counter p (call (G := G) c inj ask).
Proof.
  intros Hc E h g. unfold call.
  destruct (ask E h); cbn [globals emitted]; rewrite count_one by apply Hc;
    lia.
Qed.

Lemma tracks_call_total {A} (c : Call) (inj : A -> Value) ask :
  (forall r, p (EvCall c r) = false) ->
  tracks counter p (call_total (G := G) c inj ask).
Proof.
  intros Hc E h g. cbn [globals emitted call_total].
  rewrite count_one by apply Hc. lia.
Qed.

End MoreRules.

(** [tracks counter p m] by recursion on [m]; [known] closes the goals on
    the procedures that move the counter. *)
Ltac tracks_with known :=
  repeat (intros; cbv zeta;
    first
    [ solve [known]
    | lazymatch goal with
      | |- tracks _ _ (bind _ _) => apply tracks_bind; [| intros ?]
      | |- tracks _ _ (try_except _ _) =>
          apply tracks_try_except; [| intros ?]
      | |- tracks _ _ (try_finally _ _) => apply tracks_try_finally
      | |- tracks _ _ (for_each _ _) => apply tracks_for_each; intros ?
      | |- tracks _ _ (for_fold _ _ _) => apply tracks_for_fold; intros ? ?
      | |- tracks _ _ (ret _) => apply tracks_ret
      | |- tracks _ _ (raise _) => apply tracks_raise
      | |- tracks _ _ get => apply tracks_get
      | |- tracks _ _ (lift _) => apply tracks_lift
      | |- tracks _ _ (builtin _) => apply tracks_builtin
      | |- tracks _ _ (emit _) => apply tracks_emit; reflexivity
      | |- tracks _ _ (call _ _ _) => apply tracks_call; intros ?; reflexivity
      | |- tracks _ _ (call_total _ _ _) =>
          apply tracks_call_total; intros ?; reflexivity
      | |- tracks _ _ (if ?b then _ else _) => destruct b
      | |- tracks _ _ (match ?x with _ => _ end) => destruct x
      | |- tracks _ _ _ => progress autounfold with afs_snappy runbook
      end ]).

(** [fails_fast (raised_by sel) m] by recursion on [m]: a selected call
    ends the block, everything under a handler of its own is quiet. *)
Ltac fails_fast_tac :=
  repeat (intros; cbv zeta;
    lazymatch goal with
    | |- fails_fast _ (bind _ _) => apply fails_fast_bind; [| intros ?]
    | |- fails_fast _ (for_each _ _) => apply fails_fast_for_each; intros ?
    | |- fails_fast _ (call _ _ _) => apply fails_fast_call
    | |- fails_fast _ (if ?b then _ else _) => destruct b
    | |- fails_fast _ _ =>
        first
          [ progress unfold Backupsnappy.volume_loop_body,
              Deletionsnappy.volume_loop_body, Backupsnappy.main_try,
              Deletionsnappy.main_try, AFSManager.validate_afs_exists,
              StorageManager.validate_storage
          | apply fails_fast_quiet; always_with forall_event ]
    end).

(** ** The two flows, block by block *)

Section DeletionMain.
Variables (cfg : Config) (cid : string) (now : datetime)
  (alerting : Alerting.t).

Let main_try := Deletionsnappy.main_try cfg cid now alerting.

Lemma deletion_tracks :
  tracks Deletionsnappy.deleted_snapshots deleted_ok main_try.
Proof.
  subst main_try.
  tracks_with ltac:(intros E h g; apply delete_snapshots_in_afs_run).
Qed.

Lemma deletion_only_expired : always (deletes_only_expired now) main_try.
Proof.
  subst main_try. unfold deletes_only_expired.
  always_gen ltac:(apply closed_Forall) forall_event
             ltac:(intros E h g; apply delete_snapshots_in_afs_run).
Qed.

Lemma deletion_every_expired : always (deletes_every_expired now) main_try.
Proof.
  subst main_try.
  always_gen ltac:(apply closed_deletes_every_expired)
             ltac:(apply quiet_deletes_every_expired; forall_event)
             ltac:(intros E h g; apply delete_snapshots_in_afs_run).
Qed.

Lemma deletion_fails_fast_on_missing_volume :
  fails_fast (raised_by is_ValidateAfsExists) main_try.
Proof. subst main_try. fails_fast_tac. Qed.

End DeletionMain.

Section BackupMain.
Variables (cfg : Config) (cid : string) (now : datetime)
  (alerting : Alerting.t).

Let main_try := Backupsnappy.main_try cfg cid now alerting.

Lemma create_tracks afs_manager adhoc :
  tracks Backupsnappy.snapshots_created created_ok
    (Backupsnappy.__create_afs_snapshot cfg afs_manager cid now alerting
                                        adhoc).
Proof.
  intros E h g.
  pose proof (create_afs_snapshot_run cfg afs_manager cid now alerting adhoc
                E h g) as H.
  cbv zeta in H. apply H.
Qed.

Lemma backup_tracks :
  tracks Backupsnappy.snapshots_created created_ok main_try.
Proof. subst main_try. tracks_with ltac:(apply create_tracks). Qed.

Lemma backup_fails_fast_on_missing_volume :
  fails_fast (raised_by is_ValidateAfsExists) main_try.
Proof. subst main_try. fails_fast_tac. Qed.

End BackupMain.

(** ** Counting in a trace that is partly known *)

Lemma count_cons (p : Event -> bool) (e : Event) (tr : list Event) :
  count p (e :: tr) = (if p e then 1 else 0) + count p tr.
Proof. unfold count. cbn [filter]. destruct (p e); cbn [List.length]; lia. Qed.

Ltac count_tac :=
  unfold count_alerts in *;
  repeat first [rewrite count_cons | rewrite count_app];
  repeat match goal with
         | H : Forall (fun e => ?p e = false) ?d |- context [count ?p ?d] =>
             rewrite (count_quiet p d H)
         end;
  change (count _ []) with 0;
  cbn [is_summary is_alert is_call is_error_log created_ok deleted_ok
       AlertType_eqb];
  try lia.

(** The cases of an event being in a trace that is partly known; the cases
    a quiet part excludes are closed. *)
Ltac in_cases H :=
  repeat match type of H with
         | In _ (_ :: _) => destruct H as [H | H]
         | In _ (_ ++ _) => apply in_app_or in H; destruct H as [H | H]
         | In _ [] => destruct H
         end;
  try discriminate H;
  try match goal with
      | Hq : Forall (fun e => ?p e = false) ?d, Hi : In ?e ?d |- _ =>
          exfalso; apply (quiet_not_in p e d Hq); [reflexivity | exact Hi]
      end.

(** [Forall] over a trace that is partly known. *)
Ltac forall_tac :=
  repeat first
    [ apply Forall_nil
    | apply Forall_cons; [reflexivity |]
    | apply Forall_app; split
    | assumption ].

(** An event of a known part is an event of the whole trace. *)
Ltac in_part H :=
  repeat first
    [ exact H
    | apply in_or_app; left; exact H
    | apply in_cons
    | apply in_or_app; right ].

Lemma ends_with_summary_one (e : Event) : ends_with_summary e [e].
Proof. exists []. split; reflexivity. Qed.

Lemma ends_with_summary_cons (e x : Event) (tr : list Event) :
  is_summary x = false -> ends_with_summary e tr ->
  ends_with_summary e (x :: tr).
Proof.
  intros Hx (d & -> & Hd). exists (x :: d). split; [reflexivity |].
  rewrite count_cons, Hx. lia.
Qed.

Lemma ends_with_summary_app (e : Event) (a tr : list Event) :
  Forall (fun x => is_summary x = false) a -> ends_with_summary e tr ->
  ends_with_summary e (a ++ tr).
Proof.
  intros Ha (d & -> & Hd). exists (a ++ d). split.
  - now rewrite app_assoc.
  - rewrite count_app, count_quiet by assumption. lia.
Qed.

Lemma ends_with_summary_count (e : Event) (tr : list Event) :
  is_summary e = true -> ends_with_summary e tr -> count is_summary tr = 1.
Proof.
  intros He (d & -> & Hd). rewrite count_app, count_cons, He, Hd.
  reflexivity.
Qed.

Ltac ends_tac :=
  repeat first
    [ apply ends_with_summary_one
    | apply ends_with_summary_cons; [reflexivity |]
    | apply ends_with_summary_app; [assumption |] ].

(** Find an event in a trace that is partly known. *)
Ltac in_find :=
  repeat (cbn [In];
          first [left; reflexivity | right | apply in_or_app; right]).

(** Enter the procedure at the head of what remains: it adds no event
    selected by [p]. *)
Ltac sub_quiet p :=
  rewrite step_bind;
  match goal with
  | |- context [out (?m ?E ?h ?g)] =>
      let Hq := fresh "Hquiet" in
      assert (Hq : quiet p m) by quiet_tac;
      specialize (Hq E h g)
  end.

Ltac sub_destruct :=
  match goal with
  | |- context [out (?m ?E ?h ?g)] =>
      let o := fresh "o" in
      let d := fresh "d" in
      let g1 := fresh "g" in
      destruct (m E h g) as [o d g1]; cbn [out emitted globals] in *
  end.

Ltac sub_softdelete :=
  match goal with
  | |- context [out (Backupsnappy.__enable_softdelete_in_file_share
                       ?sm ?c ?n ?a ?E ?h ?g)] =>
      let Hsd := fresh "Hsoft" in
      pose proof (softdelete_run sm c n a E h g) as Hsd; cbv zeta in Hsd
  end.

Section BackupBlocks.
Variables (cfg : Config) (cid : string) (now : datetime)
  (alerting : Alerting.t).

Let main_try := Backupsnappy.main_try cfg cid now alerting.

Lemma backup_summary E h g :
  let r := main_try E h g in
  (out r = Ret tt /\
   ends_with_summary
     (EvLog INFO
        (CreationJobCompleted (Backupsnappy.snapshots_created (globals r))
                              cid))
     (emitted r)) \/
  (out r <> Ret tt /\ count is_summary (emitted r) = 0).
Proof.
  subst main_try. cbv zeta. unfold Backupsnappy.main_try. walk.
  all: try (right; split; [discriminate | reflexivity]).
  all: sub_quiet is_summary; sub_softdelete; sub_destruct.
  all: destruct Hsoft as (-> & -> & _); walk.
  all: try (right; split; [discriminate | count_tac]).
  all: sub_quiet is_summary; sub_destruct.
  all: match goal with o : outcome unit |- _ => destruct o as [[] | s] end;
    walk.
  all: try (right; split; [discriminate | count_tac]).
  all: left; split; [reflexivity | ends_tac].
Qed.

Lemma storage_validation_failure E h g text :
  let r := main_try E h g in
  In (EvCall ValidateStorage (Raises text)) (emitted r) ->
  out r = Raise (Exception text) /\
  count_alerts FAIL (emitted r) = 0 /\
  count_alerts SUCCESS (emitted r) = 0 /\
  Forall (fun e => is_call touches_volumes e = false) (emitted r).
Proof.
  subst main_try. cbv zeta. unfold Backupsnappy.main_try. walk.
  all: try continuation_quiet (is_call is_ValidateStorage).
  all: intros Hin; not_in_trace Hin.
  all: try (exfalso; revert Hin; apply quiet_not_in with (1 := Hquiet);
            reflexivity).
  all: injection Hin as ->.
  all: repeat split; try reflexivity; repeat constructor.
Qed.

Lemma no_volumes_found E h g exclude l :
  let r := main_try E h g in
  In (EvCall (GetAfsList exclude) (Returns (VAfsList l))) (emitted r) ->
  AfsList.total l < 1 ->
  out r = Raise (SystemExit 0) /\
  Forall (fun e => is_error_log e = false) (emitted r) /\
  Forall (fun e => is_call is_volume_call e = false) (emitted r) /\
  count_alerts SUCCESS (emitted r) = 0 /\
  ((forall c text, ~ In (EvCall c (Raises text)) (emitted r)) ->
   count_alerts FAIL (emitted r) = 0).
Proof.
  subst main_try. cbv zeta. unfold Backupsnappy.main_try. walk.
  all: try solve [intros Hin; exfalso; not_in_trace Hin].
  all: sub_quiet (is_call is_GetAfsList).
  all: match goal with
       | |- context [out (?m ?E ?h ?g)] =>
           assert (Hnoerr : quiet is_error_log m) by quiet_tac;
           specialize (Hnoerr E h g);
           assert (Hnovol : quiet (is_call is_volume_call) m) by quiet_tac;
           specialize (Hnovol E h g)
       end.
  all: sub_softdelete; sub_destruct.
  all: destruct Hsoft as (-> & -> & Hsucc & _ & Hfail); walk.
  all: try continuation_quiet (is_call is_GetAfsList).
  all: intros Hin Hl; in_cases Hin.
  all: injection Hin as <- <-.
  all: try (apply Z.ltb_ge in Heqb0; lia).
  all: split; [reflexivity |].
  all: split; [forall_tac |].
  all: split; [forall_tac |].
  all: split; [count_tac |].
  all: intros Hno.
  all: assert (Hd : count_alerts FAIL d = 0)
         by (apply Hfail; intros c t Hc; apply (Hno c t); in_part Hc).
  all: count_tac.
Qed.

Lemma listing_follows_validation E h g :
  let r := main_try E h g in
  In (EvCall ValidateStorage (Returns VNone)) (emitted r) ->
  exists reply,
    In (EvCall (GetAfsList (EXCLUDE_AFS cfg)) reply) (emitted r).
Proof.
  subst main_try. cbv zeta. unfold Backupsnappy.main_try. walk.
  all: try solve [intros Hin; exfalso; not_in_trace Hin].
  all: sub_quiet (is_call is_ValidateStorage); sub_softdelete; sub_destruct.
  all: destruct Hsoft as (-> & -> & _); walk.
  all: try continuation_quiet (is_call is_ValidateStorage).
  all: intros _; eexists; in_find.
Qed.

End BackupBlocks.

Section DeletionBlocks.
Variables (cfg : Config) (cid : string) (now : datetime)
  (alerting : Alerting.t).

Let main_try := Deletionsnappy.main_try cfg cid now alerting.

Lemma deletion_summary E h g :
  let r := main_try E h g in
  (out r = Ret tt /\
   ends_with_summary
     (EvLog INFO
        (DeletionJobCompleted (Deletionsnappy.deleted_snapshots (globals r))
                              cid))
     (emitted r)) \/
  (out r <> Ret tt /\ count is_summary (emitted r) = 0).
Proof.
  subst main_try. cbv zeta. unfold Deletionsnappy.main_try. walk.
  all: try (right; split; [discriminate | reflexivity]).
  all: sub_quiet is_summary; sub_destruct.
  all: match goal with o : outcome unit |- _ => destruct o as [[] | s] end;
    walk.
  all: try (right; split; [discriminate | count_tac]).
  all: left; split; [reflexivity | ends_tac].
Qed.

Lemma deletion_storage_validation_failure E h g text :
  let r := main_try E h g in
  In (EvCall ValidateStorage (Raises text)) (emitted r) ->
  out r = Raise (Exception text) /\
  count_alerts FAIL (emitted r) = 0 /\
  count_alerts SUCCESS (emitted r) = 0 /\
  Forall (fun e => is_call touches_volumes e = false) (emitted r).
Proof.
  subst main_try. cbv zeta. unfold Deletionsnappy.main_try. walk.
  all: try continuation_quiet (is_call is_ValidateStorage).
  all: intros Hin; not_in_trace Hin.
  all: try (exfalso; revert Hin; apply quiet_not_in with (1 := Hquiet);
            reflexivity).
  all: injection Hin as ->.
  all: repeat split; try reflexivity; repeat constructor.
Qed.

Lemma deletion_no_volumes_found E h g exclude l :
  let r := main_try E h g in
  In (EvCall (GetAfsList exclude) (Returns (VAfsList l))) (emitted r) ->
  AfsList.total l < 1 ->
  out r = Raise (SystemExit 0) /\
  Forall (fun e => is_error_log e = false) (emitted r) /\
  Forall (fun e => is_call is_volume_call e = false) (emitted r) /\
  count_alerts SUCCESS (emitted r) = 0 /\
  count_alerts FAIL (emitted r) = 0.
Proof.
  subst main_try. cbv zeta. unfold Deletionsnappy.main_try. walk.
  all: try solve [intros Hin; exfalso; not_in_trace Hin].
  all: try continuation_quiet (is_call is_GetAfsList).
  all: intros Hin Hl; in_cases Hin.
  all: injection Hin as <- <-.
  all: try (apply Z.ltb_ge in Heqb; lia).
  all: split; [reflexivity |].
  all: split; [forall_tac |].
  all: split; [forall_tac |].
  all: split; count_tac.
Qed.

End DeletionBlocks.
(** ** From the [try] block to the whole run *)

Lemma startup_quiet (p : Event -> bool) (startup : list Event) :
  (forall e, is_startup_event e = true -> p e = false) ->
  Forall (fun e => is_startup_event e = true) startup ->
  Forall (fun e => p e = false) startup.
Proof. intros Hp. apply Forall_impl. exact Hp. Qed.

(** [p] selects no event of [main]'s preamble. *)
Ltac startup_side :=
  let e := fresh "e" in
  intros e; destruct e as [[] ? | [] [] | |]; cbn; congruence.

Section Shape.
Context {G : Type}.
Variables (r tried : result G unit) (startup : list Event).
Hypothesis Hstartup : Forall (fun e => is_startup_event e = true) startup.
Hypothesis Hcases :
  (exists ex report,
     out tried = Raise (Exception ex) /\ is_fatal_report ex report /\
     r = mk_result (Raise (SystemExit 1)) (startup ++ emitted tried ++ report)
                   (globals tried)) \/
  ((forall ex, out tried <> Raise (Exception ex)) /\
   r = prepend startup tried).

Lemma shape_globals : globals r = globals tried.
Proof.
  destruct Hcases as [(ex & report & _ & _ & ->) | (_ & ->)]; reflexivity.
Qed.

(** A call of the run outside the preamble is a call of the [try] block. *)
Lemma shape_call (c : Call) (reply : reply Value) :
  is_startup_event (EvCall c reply) = false ->
  In (EvCall c reply) (emitted r) -> In (EvCall c reply) (emitted tried).
Proof.
  intros Hc Hin.
  assert (Hno : ~ In (EvCall c reply) startup).
  { intros H. rewrite Forall_forall in Hstartup. apply Hstartup in H.
    congruence. }
  destruct Hcases as [(ex & report & _ & Hrep & ->) | (_ & ->)];
    cbn [emitted prepend] in Hin.
  - apply in_app_or in Hin. destruct Hin as [Hin | Hin]; [contradiction |].
    apply in_app_or in Hin. destruct Hin as [Hin | Hin]; [exact Hin |].
    destruct Hrep as (a & t & m & ->). not_in_trace Hin.
  - apply in_app_or in Hin. destruct Hin as [Hin | Hin];
      [contradiction | exact Hin].
Qed.

Lemma shape_in (e : Event) : In e (emitted tried) -> In e (emitted r).
Proof.
  intros Hin.
  destruct Hcases as [(ex & report & _ & _ & ->) | (_ & ->)];
    cbn [emitted prepend]; apply in_or_app; right; [apply in_or_app; left |];
    exact Hin.
Qed.

(** A property kept by concatenation passes from the parts to the run. *)
Lemma shape_closed (Q : list Event -> Prop) :
  closed Q -> Q startup -> Q (emitted tried) ->
  (forall ex report, is_fatal_report ex report -> Q report) ->
  Q (emitted r).
Proof.
  intros [_ Happ] Hs Ht Hr.
  destruct Hcases as [(ex & report & _ & Hrep & ->) | (_ & ->)];
    cbn [emitted prepend].
  - apply Happ; [exact Hs |]. apply Happ; [exact Ht |]. exact (Hr ex report Hrep).
  - apply Happ; assumption.
Qed.

(** When the block ended otherwise than by an exception, the run ends as
    the block did, and nothing is reported. *)
Lemma shape_not_raised :
  (forall ex, out tried <> Raise (Exception ex)) ->
  r = prepend startup tried.
Proof.
  intros Hno. destruct Hcases as [(ex & report & Hout & _) | (_ & ->)].
  - destruct (Hno ex Hout).
  - reflexivity.
Qed.

(** When the block raised [ex], the run reports it and exits with 1. *)
Lemma shape_raised (ex : string) :
  out tried = Raise (Exception ex) ->
  exists report,
    is_fatal_report ex report /\
    r = mk_result (Raise (SystemExit 1)) (startup ++ emitted tried ++ report)
                  (globals tried).
Proof.
  intros Hout. destruct Hcases as [(ex' & report & Hout' & Hrep & ->) | (Hno & _)].
  - rewrite Hout in Hout'. injection Hout' as <-. exists report.
    split; [exact Hrep | reflexivity].
  - destruct (Hno ex Hout).
Qed.

(** A selected call that raised inside a block that fails fast on it is
    followed by the report only. *)
Lemma shape_fatal (sel : Call -> bool) (c : Call) (text : string) :
  sel c = true ->
  is_startup_event (EvCall c (Raises text)) = false ->
  fatal_at (raised_by sel) tried ->
  In (EvCall c (Raises text)) (emitted r) ->
  exists pre report,
    emitted r = pre ++ EvCall c (Raises text) :: report /\
    is_fatal_report text report /\
    out r = Raise (SystemExit 1).
Proof.
  intros Hsel Hc Hfatal Hin. apply shape_call in Hin; [| exact Hc].
  apply in_split in Hin. destruct Hin as (pre & post & Heq).
  destruct (Hfatal pre (EvCall c (Raises text)) post text Heq) as [-> Hout].
  { cbn. now rewrite Hsel. }
  destruct (shape_raised text Hout) as (report & Hrep & ->).
  exists (startup ++ pre), report. cbn [emitted out]. rewrite Heq.
  split; [| split; [exact Hrep | reflexivity]].
  rewrite <- !app_assoc. reflexivity.
Qed.

(** Events that neither the preamble nor the report contains are counted
    in the [try] block alone. *)
Lemma shape_count (p : Event -> bool) :
  (forall e, is_startup_event e = true -> p e = false) ->
  (forall ex a t m,
     p (EvPrintExc ex) = false /\ p (EvAlert a FAIL t (Some m) None) = false /\
     p (EvLog ERROR (Text m)) = false) ->
  count p (emitted r) = count p (emitted tried).
Proof.
  intros Hs Hr.
  pose proof (count_quiet p startup (startup_quiet p startup Hs Hstartup))
    as H0.
  destruct Hcases as [(ex & report & _ & (a & t & m & ->) & ->) | (_ & ->)];
    cbn [emitted prepend]; rewrite !count_app, H0.
  - destruct (Hr ex a t m) as (H1 & H2 & H3).
    rewrite !count_cons, H1, H2, H3. change (count p []) with 0. lia.
  - lia.
Qed.

(** The summary line of the run is the summary line of the block. *)
Lemma shape_summary (line : Event) :
  (out tried = Ret tt /\ ends_with_summary line (emitted tried)) \/
  (out tried <> Ret tt /\ count is_summary (emitted tried) = 0) ->
  (out r = Ret tt -> ends_with_summary line (emitted r)) /\
  (out r <> Ret tt -> count is_summary (emitted r) = 0).
Proof.
  intros Hsum.
  assert (Hcount : count is_summary (emitted r)
                   = count is_summary (emitted tried)).
  { apply shape_count; [startup_side |]. intros; repeat split. }
  destruct Hsum as [[Hout Hends] | [Hout Hnone]].
  - rewrite shape_not_raised
      by (intros ex Hex; rewrite Hex in Hout; discriminate Hout).
    cbn [out emitted prepend]. split.
    + intros _. apply ends_with_summary_app; [| exact Hends].
      apply startup_quiet; [startup_side | exact Hstartup].
    + intros H. destruct (H Hout).
  - split.
    + intros Hr. exfalso.
      destruct Hcases as [(ex & report & _ & _ & Heq) | (_ & Heq)];
        rewrite Heq in Hr; cbn [out prepend] in Hr;
        [discriminate Hr | exact (Hout Hr)].
    + intros _. rewrite Hcount. exact Hnone.
Qed.

End Shape.

(** * The claims *)

(** ** C2: the retention gate of the deletion flow *)

(** C2: the deletion flow evaluates a snapshot for expiration when its
    retention is present and positive; a snapshot whose retention is zero
    days is skipped like one without retention, whatever its age: the loop
    body makes no call, adds no event and leaves the counters alone, even
    where the expiration check would answer expired. *)
Theorem zero_retention_is_skipped
  afs_manager cid now alerting snapshot_name created acc E h g :
  let snapshot := mk_Snapshot snapshot_name created (Some 0) in
  Deletionsnappy.retention_gate snapshot = false /\
  Deletionsnappy.snapshot_loop_body afs_manager cid now alerting snapshot acc
    E h g = mk_result (Ret acc) [] g /\
  Deletionsnappy.__has_snapshot_expired now snapshot
  = Ret (0 <? days_since now created) /\
  (let r := Deletionsnappy.run (Scenario.env Scenario.zero_retention)
              Scenario.config in
   Deletionsnappy.__has_snapshot_expired Scenario.march_first
     (Scenario.new_year "s0" (Some 0)) = Ret true /\
   count (is_call (fun c => match c with
                            | DeleteSnapshot _ _ => true
                            | _ => false
                            end)) (emitted r) = 0 /\
   Deletionsnappy.deleted_snapshots (globals r) = 0 /\
   exit_status (out r) = 0).
Proof.
  cbv zeta. split; [reflexivity |]. split; [reflexivity |]. split.
  - unfold Deletionsnappy.__has_snapshot_expired. cbn [retention_days created_at].
    now rewrite sub_days.
  - vm_compute. repeat split; reflexivity.
Qed.

(** ** C4: alerts of the creation flow *)

(** C4: in a run where the first volume has reached the snapshot limit and
    the second is healthy, one snapshot is created, one FAIL alert is sent
    and the run ends with status 0, but two SUCCESS alerts are sent: the
    volume whose creation failed gets its SUCCESS alert all the same. *)
Theorem failed_volume_still_gets_success_alert :
  let r := Backupsnappy.run (Scenario.env Scenario.limit_then_healthy)
             Scenario.config in
  Backupsnappy.snapshots_created (globals r) = 1 /\
  exit_status (out r) = 0 /\
  count_alerts FAIL (emitted r) = 1 /\
  count_alerts SUCCESS (emitted r) = 2 /\
  count (fun e => match e with
                  | EvAlert _ SUCCESS _ _ (Some "v1"%string) => true
                  | _ => false
                  end) (emitted r) = 1.
Proof. vm_compute. repeat split; reflexivity. Qed.

(** ** C3: a volume that does not exist *)

(** C3, counterexample: two volumes are listed and the first does not
    exist; the creation run exits with status 1 and the second volume is
    never visited. *)
Lemma missing_volume_stops_the_run :
  exit_status
    (out (Backupsnappy.run (Scenario.env Scenario.missing_then_healthy)
            Scenario.config)) = 1 /\
  ~ visits_every_listed_volume
      (emitted (Backupsnappy.run (Scenario.env Scenario.missing_then_healthy)
                  Scenario.config)).
Proof.
  split; [reflexivity |]. intros H.
  destruct (H ""%string (AfsList.mk 2 ["v1"; "v2"]%string) "v2"%string)
    as [reply Hin].
  - vm_compute. in_trace.
  - cbn. lia.
  - right. left. reflexivity.
  - vm_compute in Hin.
    repeat (destruct Hin as [Hin | Hin]; [discriminate Hin |]).
    destruct Hin.
Qed.

(** C3, amended: in either flow, when the existence check of a volume
    raises, the exception reaches [main]'s handler: what follows the failed
    check in the trace is the fatal report only (traceback, one FAIL alert,
    one error line), so no later volume is processed, and the process exits
    with status 1. *)
Theorem missing_volume_is_run_fatal E cfg afs_name text :
  (In (EvCall (ValidateAfsExists afs_name) (Raises text))
      (emitted (Backupsnappy.run E cfg)) ->
   exists pre report,
     emitted (Backupsnappy.run E cfg)
     = pre ++ EvCall (ValidateAfsExists afs_name) (Raises text) :: report /\
     is_fatal_report text report /\
     out (Backupsnappy.run E cfg) = Raise (SystemExit 1)) /\
  (In (EvCall (ValidateAfsExists afs_name) (Raises text))
      (emitted (Deletionsnappy.run E cfg)) ->
   exists pre report,
     emitted (Deletionsnappy.run E cfg)
     = pre ++ EvCall (ValidateAfsExists afs_name) (Raises text) :: report /\
     is_fatal_report text report /\
     out (Deletionsnappy.run E cfg) = Raise (SystemExit 1)).
Proof.
  split; intros Hin.
  - destruct (backup_run_shape E cfg)
      as (startup & Hst
        & [(t & g0 & _ & Hrun) | (cid & now & al & g0 & _ & Hcases)]).
    + rewrite Hrun in Hin. cbn [emitted] in Hin.
      rewrite Forall_forall in Hst. apply Hst in Hin. discriminate Hin.
    + cbv zeta in Hcases.
      eapply (shape_fatal _ _ _ Hst Hcases is_ValidateAfsExists);
        [reflexivity | reflexivity | | exact Hin].
      apply backup_fails_fast_on_missing_volume.
  - destruct (deletion_run_shape E cfg)
      as (startup & Hst
        & [(t & g0 & _ & Hrun) | (cid & al & g0 & _ & Hcases)]).
    + rewrite Hrun in Hin. cbn [emitted] in Hin.
      rewrite Forall_forall in Hst. apply Hst in Hin. discriminate Hin.
    + cbv zeta in Hcases.
      eapply (shape_fatal _ _ _ Hst Hcases is_ValidateAfsExists);
        [reflexivity | reflexivity | | exact Hin].
      apply deletion_fails_fast_on_missing_volume.
Qed.

Lemma missing_volume_is_run_fatal_witness :
  In (EvCall (ValidateAfsExists "v1") (Raises "VolumeNotFound"))
     (emitted (Backupsnappy.run (Scenario.env Scenario.missing_then_healthy)
                 Scenario.config)) /\
  exists pre report,
    emitted (Backupsnappy.run (Scenario.env Scenario.missing_then_healthy)
               Scenario.config)
    = pre ++ EvCall (ValidateAfsExists "v1") (Raises "VolumeNotFound")
         :: report /\
    is_fatal_report "VolumeNotFound" report /\
    out (Backupsnappy.run (Scenario.env Scenario.missing_then_healthy)
           Scenario.config) = Raise (SystemExit 1).
Proof.
  assert (Hin :
    In (EvCall (ValidateAfsExists "v1") (Raises "VolumeNotFound"))
       (emitted (Backupsnappy.run (Scenario.env Scenario.missing_then_healthy)
                   Scenario.config))).
  { vm_compute. in_trace. }
  split; [exact Hin |].
  exact (proj1 (missing_volume_is_run_fatal
                  (Scenario.env Scenario.missing_then_healthy)
                  Scenario.config "v1" "VolumeNotFound") Hin).
Defined.

(** ** C7: account validation and empty accounts *)

(** C7: in both flows, when the validation of the storage account raises,
    no volume is listed or processed, exactly one FAIL alert is sent and
    the process exits with status 1; when the listing returns no volume,
    the process exits with status 0, nothing is reported as an error, and
    no volume is processed.  The deletion flow sends no alert at all on an
    empty account; the creation flow sends none unless its soft-delete
    guard met a failure before the listing. *)
Theorem storage_validation_gates_the_run E cfg :
  (let r := Backupsnappy.run E cfg in
   (forall text,
      In (EvCall ValidateStorage (Raises text)) (emitted r) ->
      exit_status (out r) = 1 /\
      count_alerts FAIL (emitted r) = 1 /\
      count_alerts SUCCESS (emitted r) = 0 /\
      Forall (fun e => is_call touches_volumes e = false) (emitted r)) /\
   (forall exclude l,
      In (EvCall (GetAfsList exclude) (Returns (VAfsList l))) (emitted r) ->
      AfsList.total l < 1 ->
      exit_status (out r) = 0 /\
      Forall (fun e => is_error_log e = false) (emitted r) /\
      Forall (fun e => is_call is_volume_call e = false) (emitted r) /\
      count_alerts SUCCESS (emitted r) = 0 /\
      ((forall c text, ~ In (EvCall c (Raises text)) (emitted r)) ->
       count_alerts FAIL (emitted r) = 0))) /\
  (let r := Deletionsnappy.run E cfg in
   (forall text,
      In (EvCall ValidateStorage (Raises text)) (emitted r) ->
      exit_status (out r) = 1 /\
      count_alerts FAIL (emitted r) = 1 /\
      count_alerts SUCCESS (emitted r) = 0 /\
      Forall (fun e => is_call touches_volumes e = false) (emitted r)) /\
   (forall exclude l,
      In (EvCall (GetAfsList exclude) (Returns (VAfsList l))) (emitted r) ->
      AfsList.total l < 1 ->
      exit_status (out r) = 0 /\
      Forall (fun e => is_error_log e = false) (emitted r) /\
      Forall (fun e => is_call is_volume_call e = false) (emitted r) /\
      count_alerts SUCCESS (emitted r) = 0 /\
      count_alerts FAIL (emitted r) = 0)).
Proof.
  split; cbv zeta.
  - destruct (backup_run_shape E cfg)
      as (startup & Hst
          & [(t & g0 & _ & Hrun) | (cid & now & al & g0 & _ & Hcases)]).
    { rewrite Hrun. cbn [emitted]. rewrite Forall_forall in Hst.
      split; [intros text Hin | intros exclude l Hin];
        apply Hst in Hin; discriminate Hin. }
    cbv zeta in Hcases.
    set (tried := Backupsnappy.main_try cfg cid now al E startup g0) in *.
    assert (Hs1 := startup_quiet (is_alert FAIL) startup
                     ltac:(startup_side) Hst).
    assert (Hs2 := startup_quiet (is_alert SUCCESS) startup
                     ltac:(startup_side) Hst).
    assert (Hs3 := startup_quiet (is_call touches_volumes) startup
                     ltac:(startup_side) Hst).
    assert (Hs4 := startup_quiet is_error_log startup
                     ltac:(startup_side) Hst).
    assert (Hs5 := startup_quiet (is_call is_volume_call) startup
                     ltac:(startup_side) Hst).
    split.
    + intros text Hin.
      apply (shape_call _ _ _ Hst Hcases) in Hin; [| reflexivity].
      destruct (storage_validation_failure cfg cid now al E startup g0 text
                  Hin) as (Hout & Hfail & Hsucc & Hvol).
      fold tried in Hout, Hfail, Hsucc, Hvol.
      destruct (shape_raised _ _ _ Hcases text Hout)
        as (report & (a & t & m & ->) & ->).
      cbn [out emitted exit_status].
      split; [reflexivity |]. split; [count_tac |]. split; [count_tac |].
      forall_tac.
    + intros exclude l Hin Hl.
      apply (shape_call _ _ _ Hst Hcases) in Hin; [| reflexivity].
      destruct (no_volumes_found cfg cid now al E startup g0 exclude l Hin Hl)
        as (Hout & Herr & Hvol & Hsucc & Hfail).
      fold tried in Hout, Herr, Hvol, Hsucc, Hfail.
      rewrite (shape_not_raised _ _ _ Hcases)
        by (intros ex Hex; rewrite Hex in Hout; discriminate Hout).
      cbn [out emitted prepend]. rewrite Hout.
      split; [reflexivity |]. split; [forall_tac |]. split; [forall_tac |].
      split; [count_tac |].
      intros Hno.
      assert (Hd : count_alerts FAIL (emitted tried) = 0).
      { apply Hfail. intros c t Hc. apply (Hno c t).
        apply in_or_app. right. exact Hc. }
      count_tac.
  - destruct (deletion_run_shape E cfg)
      as (startup & Hst
          & [(t & g0 & _ & Hrun) | (cid & al & g0 & _ & Hcases)]).
    { rewrite Hrun. cbn [emitted]. rewrite Forall_forall in Hst.
      split; [intros text Hin | intros exclude l Hin];
        apply Hst in Hin; discriminate Hin. }
    cbv zeta in Hcases.
    set (tried := Deletionsnappy.main_try cfg cid (run_start_time E) al E
                    startup g0) in *.
    assert (Hs1 := startup_quiet (is_alert FAIL) startup
                     ltac:(startup_side) Hst).
    assert (Hs2 := startup_quiet (is_alert SUCCESS) startup
                     ltac:(startup_side) Hst).
    assert (Hs3 := startup_quiet (is_call touches_volumes) startup
                     ltac:(startup_side) Hst).
    assert (Hs4 := startup_quiet is_error_log startup
                     ltac:(startup_side) Hst).
    assert (Hs5 := startup_quiet (is_call is_volume_call) startup
                     ltac:(startup_side) Hst).
    split.
    + intros text Hin.
      apply (shape_call _ _ _ Hst Hcases) in Hin; [| reflexivity].
      destruct (deletion_storage_validation_failure cfg cid
                  (run_start_time E) al E startup g0 text Hin)
        as (Hout & Hfail & Hsucc & Hvol).
      fold tried in Hout, Hfail, Hsucc, Hvol.
      destruct (shape_raised _ _ _ Hcases text Hout)
        as (report & (a & t & m & ->) & ->).
      cbn [out emitted exit_status].
      split; [reflexivity |]. split; [count_tac |]. split; [count_tac |].
      forall_tac.
    + intros exclude l Hin Hl.
      apply (shape_call _ _ _ Hst Hcases) in Hin; [| reflexivity].
      destruct (deletion_no_volumes_found cfg cid (run_start_time E) al E
                  startup g0 exclude l Hin Hl)
        as (Hout & Herr & Hvol & Hsucc & Hfail).
      fold tried in Hout, Herr, Hvol, Hsucc, Hfail.
      rewrite (shape_not_raised _ _ _ Hcases)
        by (intros ex Hex; rewrite Hex in Hout; discriminate Hout).
      cbn [out emitted prepend]. rewrite Hout.
      split; [reflexivity |]. split; [forall_tac |]. split; [forall_tac |].
      split; count_tac.
Qed.

Lemma storage_validation_gates_the_run_witness :
  (exit_status
     (out (Backupsnappy.run (Scenario.env Scenario.invalid_storage)
             Scenario.config)) = 1 /\
   count_alerts FAIL
     (emitted (Backupsnappy.run (Scenario.env Scenario.invalid_storage)
                 Scenario.config)) = 1) /\
  exit_status
    (out (Backupsnappy.run (Scenario.env Scenario.no_volumes)
            Scenario.config)) = 0.
Proof.
  split.
  - assert (Hin :
      In (EvCall ValidateStorage (Raises "StorageValidationError"))
         (emitted (Backupsnappy.run (Scenario.env Scenario.invalid_storage)
                     Scenario.config))).
    { vm_compute. in_trace. }
    destruct (proj1 (proj1 (storage_validation_gates_the_run
                              (Scenario.env Scenario.invalid_storage)
                              Scenario.config)) _ Hin) as (H1 & H2 & _).
    split; assumption.
  - assert (Hin :
      In (EvCall (GetAfsList "") (Returns (VAfsList (AfsList.mk 0 []))))
         (emitted (Backupsnappy.run (Scenario.env Scenario.no_volumes)
                     Scenario.config))).
    { vm_compute. in_trace. }
    assert (Hl : AfsList.total (AfsList.mk 0 []) < 1) by (cbn; lia).
    exact (proj1 (proj2 (proj1 (storage_validation_gates_the_run
                                  (Scenario.env Scenario.no_volumes)
                                  Scenario.config)) _ _ Hin Hl)).
Defined.

(** ** C8: the run counters *)

(** C8, counterexample: a creation run that finds no volume ends with
    status 0 and never reports the counters. *)
Lemma empty_account_reports_no_counters :
  exit_status
    (out (Backupsnappy.run (Scenario.env Scenario.no_volumes)
            Scenario.config)) = 0 /\
  count is_summary
    (emitted (Backupsnappy.run (Scenario.env Scenario.no_volumes)
                Scenario.config)) = 0.
Proof. split; reflexivity. Qed.

(** C8, amended: in every run, and in every procedure that assigns a
    counter, the counter moves by exactly the number of [create_snapshot]
    (or [delete_snapshot]) calls that returned: a call that raises adds
    nothing, and neither procedure ever leaves its counter lower than it
    found it.  A run that completes its volume loop reports the final value
    exactly once, as its last event; a run that ends early (no volume found,
    or a run-fatal error) does not report it. *)
Theorem counters_follow_successful_calls E cfg :
  (let r := Backupsnappy.run E cfg in
   Backupsnappy.snapshots_created (globals r) = count created_ok (emitted r) /\
   (out r = Ret tt ->
    exists cid,
      ends_with_summary
        (EvLog INFO
           (CreationJobCompleted
              (Backupsnappy.snapshots_created (globals r)) cid))
        (emitted r)) /\
   (out r = Ret tt -> count is_summary (emitted r) = 1) /\
   (out r <> Ret tt -> count is_summary (emitted r) = 0)) /\
  (let r := Deletionsnappy.run E cfg in
   Deletionsnappy.deleted_snapshots (globals r)
   = count deleted_ok (emitted r) /\
   (out r = Ret tt ->
    exists cid,
      ends_with_summary
        (EvLog INFO
           (DeletionJobCompleted
              (Deletionsnappy.deleted_snapshots (globals r)) cid))
        (emitted r)) /\
   (out r = Ret tt -> count is_summary (emitted r) = 1) /\
   (out r <> Ret tt -> count is_summary (emitted r) = 0)) /\
  (forall afs_manager cid now alerting adhoc,
     tracks Backupsnappy.snapshots_created created_ok
       (Backupsnappy.__create_afs_snapshot cfg afs_manager cid now alerting
                                           adhoc)) /\
  (forall snapshot afs_manager cid alerting,
     tracks Deletionsnappy.deleted_snapshots deleted_ok
       (Deletionsnappy.__delete_snapshot snapshot afs_manager cid alerting)) /\
  (forall afs_manager cid now alerting adhoc h g,
     Backupsnappy.snapshots_created g
     <= Backupsnappy.snapshots_created
          (globals (Backupsnappy.__create_afs_snapshot cfg afs_manager cid now
                      alerting adhoc E h g))) /\
  (forall snapshot afs_manager cid alerting h g,
     Deletionsnappy.deleted_snapshots g
     <= Deletionsnappy.deleted_snapshots
          (globals (Deletionsnappy.__delete_snapshot snapshot afs_manager cid
                      alerting E h g))).
Proof.
  split; [| split; [| split; [| split; [| split]]]].
  - cbv zeta.
    destruct (backup_run_shape E cfg)
      as (startup & Hst
          & [(t & g0 & Hzero & Hrun) | (cid & now & al & g0 & Hzero & Hcases)]).
    { rewrite Hrun. cbn [out emitted globals].
      pose proof (startup_quiet created_ok startup ltac:(startup_side) Hst)
        as H1.
      pose proof (startup_quiet is_summary startup ltac:(startup_side) Hst)
        as H2.
      rewrite Hzero, !count_quiet by assumption.
      split; [reflexivity |].
      split; [discriminate | split; [discriminate | reflexivity]]. }
    cbv zeta in Hcases.
    rewrite (shape_globals _ _ _ Hcases).
    rewrite (shape_count _ _ _ Hst Hcases created_ok)
      by (startup_side || (intros; repeat split)).
    split.
    + rewrite (backup_tracks cfg cid now al E startup g0), Hzero. lia.
    + pose proof (shape_summary _ _ _ Hst Hcases
                    (EvLog INFO
                       (CreationJobCompleted
                          (Backupsnappy.snapshots_created
                             (globals (Backupsnappy.main_try cfg cid now al E
                                         startup g0))) cid))
                    (backup_summary cfg cid now al E startup g0))
        as [Hsum Hnone].
      split; [intros Hout; exists cid; exact (Hsum Hout) |].
      split; [| exact Hnone].
      intros Hout.
      apply ends_with_summary_count in Hsum; [exact Hsum | reflexivity | exact Hout].
  - cbv zeta.
    destruct (deletion_run_shape E cfg)
      as (startup & Hst
          & [(t & g0 & Hzero & Hrun) | (cid & al & g0 & Hzero & Hcases)]).
    { rewrite Hrun. cbn [out emitted globals].
      pose proof (startup_quiet deleted_ok startup ltac:(startup_side) Hst)
        as H1.
      pose proof (startup_quiet is_summary startup ltac:(startup_side) Hst)
        as H2.
      rewrite Hzero, !count_quiet by assumption.
      split; [reflexivity |].
      split; [discriminate | split; [discriminate | reflexivity]]. }
    cbv zeta in Hcases.
    rewrite (shape_globals _ _ _ Hcases).
    rewrite (shape_count _ _ _ Hst Hcases deleted_ok)
      by (startup_side || (intros; repeat split)).
    split.
    + rewrite (deletion_tracks cfg cid (run_start_time E) al E startup g0),
        Hzero. lia.
    + pose proof (shape_summary _ _ _ Hst Hcases
                    (EvLog INFO
                       (DeletionJobCompleted
                          (Deletionsnappy.deleted_snapshots
                             (globals (Deletionsnappy.main_try cfg cid
                                         (run_start_time E) al E startup
                                         g0))) cid))
                    (deletion_summary cfg cid (run_start_time E) al E startup
                       g0))
        as [Hsum Hnone].
      split; [intros Hout; exists cid; exact (Hsum Hout) |].
      split; [| exact Hnone].
      intros Hout.
      apply ends_with_summary_count in Hsum; [exact Hsum | reflexivity | exact Hout].
  - intros. apply create_tracks.
  - intros snapshot afs_manager cid alerting E0 h g.
    apply delete_snapshot_run.
  - intros afs_manager cid now alerting adhoc h g.
    apply tracks_never_decrements with (p := created_ok).
    apply create_tracks.
  - intros snapshot afs_manager cid alerting h g.
    apply tracks_never_decrements with (p := deleted_ok).
    intros E0 h0 g0. apply delete_snapshot_run.
Qed.

Lemma counters_follow_successful_calls_witness :
  out (Backupsnappy.run (Scenario.env Scenario.limit_then_healthy)
         Scenario.config) = Ret tt /\
  exists cid,
    ends_with_summary
      (EvLog INFO (CreationJobCompleted 1 cid))
      (emitted (Backupsnappy.run (Scenario.env Scenario.limit_then_healthy)
                  Scenario.config)).
Proof.
  split; [reflexivity |].
  exact (proj1 (proj2 (proj1 (counters_follow_successful_calls
                                (Scenario.env Scenario.limit_then_healthy)
                                Scenario.config))) eq_refl).
Defined.

(** ** C9: the soft-delete guard is best effort *)

(** C9: whatever fails while soft delete is checked or enabled, the guard
    returns normally and leaves the counters alone; the failure is logged
    as a warning and reported by exactly one FAIL alert; and a run whose
    storage validation returned goes on to list the volumes whatever the
    guard met. *)
Theorem softdelete_failure_is_not_fatal E cfg :
  (forall storage_manager cid now alerting h g,
     let r := Backupsnappy.__enable_softdelete_in_file_share storage_manager
                cid now alerting E h g in
     out r = Ret tt /\ globals r = g /\
     ((exists c text, In (EvCall c (Raises text)) (emitted r)) ->
      count_alerts FAIL (emitted r) = 1 /\
      exists message,
        In (EvAlert alerting FAIL now (Some message) None) (emitted r) /\
        In (EvLog WARNING (Text message)) (emitted r))) /\
  (In (EvCall ValidateStorage (Returns VNone))
      (emitted (Backupsnappy.run E cfg)) ->
   exists reply,
     In (EvCall (GetAfsList (EXCLUDE_AFS cfg)) reply)
        (emitted (Backupsnappy.run E cfg))).
Proof.
  split.
  - intros sm cid now alerting h g.
    pose proof (softdelete_run sm cid now alerting E h g) as H.
    cbv zeta in H |- *. destruct H as (H1 & H2 & _ & H3 & _).
    split; [exact H1 | split; [exact H2 | exact H3]].
  - intros Hin.
    destruct (backup_run_shape E cfg)
      as (startup & Hst
          & [(t & g0 & _ & Hrun) | (cid & now & al & g0 & _ & Hcases)]).
    { rewrite Hrun in Hin. cbn [emitted] in Hin.
      rewrite Forall_forall in Hst. apply Hst in Hin. discriminate Hin. }
    cbv zeta in Hcases.
    apply (shape_call _ _ _ Hst Hcases) in Hin; [| reflexivity].
    destruct (listing_follows_validation cfg cid now al E startup g0 Hin)
      as [reply Hr].
    exists reply. exact (shape_in _ _ _ Hcases _ Hr).
Qed.

Lemma softdelete_failure_is_not_fatal_witness :
  In (EvCall IsSoftdeleteEnabled (Raises "AuthorizationFailed"))
     (emitted (Backupsnappy.run (Scenario.env Scenario.softdelete_broken)
                 Scenario.config)) /\
  Backupsnappy.snapshots_created
    (globals (Backupsnappy.run (Scenario.env Scenario.softdelete_broken)
                Scenario.config)) = 1 /\
  exists reply,
    In (EvCall (GetAfsList (EXCLUDE_AFS Scenario.config)) reply)
       (emitted (Backupsnappy.run (Scenario.env Scenario.softdelete_broken)
                   Scenario.config)).
Proof.
  split; [vm_compute; in_trace |]. split; [reflexivity |].
  apply (proj2 (softdelete_failure_is_not_fatal
                  (Scenario.env Scenario.softdelete_broken) Scenario.config)).
  vm_compute. in_trace.
Defined.

(** ** C10: one clock reading decides every expiration *)

Lemma same_age_same_verdict (now : datetime) (s1 s2 : Snapshot) :
  created_at s1 = created_at s2 ->
  retention_days s1 = retention_days s2 ->
  Deletionsnappy.retention_gate s1 = Deletionsnappy.retention_gate s2 /\
  Deletionsnappy.__has_snapshot_expired now s1
  = Deletionsnappy.__has_snapshot_expired now s2.
Proof.
  intros Hc Hr.
  unfold Deletionsnappy.retention_gate, Deletionsnappy.__has_snapshot_expired.
  rewrite Hc, Hr. split; reflexivity.
Qed.

(** C10: the deletion flow reads the clock once for the expiration checks,
    at the start of [main]; with that reading [now], in every run, a
    deletion is requested only for snapshots expired at [now], every listed
    snapshot that passes the retention gate and is expired at [now] has its
    deletion requested, and so two listed snapshots with equal creation
    time and retention days get the same verdict, whichever volume holds
    them and however late they are reached. *)
Theorem one_clock_reading_decides_expiration E cfg :
  let r := Deletionsnappy.run E cfg in
  let now := run_start_time E in
  deletes_only_expired now (emitted r) /\
  deletes_every_expired now (emitted r) /\
  (forall v1 s1 v2 s2,
     listed (emitted r) v1 s1 -> listed (emitted r) v2 s2 ->
     created_at s1 = created_at s2 ->
     retention_days s1 = retention_days s2 ->
     Deletionsnappy.__has_snapshot_expired now s1
     = Deletionsnappy.__has_snapshot_expired now s2 /\
     (deletion_requested (emitted r) v1 s1 <->
      deletion_requested (emitted r) v2 s2)).
Proof.
  cbv zeta.
  assert (Honly : deletes_only_expired (run_start_time E)
                    (emitted (Deletionsnappy.run E cfg)) /\
                  deletes_every_expired (run_start_time E)
                    (emitted (Deletionsnappy.run E cfg))).
  { destruct (deletion_run_shape E cfg)
      as (startup & Hst
          & [(t & g0 & _ & Hrun) | (cid & al & g0 & _ & Hcases)]).
    - rewrite Hrun. cbn [emitted]. split.
      + eapply Forall_impl; [| exact Hst].
        intros [[] ? | | |] H0; first [discriminate H0 | exact I].
      + apply quiet_deletes_every_expired.
        apply startup_quiet; [startup_side | exact Hst].
    - cbv zeta in Hcases. split.
      + apply (shape_closed _ _ _ Hcases).
        * apply closed_Forall.
        * eapply Forall_impl; [| exact Hst].
        intros [[] ? | | |] H0; first [discriminate H0 | exact I].
        * apply deletion_only_expired.
        * intros ex report (a & t & m & ->). repeat constructor.
      + apply (shape_closed _ _ _ Hcases).
        * apply closed_deletes_every_expired.
        * apply quiet_deletes_every_expired.
          apply startup_quiet; [startup_side | exact Hst].
        * apply deletion_every_expired.
        * intros ex report (a & t & m & ->).
          apply quiet_deletes_every_expired. repeat constructor. }
  destruct Honly as [Honly Hevery].
  split; [exact Honly |]. split; [exact Hevery |].
  intros v1 s1 v2 s2 (l1 & Hl1 & Ht1 & Hs1) (l2 & Hl2 & Ht2 & Hs2) Hc Hr.
  destruct (same_age_same_verdict (run_start_time E) s1 s2 Hc Hr)
    as [Hgate Hexp].
  split; [exact Hexp |].
  unfold deletes_only_expired in Honly. rewrite Forall_forall in Honly.
  split; intros [reply Hin]; apply Honly in Hin; destruct Hin as [Hg He].
  - apply (Hevery v2 l2 s2 Hl2 Ht2 Hs2); congruence.
  - apply (Hevery v1 l1 s1 Hl1 Ht1 Hs1); congruence.
Qed.

Lemma one_clock_reading_decides_expiration_witness :
  listed (emitted (Deletionsnappy.run (Scenario.env Scenario.twin_snapshots)
                     Scenario.config))
         "v1" (Scenario.new_year "a" (Some 30)) /\
  listed (emitted (Deletionsnappy.run (Scenario.env Scenario.twin_snapshots)
                     Scenario.config))
         "v2" (Scenario.new_year "a" (Some 30)) /\
  (deletion_requested
     (emitted (Deletionsnappy.run (Scenario.env Scenario.twin_snapshots)
                 Scenario.config))
     "v1" (Scenario.new_year "a" (Some 30)) <->
   deletion_requested
     (emitted (Deletionsnappy.run (Scenario.env Scenario.twin_snapshots)
                 Scenario.config))
     "v2" (Scenario.new_year "a" (Some 30))).
Proof.
  assert (H1 :
    listed (emitted (Deletionsnappy.run (Scenario.env Scenario.twin_snapshots)
                       Scenario.config))
           "v1" (Scenario.new_year "a" (Some 30))).
  { exists (SnapshotList.mk 2 [Scenario.new_year "a" (Some 30);
                               Scenario.new_year "kept" (Some 90)]).
    split; [vm_compute; in_trace |]. split; [cbn; lia | left; reflexivity]. }
  assert (H2 :
    listed (emitted (Deletionsnappy.run (Scenario.env Scenario.twin_snapshots)
                       Scenario.config))
           "v2" (Scenario.new_year "a" (Some 30))).
  { exists (SnapshotList.mk 2 [Scenario.new_year "kept" (Some 60);
                               Scenario.new_year "a" (Some 30)]).
    split; [vm_compute; in_trace |].
    split; [cbn; lia | right; left; reflexivity]. }
  split; [exact H1 |]. split; [exact H2 |].
  exact (proj2 (proj2 (proj2 (one_clock_reading_decides_expiration
                                (Scenario.env Scenario.twin_snapshots)
                                Scenario.config))
                 "v1"%string _ "v2"%string _ H1 H2 eq_refl eq_refl)).
Defined.

(** ** C5, witness *)


(** ** C6: the ad-hoc retention allow-list *)

Lemma contains_In (x : Z) (l : list Z) :
  Backupsnappy.contains x l = true <-> In x l.
Proof.
  unfold Backupsnappy.contains. rewrite existsb_exists. split.
  - intros (y & Hy & Heq). apply Z.eqb_eq in Heq. now subst.
  - intros H. exists x. split; [exact H | apply Z.eqb_refl].
Qed.

(** C6: whatever Python's [int] reads, for every input that it reads as an
    integer [z] the ad-hoc retention validation succeeds exactly when [z]
    is one of the fourteen values 3, 7, 15, 30, 45, 60, 67, 90, 180, 365,
    730, 1095, 1460, 1825, and raises the policy exception for every other
    value; an input that [int] does not read raises what [int] raised.  So
    the input that reads as 90 is accepted and the one that reads as 91 is
    rejected. *)
Theorem adhoc_retention_allow_list (int : string -> reply Z) :
  (forall (rdays : string) (z : Z),
     int rdays = Returns z ->
     (Backupsnappy.__validate_allowed_adhoc_backup_retention_days int rdays
      = Ret tt
      <-> In z [3; 7; 15; 30; 45; 60; 67; 90; 180; 365; 730; 1095; 1460;
                1825]) /\
     (~ In z [3; 7; 15; 30; 45; 60; 67; 90; 180; 365; 730; 1095; 1460; 1825] ->
      Backupsnappy.__validate_allowed_adhoc_backup_retention_days int rdays
      = Raise (Exception
          "The retention days for adhoc backup must be from: [3, 7, 15, 30, 45, 60, 67, 90, 180, 365, 730, 1095, 1460, 1825]"))) /\
  (forall (rdays text : string),
     int rdays = Raises text ->
     Backupsnappy.__validate_allowed_adhoc_backup_retention_days int rdays
     = Raise (Exception text)) /\
  List.length Backupsnappy.allowed_adhoc_backup_retention_days_list = 14%nat /\
  NoDup Backupsnappy.allowed_adhoc_backup_retention_days_list /\
  (forall rdays,
     int rdays = Returns 90 ->
     Backupsnappy.__validate_allowed_adhoc_backup_retention_days int rdays
     = Ret tt) /\
  (forall rdays,
     int rdays = Returns 91 ->
     exists text,
       Backupsnappy.__validate_allowed_adhoc_backup_retention_days int rdays
       = Raise (Exception text)).
Proof.
  assert (Hgen : forall (rdays : string) (z : Z),
     int rdays = Returns z ->
     (Backupsnappy.__validate_allowed_adhoc_backup_retention_days int rdays
      = Ret tt
      <-> In z Backupsnappy.allowed_adhoc_backup_retention_days_list) /\
     (~ In z Backupsnappy.allowed_adhoc_backup_retention_days_list ->
      Backupsnappy.__validate_allowed_adhoc_backup_retention_days int rdays
      = Raise (Exception
          "The retention days for adhoc backup must be from: [3, 7, 15, 30, 45, 60, 67, 90, 180, 365, 730, 1095, 1460, 1825]"))).
  { intros rdays z Hint.
    unfold Backupsnappy.__validate_allowed_adhoc_backup_retention_days.
    rewrite Hint.
    destruct (Backupsnappy.contains z
                Backupsnappy.allowed_adhoc_backup_retention_days_list) eqn:Hc;
      cbn [negb].
    - apply contains_In in Hc. split; tauto.
    - assert (Hn : ~ In z Backupsnappy.allowed_adhoc_backup_retention_days_list).
      { intros H. apply contains_In in H. congruence. }
      split; [split; [discriminate | intros H; destruct (Hn H)] |].
      intros _. reflexivity. }
  split; [exact Hgen |].
  split.
  { intros rdays text Hint.
    unfold Backupsnappy.__validate_allowed_adhoc_backup_retention_days.
    rewrite Hint. reflexivity. }
  split; [reflexivity |]. split.
  { repeat (constructor; [cbn; intuition discriminate |]). constructor. }
  split.
  - intros rdays Hint. apply (proj1 (Hgen rdays 90 Hint)). cbn. tauto.
  - intros rdays Hint. eexists.
    apply (proj2 (Hgen rdays 91 Hint)). cbn. intuition discriminate.
Qed.

Lemma adhoc_retention_allow_list_witness :
  Scenario.read_decimal "90" = Returns 90 /\
  Backupsnappy.__validate_allowed_adhoc_backup_retention_days
    Scenario.read_decimal "90" = Ret tt /\
  Scenario.read_decimal "91" = Returns 91 /\
  exists text,
    Backupsnappy.__validate_allowed_adhoc_backup_retention_days
      Scenario.read_decimal "91" = Raise (Exception text).
Proof.
  split; [reflexivity |]. split.
  - exact (proj1 (proj2 (proj2 (proj2 (proj2
             (adhoc_retention_allow_list Scenario.read_decimal)))))
             "90"%string eq_refl).
  - split; [reflexivity |].
    exact (proj2 (proj2 (proj2 (proj2 (proj2
             (adhoc_retention_allow_list Scenario.read_decimal)))))
             "91"%string eq_refl).
Defined.
(** * Further properties of the two runbooks *)

(** ** The expiration check over time *)

Lemma days_since_mono (a b c : datetime) :
  instant a <= instant b -> days_since a c <= days_since b c.
Proof.
  intros H. unfold days_since.
  apply Z.div_le_mono; [reflexivity | lia].
Qed.

(** X1: expiration is monotone in the clock: a snapshot that the check
    finds expired at one instant is found expired at every later instant,
    and one found not expired was not expired at any earlier instant. *)
Theorem expired_stays_expired (now later : datetime) (snapshot : Snapshot) :
  instant now <= instant later ->
  (Deletionsnappy.__has_snapshot_expired now snapshot = Ret true ->
   Deletionsnappy.__has_snapshot_expired later snapshot = Ret true) /\
  (Deletionsnappy.__has_snapshot_expired later snapshot = Ret false ->
   Deletionsnappy.__has_snapshot_expired now snapshot = Ret false).
Proof.
  intros Hle.
  pose proof (days_since_mono now later (created_at snapshot) Hle) as Hd.
  unfold Deletionsnappy.__has_snapshot_expired.
  destruct (retention_days snapshot) as [r |]; [| split; discriminate].
  rewrite !sub_days.
  split; intros H; injection H as H; f_equal.
  - apply Z.ltb_lt in H. apply Z.ltb_lt. lia.
  - apply Z.ltb_ge in H. apply Z.ltb_ge. lia.
Qed.

Lemma expired_stays_expired_witness :
  instant (Scenario.midnight 2024 3 2) <= instant (Scenario.midnight 2024 6 1) /\
  Deletionsnappy.__has_snapshot_expired (Scenario.midnight 2024 3 2)
    (Scenario.new_year "daily" (Some 60)) = Ret true /\
  Deletionsnappy.__has_snapshot_expired (Scenario.midnight 2024 6 1)
    (Scenario.new_year "daily" (Some 60)) = Ret true.
Proof.
  assert (Hle : instant (Scenario.midnight 2024 3 2)
                <= instant (Scenario.midnight 2024 6 1)).
  { apply Z.leb_le. reflexivity. }
  split; [exact Hle |]. split; [reflexivity |].
  exact (proj1 (expired_stays_expired (Scenario.midnight 2024 3 2)
                  (Scenario.midnight 2024 6 1)
                  (Scenario.new_year "daily" (Some 60)) Hle) eq_refl).
Defined.

(** ** One snapshot of the deletion flow *)

(** X2: [__delete_snapshot] never raises.  When the backend call returns
    it answers [True], adds one to [deleted_snapshots] and sends no alert.
    When the backend call raises it answers [False], leaves the counter
    alone, and reports the failure once: one FAIL alert, whose start time
    is the clock reading taken when this deletion began, and one warning
    with the same text, which names the snapshot, the exception and the
    correlation id. *)
Theorem delete_snapshot_answers_by_outcome
  snapshot afs_manager cid alerting E h g :
  let r := Deletionsnappy.__delete_snapshot snapshot afs_manager cid alerting
             E h g in
  let call := DeleteSnapshot (AFSManager.afs_name afs_manager) snapshot in
  (exists b, out r = Ret b) /\
  count (is_call is_DeleteSnapshot) (emitted r) = 1 /\
  (In (EvCall call (Returns VNone)) (emitted r) ->
   out r = Ret true /\
   Deletionsnappy.deleted_snapshots (globals r)
   = Deletionsnappy.deleted_snapshots g + 1 /\
   count_alerts FAIL (emitted r) = 0 /\
   Forall (fun e => match e with EvLog WARNING _ => False | _ => True end)
          (emitted r)) /\
  (forall text,
     In (EvCall call (Raises text)) (emitted r) ->
     let message :=
       ("Skipping: " ++ name snapshot
        ++ ", Unable to delete the snapshot with exception: " ++ text
        ++ " - correlation_id=" ++ cid)%string in
     out r = Ret false /\
     globals r = g /\
     count_alerts FAIL (emitted r) = 1 /\
     In (EvAlert alerting FAIL (env_get_current_datetime E h) (Some message)
                 None) (emitted r) /\
     In (EvLog WARNING (Text message)) (emitted r)).
Proof.
  unfold Deletionsnappy.__delete_snapshot. run.
  - split; [eexists; reflexivity |]. split; [reflexivity |].
    split.
    + intros _. split; [reflexivity |]. split; [reflexivity |].
      split; [reflexivity |]. cbn [app]. repeat constructor.
    + intros text Hin. exfalso. not_in_trace Hin.
  - split; [eexists; reflexivity |]. split; [reflexivity |].
    split.
    + intros Hin. exfalso. not_in_trace Hin.
    + intros text0 Hin. not_in_trace Hin. injection Hin as ->.
      split; [reflexivity |]. split; [reflexivity |].
      split; [reflexivity |]. split; in_trace.
Qed.

Lemma delete_snapshot_answers_by_outcome_witness :
  out (Deletionsnappy.__delete_snapshot
         (Scenario.new_year "a" (Some 30))
         (AFSManager.new "token" (StorageManager.new "sub" "rg" "storage"
                                    "token" "cid") "v1" "cid")
         "cid"
         (Alerting.TICHttpBasedAlerting "sub" "CID" "storage" "1.0.0" "cid"
                                        "SID" "storage")
         (Scenario.env
            (Scenario.mk Scenario.march_first true (Returns true) true
               [Scenario.mk_Volume "v1" true false true true
                  [Scenario.new_year "a" (Some 30)] ["a"%string]]))
         [] Deletionsnappy.initial_globals) = Ret false.
Proof.
  apply (proj2 (proj2 (proj2
    (delete_snapshot_answers_by_outcome
       (Scenario.new_year "a" (Some 30))
       (AFSManager.new "token" (StorageManager.new "sub" "rg" "storage"
                                  "token" "cid") "v1" "cid")
       "cid"
       (Alerting.TICHttpBasedAlerting "sub" "CID" "storage" "1.0.0" "cid"
                                      "SID" "storage")
       (Scenario.env
          (Scenario.mk Scenario.march_first true (Returns true) true
             [Scenario.mk_Volume "v1" true false true true
                [Scenario.new_year "a" (Some 30)] ["a"%string]]))
       [] Deletionsnappy.initial_globals))) "DeleteFailed"%string).
  vm_compute. in_trace.
Defined.

(** ** One volume of the deletion flow: what is deleted and what is
    counted *)

Lemma targets_weaken (afs : string) (P Q : Snapshot -> Prop) tr :
  (forall s, P s -> Q s) -> targets afs P tr -> targets afs Q tr.
Proof.
  intros HPQ. apply Forall_impl. intros [[] r | | |]; try (intros; exact I).
  intros [H1 H2]. split; [exact H1 | apply HPQ, H2].
Qed.

Lemma delete_snapshot_account snapshot afs_manager cid alerting E h g :
  let r := Deletionsnappy.__delete_snapshot snapshot afs_manager cid alerting
             E h g in
  exists b,
    out r = Ret b /\
    count deleted_ok (emitted r) = (if b then 1 else 0) /\
    targets (AFSManager.afs_name afs_manager) (fun s => s = snapshot)
            (emitted r) /\
    Forall (fun e => is_volume_summary e = false) (emitted r) /\
    Forall (fun e => is_call is_GetSnapshots e = false) (emitted r).
Proof.
  unfold Deletionsnappy.__delete_snapshot, targets. run.
  - exists true. split; [reflexivity |]. split; [reflexivity |].
    cbn [app]. split; [| split]; repeat constructor.
  - exists false. split; [reflexivity |]. split; [reflexivity |].
    cbn [app]. split; [| split]; repeat constructor.
Qed.

Section SnapshotAccount.
Variables (afs_manager : AFSManager.t) (cid : string) (now : datetime)
  (alerting : Alerting.t).

Let afs := AFSManager.afs_name afs_manager.
Let body := Deletionsnappy.snapshot_loop_body afs_manager cid now alerting.

Lemma snapshot_step_account snapshot acc E h g :
  let r := body snapshot acc E h g in
  out r = Ret (acc + count deleted_ok (emitted r)) /\
  targets afs (fun s => s = snapshot) (emitted r) /\
  Forall (fun e => is_volume_summary e = false) (emitted r) /\
  Forall (fun e => is_call is_GetSnapshots e = false) (emitted r) /\
  (Deletionsnappy.retention_gate snapshot = false ->
   emitted r = [] /\ globals r = g).
Proof.
  assert (Hidle : forall (P : Prop) (g : Deletionsnappy.Globals),
    let r := mk_result (Ret acc) [] g in
    out r = Ret (acc + count deleted_ok (emitted r)) /\
    targets afs (fun s => s = snapshot) (emitted r) /\
    Forall (fun e => is_volume_summary e = false) (emitted r) /\
    Forall (fun e => is_call is_GetSnapshots e = false) (emitted r) /\
    (P -> emitted r = [] /\ globals r = g)).
  { intros P g0 r. subst r. cbn [out emitted globals].
    split; [unfold count; cbn; f_equal; lia |].
    split; [constructor |]. split; [constructor |]. split; [constructor |].
    intros _. split; reflexivity. }
  subst body afs. unfold Deletionsnappy.snapshot_loop_body.
  destruct (Deletionsnappy.retention_gate snapshot) eqn:Hgate.
  2:{ apply Hidle. }
  destruct (gated_check_returns now snapshot Hgate) as [expired Hexp].
  rewrite step_lift, Hexp. destruct expired.
  2:{ apply Hidle. }
  unfold info. rewrite step_emit. cbv beta. rewrite step_bind.
  pose proof (delete_snapshot_account snapshot afs_manager cid alerting E
                (h ++ [EvLog INFO (DeletingSnapshot (name snapshot))]) g)
    as Hrun.
  cbv zeta in Hrun.
  destruct (Deletionsnappy.__delete_snapshot snapshot afs_manager cid
              alerting E
              (h ++ [EvLog INFO (DeletingSnapshot (name snapshot))]) g)
    as [o d g1].
  cbn [out emitted globals] in Hrun |- *.
  destruct Hrun as (b & -> & Hcount & Htargets & Hsum & Hget).
  assert (Hfinal :
    (if b then ret (G := Deletionsnappy.Globals) (acc + 1) else ret acc)
      E ((h ++ [EvLog INFO (DeletingSnapshot (name snapshot))]) ++ d) g1
    = mk_result (Ret (if b then acc + 1 else acc)) [] g1).
  { destruct b; reflexivity. }
  rewrite Hfinal. flatten.
  split.
  { rewrite count_cons. cbn [deleted_ok]. rewrite Hcount.
    destruct b; f_equal; lia. }
  split; [constructor; [exact I | exact Htargets] |].
  split; [constructor; [reflexivity | exact Hsum] |].
  split; [constructor; [reflexivity | exact Hget] |].
  intros Hf. discriminate Hf.
Qed.

Lemma snapshot_loop_account snaps acc E h g :
  let r := for_fold snaps acc body E h g in
  out r = Ret (acc + count deleted_ok (emitted r)) /\
  targets afs (fun s => In s snaps) (emitted r) /\
  Forall (fun e => is_volume_summary e = false) (emitted r) /\
  Forall (fun e => is_call is_GetSnapshots e = false) (emitted r) /\
  ((forall s, In s snaps -> Deletionsnappy.retention_gate s = false) ->
   emitted r = [] /\ globals r = g).
Proof.
  revert acc h g. induction snaps as [| s0 snaps IH]; intros acc h g.
  - cbn. split; [unfold count; cbn; f_equal; lia |].
    split; [constructor |]. split; [constructor |]. split; [constructor |].
    intros _. split; reflexivity.
  - cbn [for_fold]. rewrite step_bind.
    pose proof (snapshot_step_account s0 acc E h g) as Hstep.
    cbv zeta in Hstep.
    destruct (body s0 acc E h g) as [o d g1].
    cbn [out emitted globals] in Hstep |- *.
    destruct Hstep as (-> & Ht & Hsum & Hget & Hskip).
    specialize (IH (acc + count deleted_ok d) (h ++ d) g1). cbv zeta in IH.
    destruct (for_fold snaps (acc + count deleted_ok d) body E (h ++ d) g1)
      as [o' d' g2].
    cbn [out emitted globals prepend] in IH |- *.
    destruct IH as (-> & Ht' & Hsum' & Hget' & Hskip').
    split; [rewrite count_app; f_equal; lia |].
    split.
    { apply Forall_app. split.
      - apply targets_weaken with (2 := Ht). intros s ->. left. reflexivity.
      - apply targets_weaken with (2 := Ht'). intros s Hs. right. exact Hs. }
    split; [apply Forall_app; split; assumption |].
    split; [apply Forall_app; split; assumption |].
    intros Hall.
    destruct (Hskip (Hall s0 (or_introl eq_refl))) as [-> ->].
    destruct (Hskip' (fun s Hs => Hall s (or_intror Hs))) as [-> ->].
    split; reflexivity.
Qed.

End SnapshotAccount.

Section VolumeAccount.
Variables (afs_manager : AFSManager.t) (cid : string) (now : datetime)
  (alerting : Alerting.t).

Let afs := AFSManager.afs_name afs_manager.
Let proc := Deletionsnappy.__delete_snapshots_in_afs afs_manager cid now
              alerting.

(** The three ways through [__delete_snapshots_in_afs]: the listing
    raised, the listing is empty, or the loop ran. *)
Lemma delete_snapshots_in_afs_cases E h g :
  let r := proc E h g in
  let fetching := EvLog INFO FetchingSnapshotsList in
  (exists text,
     let message :=
       ("Skipping: '" ++ afs ++ "' due to exception: " ++ text
        ++ " - correlation_id=" ++ cid)%string in
     r = mk_result (Ret tt)
           [fetching; EvCall (GetSnapshots afs) (Raises text);
            EvAlert alerting FAIL now (Some message) None;
            EvLog WARNING (Text message)] g) \/
  (exists l,
     SnapshotList.total l < 1 /\
     r = mk_result (Ret tt)
           [fetching; EvCall (GetSnapshots afs) (Returns (VSnapshotList l));
            EvLog INFO (NoSnapshotsInAfs afs cid)] g) \/
  (exists l d,
     1 <= SnapshotList.total l /\
     out r = Ret tt /\
     emitted r
     = [fetching; EvCall (GetSnapshots afs) (Returns (VSnapshotList l));
        EvLog INFO (SnapshotsFound (SnapshotList.total l))]
       ++ d
       ++ [EvLog INFO (SnapshotsDeletedInAfs (count deleted_ok d) afs cid)] /\
     targets afs (fun s => In s (SnapshotList.snapshots l)) d /\
     Forall (fun e => is_volume_summary e = false) d /\
     Forall (fun e => is_call is_GetSnapshots e = false) d /\
     ((forall s, In s (SnapshotList.snapshots l) ->
                 Deletionsnappy.retention_gate s = false) ->
      d = [] /\ globals r = g)).
Proof.
  subst proc afs. unfold Deletionsnappy.__delete_snapshots_in_afs. cbv zeta.
  rewrite step_try_except. walk.
  - right. left.
    match goal with
    | H : (SnapshotList.total ?l <? 1) = true |- _ =>
        exists l; split; [apply Z.ltb_lt; exact H | reflexivity]
    end.
  - right. right. rewrite step_bind.
    match goal with
    | |- context [for_fold ?l ?acc ?b ?E ?h ?g] =>
        pose proof (snapshot_loop_account afs_manager cid now alerting l acc
                      E h g) as Hloop;
        cbv zeta in Hloop;
        destruct (for_fold l acc b E h g) as [o d g1]
    end.
    cbn [out emitted globals] in Hloop |- *.
    destruct Hloop as (-> & Ht & Hsum & Hget & Hskip).
    steps. flatten.
    match goal with
    | H : (SnapshotList.total ?l <? 1) = false |- _ =>
        exists l, d; split; [apply Z.ltb_ge; exact H |]
    end.
    split; [reflexivity |]. split; [reflexivity |].
    split; [exact Ht |]. split; [exact Hsum |]. split; [exact Hget |].
    exact Hskip.
  - left. eexists. reflexivity.
Qed.

End VolumeAccount.

Section VolumeProperties.
Variables (afs_manager : AFSManager.t) (cid : string) (now : datetime)
  (alerting : Alerting.t).

(** X3: the line that closes a volume of the deletion flow reports exactly
    the number of [delete_snapshot] calls that returned for this volume,
    which is also what the volume added to the global [deleted_snapshots];
    it names the volume and the correlation id, and is logged once. *)
Theorem volume_summary_counts_deletions E h g n afs' cid' :
  let r := Deletionsnappy.__delete_snapshots_in_afs afs_manager cid now
             alerting E h g in
  let afs := AFSManager.afs_name afs_manager in
  In (EvLog INFO (SnapshotsDeletedInAfs n afs' cid')) (emitted r) ->
  n = count deleted_ok (emitted r) /\
  afs' = afs /\ cid' = cid /\
  Deletionsnappy.deleted_snapshots (globals r)
  = Deletionsnappy.deleted_snapshots g + n /\
  count is_volume_summary (emitted r) = 1.
Proof.
  cbv zeta. intros Hin.
  pose proof (delete_snapshots_in_afs_run cid now alerting afs_manager E h g)
    as Hrun.
  cbv zeta in Hrun. destruct Hrun as (_ & Hglobal & _).
  rewrite Hglobal. clear Hglobal.
  destruct (delete_snapshots_in_afs_cases afs_manager cid now alerting E h g)
    as [(text & Hr) | [(l & _ & Hr) | (l & d & _ & _ & Hr & _ & Hsum & _)]];
    cbv zeta in Hr; rewrite Hr in Hin |- *;
    cbn [emitted] in Hin |- *.
  - exfalso. not_in_trace Hin.
  - exfalso. not_in_trace Hin.
  - in_cases Hin. injection Hin as <- <- <-.
    assert (Hc : forall a m,
      count deleted_ok
        ([EvLog INFO FetchingSnapshotsList;
          EvCall (GetSnapshots a) (Returns (VSnapshotList l));
          EvLog INFO (SnapshotsFound (SnapshotList.total l))]
         ++ d ++ [EvLog INFO m])
      = count deleted_ok d).
    { intros a m. cbn [app]. count_tac. }
    rewrite !Hc.
    split; [reflexivity |]. split; [reflexivity |]. split; [reflexivity |].
    split; [reflexivity |]. cbn [app]. count_tac.
    cbn [is_volume_summary]. lia.
Qed.

(** X4: the [total] field of the listing decides alone whether the volume
    is looked at: when it is below 1 the procedure logs that there are no
    snapshots and returns, whatever the listing holds; no snapshot is
    deleted, no alert is sent and the counter is left alone. *)
Theorem empty_listing_ends_the_volume E h g l :
  let r := Deletionsnappy.__delete_snapshots_in_afs afs_manager cid now
             alerting E h g in
  let afs := AFSManager.afs_name afs_manager in
  In (EvCall (GetSnapshots afs) (Returns (VSnapshotList l))) (emitted r) ->
  SnapshotList.total l < 1 ->
  r = mk_result (Ret tt)
        [EvLog INFO FetchingSnapshotsList;
         EvCall (GetSnapshots afs) (Returns (VSnapshotList l));
         EvLog INFO (NoSnapshotsInAfs afs cid)] g.
Proof.
  cbv zeta. intros Hin Htotal.
  destruct (delete_snapshots_in_afs_cases afs_manager cid now alerting E h g)
    as [(text & Hr) | [(l' & _ & Hr) | (l' & d & Hl & _ & Hr & _ & _ & Hq & _)]];
    cbv zeta in Hr; rewrite Hr in Hin;
    cbn [emitted] in Hin.
  - exfalso. not_in_trace Hin.
  - not_in_trace Hin. injection Hin as <-. exact Hr.
  - exfalso. in_cases Hin. injection Hin as <-. lia.
Qed.

(** X5: when the listing of a volume raises, the procedure does not: it
    sends one FAIL alert and logs one warning, both with the text that
    names the volume, the exception and the correlation id, deletes
    nothing and returns with the counter as it was. *)
Theorem failed_listing_is_reported_and_skipped E h g text :
  let r := Deletionsnappy.__delete_snapshots_in_afs afs_manager cid now
             alerting E h g in
  let afs := AFSManager.afs_name afs_manager in
  In (EvCall (GetSnapshots afs) (Raises text)) (emitted r) ->
  let message :=
    ("Skipping: '" ++ afs ++ "' due to exception: " ++ text
     ++ " - correlation_id=" ++ cid)%string in
  r = mk_result (Ret tt)
        [EvLog INFO FetchingSnapshotsList;
         EvCall (GetSnapshots afs) (Raises text);
         EvAlert alerting FAIL now (Some message) None;
         EvLog WARNING (Text message)] g.
Proof.
  cbv zeta. intros Hin.
  destruct (delete_snapshots_in_afs_cases afs_manager cid now alerting E h g)
    as [(text' & Hr) | [(l' & _ & Hr) | (l' & d & Hl & _ & Hr & _ & _ & Hq & _)]];
    cbv zeta in Hr; rewrite Hr in Hin;
    cbn [emitted] in Hin.
  - not_in_trace Hin. injection Hin as <-. exact Hr.
  - exfalso. not_in_trace Hin.
  - exfalso. in_cases Hin.
Qed.

(** X6: a volume none of whose listed snapshots carries a positive
    retention (the value is missing, zero or negative) is left as it is:
    no expiration check is made, so the missing value raises nothing, no
    snapshot is deleted, no alert is sent, and the closing line reports 0
    deletions. *)
Theorem no_positive_retention_deletes_nothing E h g l :
  let r := Deletionsnappy.__delete_snapshots_in_afs afs_manager cid now
             alerting E h g in
  let afs := AFSManager.afs_name afs_manager in
  In (EvCall (GetSnapshots afs) (Returns (VSnapshotList l))) (emitted r) ->
  1 <= SnapshotList.total l ->
  (forall s, In s (SnapshotList.snapshots l) ->
             match retention_days s with
             | Some days => days <= 0
             | None => True
             end) ->
  r = mk_result (Ret tt)
        [EvLog INFO FetchingSnapshotsList;
         EvCall (GetSnapshots afs) (Returns (VSnapshotList l));
         EvLog INFO (SnapshotsFound (SnapshotList.total l));
         EvLog INFO (SnapshotsDeletedInAfs 0 afs cid)] g.
Proof.
  cbv zeta. intros Hin Htotal Hall.
  destruct (delete_snapshots_in_afs_cases afs_manager cid now alerting E h g)
    as [(text & Hr)
       | [(l' & Hl & Hr) | (l' & d & Hl & Hout & Hr & _ & _ & Hq & Hskip)]];
    cbv zeta in Hr; rewrite Hr in Hin;
    cbn [emitted] in Hin.
  - exfalso. not_in_trace Hin.
  - exfalso. not_in_trace Hin. injection Hin as <-. lia.
  - in_cases Hin. injection Hin as <-.
    destruct Hskip as [-> Hg].
    { intros s Hs. specialize (Hall s Hs).
      destruct (Deletionsnappy.retention_gate s) eqn:Hgate; [| reflexivity].
      apply retention_gate_true in Hgate. destruct Hgate as (days & Hd & Hpos).
      rewrite Hd in Hall. lia. }
    destruct (Deletionsnappy.__delete_snapshots_in_afs afs_manager cid now
                alerting E h g) as [o d g1].
    cbn [out emitted globals] in *.
    subst. reflexivity.
Qed.

End VolumeProperties.

Lemma volume_summary_counts_deletions_witness :
  In (EvLog INFO (SnapshotsDeletedInAfs 1 "v1" "cid"))
     (emitted (Deletionsnappy.__delete_snapshots_in_afs
                 (Fixture.volume "v1") "cid" Scenario.march_first
                 Fixture.alerting (Scenario.env Fixture.stubborn) []
                 Deletionsnappy.initial_globals)) /\
  Deletionsnappy.deleted_snapshots
    (globals (Deletionsnappy.__delete_snapshots_in_afs
                (Fixture.volume "v1") "cid" Scenario.march_first
                Fixture.alerting (Scenario.env Fixture.stubborn) []
                Deletionsnappy.initial_globals))
  = Deletionsnappy.deleted_snapshots Deletionsnappy.initial_globals + 1.
Proof.
  assert (Hin :
    In (EvLog INFO (SnapshotsDeletedInAfs 1 "v1" "cid"))
       (emitted (Deletionsnappy.__delete_snapshots_in_afs
                   (Fixture.volume "v1") "cid" Scenario.march_first
                   Fixture.alerting (Scenario.env Fixture.stubborn) []
                   Deletionsnappy.initial_globals))).
  { vm_compute. in_trace. }
  split; [exact Hin |].
  exact (proj1 (proj2 (proj2 (proj2
    (volume_summary_counts_deletions (Fixture.volume "v1") "cid"
       Scenario.march_first Fixture.alerting (Scenario.env Fixture.stubborn)
       [] Deletionsnappy.initial_globals 1 "v1"%string "cid"%string Hin))))).
Defined.

Lemma empty_listing_ends_the_volume_witness :
  out (Deletionsnappy.__delete_snapshots_in_afs
         (Fixture.volume "v1") "cid" Scenario.march_first Fixture.alerting
         (Scenario.env Fixture.bare) [] Deletionsnappy.initial_globals)
  = Ret tt.
Proof.
  assert (Hin :
    In (EvCall (GetSnapshots "v1") (Returns (VSnapshotList (SnapshotList.mk 0 []))))
       (emitted (Deletionsnappy.__delete_snapshots_in_afs
                   (Fixture.volume "v1") "cid" Scenario.march_first
                   Fixture.alerting (Scenario.env Fixture.bare) []
                   Deletionsnappy.initial_globals))).
  { vm_compute. in_trace. }
  assert (Hl : SnapshotList.total (SnapshotList.mk 0 []) < 1) by (cbn; lia).
  exact (f_equal out
    (empty_listing_ends_the_volume (Fixture.volume "v1") "cid"
       Scenario.march_first Fixture.alerting (Scenario.env Fixture.bare)
       [] Deletionsnappy.initial_globals _ Hin Hl)).
Defined.

Lemma failed_listing_is_reported_and_skipped_witness :
  out (Deletionsnappy.__delete_snapshots_in_afs
         (Fixture.volume "gone") "cid" Scenario.march_first Fixture.alerting
         (Scenario.env Fixture.bare) [] Deletionsnappy.initial_globals)
  = Ret tt.
Proof.
  assert (Hin :
    In (EvCall (GetSnapshots "gone") (Raises "VolumeNotFound"))
       (emitted (Deletionsnappy.__delete_snapshots_in_afs
                   (Fixture.volume "gone") "cid" Scenario.march_first
                   Fixture.alerting (Scenario.env Fixture.bare) []
                   Deletionsnappy.initial_globals))).
  { vm_compute. in_trace. }
  exact (f_equal out
    (failed_listing_is_reported_and_skipped (Fixture.volume "gone") "cid"
       Scenario.march_first Fixture.alerting (Scenario.env Fixture.bare)
       [] Deletionsnappy.initial_globals _ Hin)).
Defined.

Lemma no_positive_retention_deletes_nothing_witness :
  emitted (Deletionsnappy.__delete_snapshots_in_afs
             (Fixture.volume "v1") "cid" Scenario.march_first Fixture.alerting
             (Scenario.env Fixture.untagged) [] Deletionsnappy.initial_globals)
  = [EvLog INFO FetchingSnapshotsList;
     EvCall (GetSnapshots "v1")
       (Returns (VSnapshotList
                   (SnapshotList.mk 2 [Scenario.new_year "a" None;
                                       Scenario.new_year "b" (Some (-1))])));
     EvLog INFO (SnapshotsFound 2);
     EvLog INFO (SnapshotsDeletedInAfs 0 "v1" "cid")].
Proof.
  assert (Hin :
    In (EvCall (GetSnapshots "v1")
          (Returns (VSnapshotList
                      (SnapshotList.mk 2 [Scenario.new_year "a" None;
                                          Scenario.new_year "b" (Some (-1))]))))
       (emitted (Deletionsnappy.__delete_snapshots_in_afs
                   (Fixture.volume "v1") "cid" Scenario.march_first
                   Fixture.alerting (Scenario.env Fixture.untagged) []
                   Deletionsnappy.initial_globals))).
  { vm_compute. in_trace. }
  assert (Hl : 1 <= SnapshotList.total
                      (SnapshotList.mk 2 [Scenario.new_year "a" None;
                                          Scenario.new_year "b" (Some (-1))]))
    by (cbn; lia).
  assert (Hall : forall s,
    In s (SnapshotList.snapshots
            (SnapshotList.mk 2 [Scenario.new_year "a" None;
                                Scenario.new_year "b" (Some (-1))])) ->
    match retention_days s with Some days => days <= 0 | None => True end).
  { intros s [<- | [<- | []]]; cbn; [exact I | lia]. }
  exact (f_equal emitted
    (no_positive_retention_deletes_nothing (Fixture.volume "v1") "cid"
       Scenario.march_first Fixture.alerting (Scenario.env Fixture.untagged)
       [] Deletionsnappy.initial_globals _ Hin Hl Hall)).
Defined.

(** ** What a deletion run never deletes *)

Lemma listed_app_l (a b : list Event) afs s :
  listed a afs s -> listed (a ++ b) afs s.
Proof.
  intros (l & Hin & Ht & Hs). exists l.
  split; [apply in_or_app; left; exact Hin | split; assumption].
Qed.

Lemma listed_app_r (a b : list Event) afs s :
  listed b afs s -> listed (a ++ b) afs s.
Proof.
  intros (l & Hin & Ht & Hs). exists l.
  split; [apply in_or_app; right; exact Hin | split; assumption].
Qed.

Lemma closed_deletes_only_listed : closed deletes_only_listed.
Proof.
  split.
  - intros afs s reply [].
  - intros a b Ha Hb afs s reply Hin.
    apply in_app_or in Hin. destruct Hin as [Hin | Hin].
    + apply listed_app_l. exact (Ha afs s reply Hin).
    + apply listed_app_r. exact (Hb afs s reply Hin).
Qed.

Lemma quiet_deletes_only_listed (tr : list Event) :
  Forall (fun e => is_call is_DeleteSnapshot e = false) tr ->
  deletes_only_listed tr.
Proof.
  intros Hq afs s reply Hin. exfalso. revert Hin.
  apply quiet_not_in with (1 := Hq). reflexivity.
Qed.

Lemma delete_snapshots_in_afs_only_listed afs_manager cid now alerting :
  always deletes_only_listed
    (Deletionsnappy.__delete_snapshots_in_afs afs_manager cid now alerting).
Proof.
  intros E h g.
  destruct (delete_snapshots_in_afs_cases afs_manager cid now alerting E h g)
    as [(text & Hr) | [(l & _ & Hr) | (l & d & Hl & _ & Hr & Ht & _)]];
    cbv zeta in Hr; rewrite Hr; cbn [emitted].
  - apply quiet_deletes_only_listed. repeat constructor.
  - apply quiet_deletes_only_listed. repeat constructor.
  - intros afs s reply Hin. in_cases Hin.
    unfold targets in Ht. rewrite Forall_forall in Ht.
    apply Ht in Hin. destruct Hin as [-> Hs].
    exists l. split; [right; left; reflexivity | split; assumption].
Qed.

(** X7: a deletion run never asks the backend to delete a snapshot that it
    was not shown: every [delete_snapshot] call of a run is on a snapshot
    contained in a listing that [get_snapshots] returned, in the same run
    and for the same volume, with a [total] of at least 1. *)
Theorem deletion_run_deletes_only_listed_snapshots E cfg :
  deletes_only_listed (emitted (Deletionsnappy.run E cfg)).
Proof.
  unfold Deletionsnappy.run.
  assert (H : always deletes_only_listed (Deletionsnappy.main cfg)).
  { always_gen ltac:(apply closed_deletes_only_listed)
               ltac:(apply quiet_deletes_only_listed; forall_event)
               ltac:(apply delete_snapshots_in_afs_only_listed). }
  apply H.
Qed.

(** ** Counting over the loop on the volumes *)

Section LoopCount.
Context {G A : Type}.
Variable w : list Event -> Z.
Hypothesis w_nil : w [] = 0.
Hypothesis w_app : forall a b, w (a ++ b) = w a + w b.
Variable body : A -> M G unit.

(** What each completed or skipped iteration weighs, the completed loop
    weighs once per element. *)
Lemma for_each_exact (k : Z) (l : list A) :
  (forall x E h g,
     out (body x E h g) = Ret tt \/ out (body x E h g) = Raise LoopContinue ->
     w (emitted (body x E h g)) = k) ->
  forall E h g,
    out (for_each l body E h g) = Ret tt ->
    w (emitted (for_each l body E h g)) = k * Z.of_nat (List.length l).
Proof.
  intros Hb. induction l as [| x l IH]; intros E h g Hout.
  - cbn. rewrite w_nil. lia.
  - cbn [for_each] in Hout |- *.
    specialize (Hb x E h g).
    destruct (body x E h g) as [o d g1]. cbn [out emitted] in Hb.
    specialize (IH E (h ++ d) g1).
    destruct (for_each l body E (h ++ d) g1) as [o' d' g2].
    cbn [out emitted] in IH.
    destruct o as [[] | [ex | code |]]; cbn [out emitted] in Hout |- *;
      try discriminate Hout.
    + rewrite w_app, IH, Hb by (assumption || (left; reflexivity)).
      cbn [List.length]. lia.
    + rewrite w_app, IH, Hb by (assumption || (right; reflexivity)).
      cbn [List.length]. lia.
Qed.

(** A bound on each iteration bounds the loop, however it ends. *)
Lemma for_each_bound (k : Z) (l : list A) :
  0 <= k ->
  (forall x E h g, w (emitted (body x E h g)) <= k) ->
  forall E h g,
    w (emitted (for_each l body E h g)) <= k * Z.of_nat (List.length l).
Proof.
  intros Hk Hb. induction l as [| x l IH]; intros E h g.
  - cbn. rewrite w_nil. lia.
  - cbn [for_each].
    specialize (Hb x E h g).
    destruct (body x E h g) as [o d g1]. cbn [emitted] in Hb.
    specialize (IH E (h ++ d) g1).
    destruct (for_each l body E (h ++ d) g1) as [o' d' g2].
    cbn [emitted] in IH.
    destruct o as [[] | [ex | code |]]; cbn [emitted];
      rewrite ?w_app; cbn [List.length]; lia.
Qed.

(** The loop ends by returning or by what an iteration raised. *)
Lemma for_each_outcome (P : signal -> Prop) (l : list A) :
  (forall x E h g s, out (body x E h g) = Raise s -> s = LoopContinue \/ P s) ->
  forall E h g s, out (for_each l body E h g) = Raise s -> P s.
Proof.
  intros Hb. induction l as [| x l IH]; intros E h g s Hout.
  - discriminate Hout.
  - cbn [for_each] in Hout.
    specialize (Hb x E h g).
    destruct (body x E h g) as [o d g1]. cbn [out] in Hb.
    specialize (IH E (h ++ d) g1).
    destruct (for_each l body E (h ++ d) g1) as [o' d' g2].
    cbn [out] in IH.
    destruct o as [[] | [ex | code |]]; cbn [out] in Hout.
    + apply IH. exact Hout.
    + injection Hout as <-.
      destruct (Hb _ eq_refl) as [H | H]; [discriminate H | exact H].
    + injection Hout as <-.
      destruct (Hb _ eq_refl) as [H | H]; [discriminate H | exact H].
    + apply IH. exact Hout.
Qed.

End LoopCount.

Lemma success_names_app (a b : list Event) :
  success_names (a ++ b) = success_names a ++ success_names b.
Proof. apply flat_map_app. Qed.

Lemma success_names_quiet (tr : list Event) :
  Forall (fun e => is_alert SUCCESS e = false) tr -> success_names tr = [].
Proof.
  unfold success_names.
  induction 1 as [| e tr He _ IH]; [reflexivity |].
  cbn [flat_map]. rewrite IH.
  destruct e as [| | a [] t m [n |] |]; try reflexivity; discriminate He.
Qed.

Lemma flat_map_singleton {X} (l : list X) : flat_map (fun x => [x]) l = l.
Proof. induction l as [| x l IH]; [reflexivity |]. cbn. now rewrite IH. Qed.


Section LoopCollect.
Context {G A B : Type}.
Variable f : list Event -> list B.
Hypothesis f_nil : f [] = [].
Hypothesis f_app : forall a b, f (a ++ b) = f a ++ f b.
Variable body : A -> M G unit.

(** What each completed or skipped iteration contributes, the completed
    loop collects in the order of the list. *)
Lemma for_each_collect (k : A -> list B) (l : list A) :
  (forall x E h g,
     out (body x E h g) = Ret tt \/ out (body x E h g) = Raise LoopContinue ->
     f (emitted (body x E h g)) = k x) ->
  forall E h g,
    out (for_each l body E h g) = Ret tt ->
    f (emitted (for_each l body E h g)) = flat_map k l.
Proof.
  intros Hb. induction l as [| x l IH]; intros E h g Hout.
  - cbn. apply f_nil.
  - cbn [for_each] in Hout |- *.
    specialize (Hb x E h g).
    destruct (body x E h g) as [o d g1]. cbn [out emitted] in Hb.
    specialize (IH E (h ++ d) g1).
    destruct (for_each l body E (h ++ d) g1) as [o' d' g2].
    cbn [out emitted] in IH.
    destruct o as [[] | [ex | code |]]; cbn [out emitted] in Hout |- *;
      try discriminate Hout.
    + rewrite f_app, IH, Hb by (assumption || (left; reflexivity)).
      reflexivity.
    + rewrite f_app, IH, Hb by (assumption || (right; reflexivity)).
      reflexivity.
Qed.

End LoopCollect.


(** ** One volume of the deletion flow, seen from [main] *)

Section DeletionStep.
Variables (token : string) (sm : StorageManager.t) (cid : string)
  (now : datetime) (alerting : Alerting.t).

(** The two ways through the loop body of [main]: the existence check
    raised, or the volume was processed and its SUCCESS alert sent. *)
Lemma deletion_volume_step_cases afs E h g :
  let r := Deletionsnappy.volume_loop_body token sm cid now alerting afs
             E h g in
  (exists text,
     r = mk_result (Raise (Exception text))
           [EvLog INFO Separator; EvLog INFO ValidatingAfsExists;
            EvCall (ValidateAfsExists afs) (Raises text)] g) \/
  (exists d,
     out r = Ret tt /\
     emitted r
     = [EvLog INFO Separator; EvLog INFO ValidatingAfsExists;
        EvCall (ValidateAfsExists afs) (Returns VNone)]
       ++ d ++ [EvAlert alerting SUCCESS now None (Some afs)] /\
     Forall (fun e => is_alert SUCCESS e = false) d /\
     Forall (fun e => is_call is_ValidateAfsExists e = false) d).
Proof.
  unfold Deletionsnappy.volume_loop_body. cbv zeta. walk.
  - right. rewrite step_bind.
    match goal with
    | |- context [Deletionsnappy.__delete_snapshots_in_afs ?am ?c ?n ?a
                    ?E ?h ?g] =>
        pose proof (delete_snapshots_in_afs_run c n a am E h g) as Hrun;
        assert (Hq : quiet (is_call is_ValidateAfsExists)
                       (Deletionsnappy.__delete_snapshots_in_afs am c n a))
          by quiet_tac;
        specialize (Hq E h g);
        assert (Hs : quiet (is_alert SUCCESS)
                       (Deletionsnappy.__delete_snapshots_in_afs am c n a))
          by quiet_tac;
        specialize (Hs E h g);
        cbv zeta in Hrun;
        destruct (Deletionsnappy.__delete_snapshots_in_afs am c n a E h g)
          as [o d g1]
    end.
    cbn [out emitted globals] in Hrun, Hq, Hs |- *.
    destruct Hrun as (-> & _).
    walk. exists d. split; [reflexivity |]. split; [reflexivity |].
    split; assumption.
  - left. eexists. reflexivity.
Qed.

(** X8: in the deletion flow, once the existence check of a volume has
    returned, the volume's step of the loop always completes and ends with
    exactly one SUCCESS alert for that volume, carrying the run's start
    time: a listing that fails and deletions that fail are reported by
    their own FAIL alerts and change nothing to it. *)
Theorem deletion_volume_always_reports_success afs E h g :
  let r := Deletionsnappy.volume_loop_body token sm cid now alerting afs
             E h g in
  In (EvCall (ValidateAfsExists afs) (Returns VNone)) (emitted r) ->
  out r = Ret tt /\
  count_alerts SUCCESS (emitted r) = 1 /\
  exists before,
    emitted r = before ++ [EvAlert alerting SUCCESS now None (Some afs)].
Proof.
  cbv zeta. intros Hin.
  destruct (deletion_volume_step_cases afs E h g)
    as [(text & Hr) | (d & Hout & Hr & Hsucc & Hq)];
    cbv zeta in Hr; rewrite Hr in Hin |- *; cbn [emitted out] in Hin |- *.
  - exfalso. not_in_trace Hin.
  - split; [exact Hout |]. split.
    + cbn [app]. count_tac.
    + eexists. rewrite app_assoc. reflexivity.
Qed.

Lemma deletion_volume_step_completed afs E h g :
  let r := Deletionsnappy.volume_loop_body token sm cid now alerting afs
             E h g in
  out r = Ret tt \/ out r = Raise LoopContinue ->
  success_names (emitted r) = [afs] /\
  count_alerts SUCCESS (emitted r) = 1 /\
  count (is_call is_ValidateAfsExists) (emitted r) = 1.
Proof.
  cbv zeta. intros Hok.
  destruct (deletion_volume_step_cases afs E h g)
    as [(text & Hr) | (d & _ & Hr & Hs & Hv)]; cbv zeta in Hr.
  - rewrite Hr in Hok. destruct Hok as [Hok | Hok]; discriminate Hok.
  - rewrite Hr. split; [| split].
    + rewrite !success_names_app, (success_names_quiet d Hs). reflexivity.
    + cbn [app]. count_tac.
    + cbn [app]. count_tac. cbn [is_ValidateAfsExists]. lia.
Qed.

End DeletionStep.

Lemma deletion_volume_always_reports_success_witness :
  count_alerts FAIL
    (emitted (Deletionsnappy.volume_loop_body "token"
                Fixture.storage_manager "cid" Scenario.march_first
                Fixture.alerting "v1" (Scenario.env Fixture.stubborn) []
                Deletionsnappy.initial_globals)) = 1 /\
  count_alerts SUCCESS
    (emitted (Deletionsnappy.volume_loop_body "token"
                Fixture.storage_manager "cid" Scenario.march_first
                Fixture.alerting "v1" (Scenario.env Fixture.stubborn) []
                Deletionsnappy.initial_globals)) = 1.
Proof.
  split; [reflexivity |].
  apply (deletion_volume_always_reports_success "token"
           Fixture.storage_manager "cid" Scenario.march_first
           Fixture.alerting "v1"%string (Scenario.env Fixture.stubborn) []
           Deletionsnappy.initial_globals).
  vm_compute. in_trace.
Defined.

Section DeletionCompleted.
Variables (cfg : Config) (cid : string) (now : datetime)
  (alerting : Alerting.t).

Let main_try := Deletionsnappy.main_try cfg cid now alerting.

Lemma deletion_try_completed E h g exclude l :
  let r := main_try E h g in
  out r = Ret tt ->
  In (EvCall (GetAfsList exclude) (Returns (VAfsList l))) (emitted r) ->
  success_names (emitted r) = AfsList.afs_list l /\
  count_alerts SUCCESS (emitted r)
  = Z.of_nat (List.length (AfsList.afs_list l)) /\
  count (is_call is_ValidateAfsExists) (emitted r)
  = Z.of_nat (List.length (AfsList.afs_list l)).
Proof.
  subst main_try. cbv zeta. unfold Deletionsnappy.main_try. walk.
  all: try solve [intros Hout; discriminate Hout].
  rewrite step_bind.
  match goal with
  | |- context [for_each ?l (Deletionsnappy.volume_loop_body ?t ?sm ?c ?n ?a)
                  ?E ?h ?g] =>
      pose proof (for_each_collect success_names eq_refl success_names_app
                    (Deletionsnappy.volume_loop_body t sm c n a)
                    (fun x => [x]) l
                    (fun x E0 h0 g0 H =>
                       proj1 (deletion_volume_step_completed t sm c n a x
                                E0 h0 g0 H))
                    E h g) as Hnames;
      pose proof (for_each_exact (count_alerts SUCCESS) eq_refl
                    (count_app (is_alert SUCCESS))
                    (Deletionsnappy.volume_loop_body t sm c n a) 1 l
                    (fun x E0 h0 g0 H =>
                       proj1 (proj2 (deletion_volume_step_completed t sm c n
                                       a x E0 h0 g0 H)))
                    E h g) as Hsucc;
      pose proof (for_each_exact (count (is_call is_ValidateAfsExists))
                    eq_refl (count_app (is_call is_ValidateAfsExists))
                    (Deletionsnappy.volume_loop_body t sm c n a) 1 l
                    (fun x E0 h0 g0 H =>
                       proj2 (proj2 (deletion_volume_step_completed t sm c n
                                       a x E0 h0 g0 H)))
                    E h g) as Hcheck;
      assert (Hq : quiet (is_call is_GetAfsList)
                     (for_each l (Deletionsnappy.volume_loop_body t sm c n a)))
        by quiet_tac;
      specialize (Hq E h g);
      destruct (for_each l (Deletionsnappy.volume_loop_body t sm c n a) E h g)
        as [o d g1]
  end.
  cbn [out emitted globals] in *.
  destruct o as [[] | s]; walk; [| intros Hout; discriminate Hout].
  intros _ Hin. in_cases Hin. injection Hin as <- <-.
  rewrite flat_map_singleton in Hnames.
  specialize (Hnames eq_refl). specialize (Hsucc eq_refl).
  specialize (Hcheck eq_refl).
  split; [| split].
  - change (?a :: ?b :: ?c :: ?x :: ?y :: ?z :: ?u :: ?v :: d ++ ?t)
      with ([a; b; c; x; y; z; u; v] ++ d ++ t).
    rewrite !success_names_app, Hnames. cbn. apply app_nil_r.
  - unfold count_alerts in *. count_tac.
  - count_tac. cbn [is_ValidateAfsExists]. lia.
Qed.

End DeletionCompleted.

(** X9: a deletion run that completes has checked every volume of the
    listing once and has sent one SUCCESS alert for each, in the order of
    the listing: the names carried by the SUCCESS alerts are the listed
    names. *)
Theorem completed_deletion_run_reports_each_volume E cfg exclude l :
  let r := Deletionsnappy.run E cfg in
  out r = Ret tt ->
  In (EvCall (GetAfsList exclude) (Returns (VAfsList l))) (emitted r) ->
  success_names (emitted r) = AfsList.afs_list l /\
  count_alerts SUCCESS (emitted r)
  = Z.of_nat (List.length (AfsList.afs_list l)) /\
  count (is_call is_ValidateAfsExists) (emitted r)
  = Z.of_nat (List.length (AfsList.afs_list l)).
Proof.
  cbv zeta. intros Hout Hin.
  destruct (deletion_run_shape E cfg)
    as (startup & Hst
        & [(t & g0 & _ & Hrun) | (cid & al & g0 & _ & Hcases)]).
  { rewrite Hrun in Hout. discriminate Hout. }
  cbv zeta in Hcases.
  destruct Hcases as [(ex & report & _ & _ & Hr) | (_ & Hr)];
    rewrite Hr in Hout, Hin |- *; cbn [out emitted prepend] in Hout, Hin |- *;
    [discriminate Hout |].
  assert (Hs1 := startup_quiet (is_call is_GetAfsList) startup
                   ltac:(startup_side) Hst).
  assert (Hs2 := startup_quiet (is_alert SUCCESS) startup
                   ltac:(startup_side) Hst).
  assert (Hs3 := startup_quiet (is_call is_ValidateAfsExists) startup
                   ltac:(startup_side) Hst).
  in_cases Hin.
  destruct (deletion_try_completed cfg cid (run_start_time E) al E startup g0
              exclude l Hout Hin) as (Hnames & Hsucc & Hcheck).
  split; [| split].
  - rewrite success_names_app, (success_names_quiet startup Hs2). exact Hnames.
  - unfold count_alerts in *. rewrite count_app, (count_quiet _ _ Hs2).
    exact Hsucc.
  - rewrite count_app, (count_quiet _ _ Hs3). exact Hcheck.
Qed.

Lemma completed_deletion_run_reports_each_volume_witness :
  success_names
    (emitted (Deletionsnappy.run (Scenario.env Scenario.twin_snapshots)
                Scenario.config))
  = ["v1"; "v2"]%string.
Proof.
  assert (Hout :
    out (Deletionsnappy.run (Scenario.env Scenario.twin_snapshots)
           Scenario.config) = Ret tt) by reflexivity.
  assert (Hin :
    In (EvCall (GetAfsList "")
          (Returns (VAfsList (AfsList.mk 2 ["v1"; "v2"]%string))))
       (emitted (Deletionsnappy.run (Scenario.env Scenario.twin_snapshots)
                   Scenario.config))).
  { vm_compute. in_trace. }
  exact (proj1 (completed_deletion_run_reports_each_volume
                  (Scenario.env Scenario.twin_snapshots) Scenario.config
                  ""%string (AfsList.mk 2 ["v1"; "v2"]%string) Hout Hin)).
Defined.

(** ** One volume of the creation flow *)

Section CreateGuard.
Variable cfg : Config.
Variables (afs_manager : AFSManager.t) (cid : string) (now : datetime)
  (alerting : Alerting.t) (adhoc : bool).

(** X10: [__create_afs_snapshot] never raises and reports what failed.
    When the snapshot-limit validation raises, [create_snapshot] is not
    called: the procedure sends one FAIL alert and one warning naming the
    volume, the exception and the correlation id, and returns with the
    globals as they were.  When [create_snapshot] itself raises, the
    counter is not moved and the failure is reported in the same way. *)
Theorem creation_failures_are_reported_and_skipped E h g :
  let r := Backupsnappy.__create_afs_snapshot cfg afs_manager cid now
             alerting adhoc E h g in
  let afs := AFSManager.afs_name afs_manager in
  let skipping text :=
    ("Skipping create snapshot in: '" ++ afs ++ "' due to exception: " ++ text
     ++ " - correlation_id=" ++ cid)%string in
  (forall text,
     In (EvCall (ValidateAfsSnapshotsStorageLimit afs
                   Backupsnappy.AFS_TOTAL_SNAPSHOTS_LIMIT) (Raises text))
        (emitted r) ->
     r = mk_result (Ret tt)
           [EvLog INFO (ValidatingSnapshotLimit
                          Backupsnappy.AFS_TOTAL_SNAPSHOTS_LIMIT afs);
            EvCall (ValidateAfsSnapshotsStorageLimit afs
                      Backupsnappy.AFS_TOTAL_SNAPSHOTS_LIMIT) (Raises text);
            EvAlert alerting FAIL now (Some (skipping text)) None;
            EvLog WARNING (Text (skipping text))] g) /\
  (forall text,
     In (EvCall (CreateSnapshot afs (Backupsnappy.retention_days cfg) adhoc)
                (Raises text)) (emitted r) ->
     out r = Ret tt /\ globals r = g /\
     count_alerts FAIL (emitted r) = 1 /\
     In (EvAlert alerting FAIL now (Some (skipping text)) None) (emitted r) /\
     In (EvLog WARNING (Text (skipping text))) (emitted r)).
Proof.
  unfold Backupsnappy.__create_afs_snapshot. run.
  - split; intros text Hin; exfalso; not_in_trace Hin.
  - split; intros text0 Hin; not_in_trace Hin.
    injection Hin as ->.
    split; [reflexivity |]. split; [reflexivity |].
    split; [reflexivity |]. split; in_trace.
  - split; intros text0 Hin; not_in_trace Hin.
    injection Hin as ->. reflexivity.
Qed.

(** What the creation procedure adds to a trace, for the loop of [main]. *)
Lemma create_afs_snapshot_account E h g :
  let r := Backupsnappy.__create_afs_snapshot cfg afs_manager cid now
             alerting adhoc E h g in
  let afs := AFSManager.afs_name afs_manager in
  out r = Ret tt /\
  count (is_call is_CreateSnapshot) (emitted r) <= 1 /\
  count (is_call is_creation_call) (emitted r) <= 2 /\
  Forall (fun e => is_alert SUCCESS e = false) (emitted r) /\
  Forall (fun e => is_skipped_today e = false) (emitted r).
Proof.
  unfold Backupsnappy.__create_afs_snapshot. run.
  all: split; [reflexivity |].
  all: split; [cbn; lia |].
  all: split; [cbn; lia |].
  all: split; cbn [app]; repeat constructor.
Qed.

End CreateGuard.

Lemma creation_failures_are_reported_and_skipped_witness :
  Backupsnappy.__create_afs_snapshot Scenario.config (Fixture.volume "v1")
    "cid" Scenario.march_first Fixture.alerting false
    (Scenario.env Scenario.limit_then_healthy) []
    (Backupsnappy.initial_globals Scenario.config)
  = mk_result (Ret tt)
      [EvLog INFO (ValidatingSnapshotLimit 200 "v1");
       EvCall (ValidateAfsSnapshotsStorageLimit "v1" 200)
         (Raises "SnapshotLimitExceeded");
       EvAlert Fixture.alerting FAIL Scenario.march_first
         (Some "Skipping create snapshot in: 'v1' due to exception: SnapshotLimitExceeded - correlation_id=cid"%string)
         None;
       EvLog WARNING
         (Text "Skipping create snapshot in: 'v1' due to exception: SnapshotLimitExceeded - correlation_id=cid")]
      (Backupsnappy.initial_globals Scenario.config).
Proof.
  apply (proj1 (creation_failures_are_reported_and_skipped Scenario.config
                  (Fixture.volume "v1") "cid" Scenario.march_first
                  Fixture.alerting false
                  (Scenario.env Scenario.limit_then_healthy) []
                  (Backupsnappy.initial_globals Scenario.config))
           "SnapshotLimitExceeded"%string).
  vm_compute. in_trace.
Defined.

Section BackupStep.
Variables (cfg : Config) (token : string) (sm : StorageManager.t)
  (cid : string) (now : datetime) (alerting : Alerting.t).

Let body := Backupsnappy.volume_loop_body cfg token sm cid now alerting.

(** One iteration of the loop of [main]: how it can end and what it adds
    to the trace. *)
Lemma backup_volume_step_account afs E h g :
  let r := body afs E h g in
  (forall s, out r = Raise s ->
             s = LoopContinue \/ exists text, s = Exception text) /\
  count (is_call is_CreateSnapshot) (emitted r) <= 1 /\
  count_alerts SUCCESS (emitted r) <= 1 /\
  count (is_call is_ValidateAfsExists) (emitted r) = 1 /\
  Forall (fun e => is_call is_GetAfsList e = false) (emitted r) /\
  (out r = Ret tt ->
   count_alerts SUCCESS (emitted r) = 1 /\
   count is_skipped_today (emitted r) = 0) /\
  (out r = Raise LoopContinue ->
   count_alerts SUCCESS (emitted r) = 0 /\
   count is_skipped_today (emitted r) = 1 /\
   count (is_call is_creation_call) (emitted r) = 0).
Proof.
  subst body. unfold Backupsnappy.volume_loop_body. cbv zeta. walk.
  all: try (rewrite step_bind;
    match goal with
    | |- context [Backupsnappy.__create_afs_snapshot ?c ?am ?ci ?n ?a ?ad
                    ?E ?h ?g] =>
        pose proof (create_afs_snapshot_account c am ci n a ad E h g) as Hrun;
        assert (Hq1 : quiet (is_call is_ValidateAfsExists)
                        (Backupsnappy.__create_afs_snapshot c am ci n a ad))
          by quiet_tac;
        specialize (Hq1 E h g);
        assert (Hq2 : quiet (is_call is_GetAfsList)
                        (Backupsnappy.__create_afs_snapshot c am ci n a ad))
          by quiet_tac;
        specialize (Hq2 E h g);
        cbv zeta in Hrun;
        destruct (Backupsnappy.__create_afs_snapshot c am ci n a ad E h g)
          as [o d g1]
    end;
    cbn [out emitted globals] in Hrun, Hq1, Hq2 |- *;
    destruct Hrun as (-> & Hcreate & _ & Hsucc & Hskip);
    walk).
  all: split;
    [intros s Hs; first [discriminate Hs
                        | injection Hs as <-; left; reflexivity
                        | injection Hs as <-; right; eexists; reflexivity] |].
  all: split; [count_tac; cbn [is_CreateSnapshot]; lia |].
  all: split; [count_tac |].
  all: split; [count_tac; cbn [is_ValidateAfsExists]; lia |].
  all: split; [forall_tac |].
  all: split; intros Hout; try discriminate Hout.
  all: split; [count_tac |].
  all: try (split; [| count_tac; cbn [is_creation_call]; lia]).
  all: count_tac; cbn [is_skipped_today]; lia.
Qed.

End BackupStep.

(** ** The loop of the creation flow, volume by volume *)

Lemma reported_or_skipped_app (a b : list Event) :
  reported_or_skipped (a ++ b) = reported_or_skipped a + reported_or_skipped b.
Proof.
  unfold reported_or_skipped, count_alerts. rewrite !count_app. lia.
Qed.

Lemma count_le_count (p q : Event -> bool) (tr : list Event) :
  (forall e, p e = true -> q e = true) -> count p tr <= count q tr.
Proof.
  intros Hpq. induction tr as [| e tr IH]; [reflexivity |].
  rewrite !count_cons. specialize (Hpq e).
  destruct (p e); destruct (q e); try lia; discriminate (Hpq eq_refl).
Qed.

Section BackupLoop.
Variables (cfg : Config) (cid : string) (now : datetime)
  (alerting : Alerting.t).

Let main_try := Backupsnappy.main_try cfg cid now alerting.

Lemma backup_loop_account token sm l E h g :
  let r := for_each l
             (Backupsnappy.volume_loop_body cfg token sm cid now alerting)
             E h g in
  let n := Z.of_nat (List.length l) in
  count (is_call is_CreateSnapshot) (emitted r) <= n /\
  count_alerts SUCCESS (emitted r) <= n /\
  Forall (fun e => is_call is_GetAfsList e = false) (emitted r) /\
  (out r = Ret tt ->
   reported_or_skipped (emitted r) = n /\
   count (is_call is_ValidateAfsExists) (emitted r) = n).
Proof.
  cbv zeta.
  set (body := Backupsnappy.volume_loop_body cfg token sm cid now alerting).
  assert (Hstep := backup_volume_step_account cfg token sm cid now alerting).
  cbv zeta in Hstep. fold body in Hstep.
  split; [| split; [| split; [| intros Hout; split]]].
  - replace (Z.of_nat (List.length l)) with (1 * Z.of_nat (List.length l))
      by lia.
    apply (for_each_bound (count (is_call is_CreateSnapshot)) eq_refl
             (count_app _)); [lia |].
    intros x E0 h0 g0. apply Hstep.
  - replace (Z.of_nat (List.length l)) with (1 * Z.of_nat (List.length l))
      by lia.
    apply (for_each_bound (count_alerts SUCCESS) eq_refl (count_app _));
      [lia |].
    intros x E0 h0 g0. apply Hstep.
  - assert (Hq : quiet (is_call is_GetAfsList) (for_each l body)).
    { unfold quiet. apply always_for_each; [apply closed_Forall |].
      intros x E0 h0 g0. apply Hstep. }
    apply Hq.
  - replace (Z.of_nat (List.length l)) with (1 * Z.of_nat (List.length l))
      by lia.
    apply (for_each_exact reported_or_skipped eq_refl reported_or_skipped_app);
      [| exact Hout].
    intros x E0 h0 g0 Hok.
    destruct (Hstep x E0 h0 g0) as (_ & _ & _ & _ & _ & Hret & Hcont).
    unfold reported_or_skipped.
    destruct Hok as [Hok | Hok].
    + destruct (Hret Hok) as [-> ->]. reflexivity.
    + destruct (Hcont Hok) as (-> & -> & _). reflexivity.
  - replace (Z.of_nat (List.length l)) with (1 * Z.of_nat (List.length l))
      by lia.
    apply (for_each_exact (count (is_call is_ValidateAfsExists)) eq_refl
             (count_app _)); [| exact Hout].
    intros x E0 h0 g0 _. apply Hstep.
Qed.

Lemma backup_try_account E h g exclude l :
  let r := main_try E h g in
  let n := Z.of_nat (List.length (AfsList.afs_list l)) in
  In (EvCall (GetAfsList exclude) (Returns (VAfsList l))) (emitted r) ->
  count (is_call is_CreateSnapshot) (emitted r) <= n /\
  count_alerts SUCCESS (emitted r) <= n /\
  (out r = Ret tt ->
   reported_or_skipped (emitted r) = n /\
   count (is_call is_ValidateAfsExists) (emitted r) = n).
Proof.
  subst main_try. cbv zeta. unfold Backupsnappy.main_try. walk.
  all: try solve [intros Hin; exfalso; not_in_trace Hin].
  all: rewrite step_bind;
    match goal with
    | |- context [out (Backupsnappy.__enable_softdelete_in_file_share
                         ?sm ?c ?n ?a ?E ?h ?g)] =>
        pose proof (softdelete_run sm c n a E h g) as Hsoft;
        cbv zeta in Hsoft;
        assert (Hq1 : quiet (is_call is_GetAfsList)
                  (Backupsnappy.__enable_softdelete_in_file_share sm c n a))
          by quiet_tac;
        specialize (Hq1 E h g);
        assert (Hq2 : quiet (is_call is_CreateSnapshot)
                  (Backupsnappy.__enable_softdelete_in_file_share sm c n a))
          by quiet_tac;
        specialize (Hq2 E h g);
        assert (Hq3 : quiet (is_alert SUCCESS)
                  (Backupsnappy.__enable_softdelete_in_file_share sm c n a))
          by quiet_tac;
        specialize (Hq3 E h g);
        assert (Hq4 : quiet is_skipped_today
                  (Backupsnappy.__enable_softdelete_in_file_share sm c n a))
          by quiet_tac;
        specialize (Hq4 E h g);
        assert (Hq5 : quiet (is_call is_ValidateAfsExists)
                  (Backupsnappy.__enable_softdelete_in_file_share sm c n a))
          by quiet_tac;
        specialize (Hq5 E h g);
        destruct (Backupsnappy.__enable_softdelete_in_file_share sm c n a
                    E h g) as [o0 d0 g0]
    end;
    cbn [out emitted globals] in *;
    destruct Hsoft as (-> & -> & _); walk.
  all: try (rewrite step_bind;
    match goal with
    | |- context [for_each ?l (Backupsnappy.volume_loop_body ?c ?t ?sm ?ci ?n
                                 ?a) ?E ?h ?g] =>
        pose proof (backup_loop_account t sm l E h g) as Hloop;
        cbv zeta in Hloop;
        destruct (for_each l (Backupsnappy.volume_loop_body c t sm ci n a)
                    E h g) as [o d g1]
    end;
    cbn [out emitted globals] in *;
    destruct Hloop as (Hcreate & Hsucc & Hlist & Hdone);
    destruct o as [[] | s]; walk).
  all: intros Hin; in_cases Hin.
  all: try (injection Hin as <- <-).
  all: split; [count_tac; cbn [is_CreateSnapshot]; lia |].
  all: split; [count_tac |].
  all: intros Hout; try discriminate Hout.
  all: destruct (Hdone eq_refl) as [Hrs Hvae].
  all: unfold reported_or_skipped in *; split;
    [count_tac; cbn [is_skipped_today]; lia
    | count_tac; cbn [is_ValidateAfsExists]; lia].
Qed.

End BackupLoop.

Section ShapeCompleted.
Context {G : Type}.
Variables (r tried : result G unit) (startup : list Event).
Hypothesis Hcases :
  (exists ex report,
     out tried = Raise (Exception ex) /\ is_fatal_report ex report /\
     r = mk_result (Raise (SystemExit 1)) (startup ++ emitted tried ++ report)
                   (globals tried)) \/
  ((forall ex, out tried <> Raise (Exception ex)) /\
   r = prepend startup tried).

(** A run that returned is its [try] block that returned. *)
Lemma shape_completed : out r = Ret tt -> out tried = Ret tt.
Proof.
  destruct Hcases as [(ex & report & _ & _ & ->) | (_ & ->)]; cbn.
  - discriminate.
  - auto.
Qed.

End ShapeCompleted.

(** X11: a creation run asks for at most one snapshot per volume of the
    listing: the [create_snapshot] calls, the snapshots counted as created
    and the SUCCESS alerts of a run each number at most the listed
    volumes, however the run ends. *)
Theorem creation_run_at_most_one_snapshot_per_volume E cfg exclude l :
  let r := Backupsnappy.run E cfg in
  let n := Z.of_nat (List.length (AfsList.afs_list l)) in
  In (EvCall (GetAfsList exclude) (Returns (VAfsList l))) (emitted r) ->
  count (is_call is_CreateSnapshot) (emitted r) <= n /\
  Backupsnappy.snapshots_created (globals r) <= n /\
  count_alerts SUCCESS (emitted r) <= n.
Proof.
  cbv zeta. intros Hin.
  destruct (backup_run_shape E cfg)
    as (startup & Hst
        & [(t & g0 & _ & Hrun) | (cid & now & al & g0 & Hzero & Hcases)]).
  { exfalso. rewrite Hrun in Hin. cbn [emitted] in Hin.
    rewrite Forall_forall in Hst. apply Hst in Hin. discriminate Hin. }
  cbv zeta in Hcases.
  apply (shape_call _ _ _ Hst Hcases) in Hin; [| reflexivity].
  destruct (backup_try_account cfg cid now al E startup g0 exclude l Hin)
    as (Hcreate & Hsucc & _).
  rewrite (shape_globals _ _ _ Hcases).
  rewrite (backup_tracks cfg cid now al E startup g0), Hzero.
  rewrite (shape_count _ _ _ Hst Hcases (is_call is_CreateSnapshot))
    by (startup_side || (intros; repeat split)).
  unfold count_alerts in *.
  rewrite (shape_count _ _ _ Hst Hcases (is_alert SUCCESS))
    by (startup_side || (intros; repeat split)).
  split; [exact Hcreate |]. split; [| exact Hsucc].
  pose proof (count_le_count created_ok (is_call is_CreateSnapshot)
                (emitted (Backupsnappy.main_try cfg cid now al E startup g0)))
    as Hle.
  assert (Himp : forall e, created_ok e = true ->
                           is_call is_CreateSnapshot e = true).
  { intros [[] [] | | |]; cbn; congruence. }
  specialize (Hle Himp). lia.
Qed.

(** X12: a creation run that completes has checked every volume of the
    listing once and has settled each of them: the SUCCESS alerts and the
    lines that skip a volume already snapshotted today number, together,
    the listed volumes. *)
Theorem completed_creation_run_settles_each_volume E cfg exclude l :
  let r := Backupsnappy.run E cfg in
  let n := Z.of_nat (List.length (AfsList.afs_list l)) in
  out r = Ret tt ->
  In (EvCall (GetAfsList exclude) (Returns (VAfsList l))) (emitted r) ->
  count_alerts SUCCESS (emitted r) + count is_skipped_today (emitted r) = n /\
  count (is_call is_ValidateAfsExists) (emitted r) = n.
Proof.
  cbv zeta. intros Hout Hin.
  destruct (backup_run_shape E cfg)
    as (startup & Hst
        & [(t & g0 & _ & Hrun) | (cid & now & al & g0 & Hzero & Hcases)]).
  { rewrite Hrun in Hout. discriminate Hout. }
  cbv zeta in Hcases.
  apply (shape_call _ _ _ Hst Hcases) in Hin; [| reflexivity].
  apply (shape_completed _ _ _ Hcases) in Hout.
  destruct (backup_try_account cfg cid now al E startup g0 exclude l Hin)
    as (_ & _ & Hdone).
  destruct (Hdone Hout) as [Hrs Hvae].
  unfold reported_or_skipped, count_alerts in *.
  rewrite (shape_count _ _ _ Hst Hcases (is_alert SUCCESS))
    by (startup_side || (intros; repeat split)).
  rewrite (shape_count _ _ _ Hst Hcases is_skipped_today)
    by (startup_side || (intros; repeat split)).
  rewrite (shape_count _ _ _ Hst Hcases (is_call is_ValidateAfsExists))
    by (startup_side || (intros; repeat split)).
  split; assumption.
Qed.

Lemma creation_run_at_most_one_snapshot_per_volume_witness :
  Backupsnappy.snapshots_created
    (globals (Backupsnappy.run (Scenario.env Scenario.limit_then_healthy)
                Scenario.config)) <= 2.
Proof.
  assert (Hin :
    In (EvCall (GetAfsList "")
          (Returns (VAfsList (AfsList.mk 2 ["v1"; "v2"]%string))))
       (emitted (Backupsnappy.run (Scenario.env Scenario.limit_then_healthy)
                   Scenario.config))).
  { vm_compute. in_trace. }
  exact (proj1 (proj2 (creation_run_at_most_one_snapshot_per_volume
                         (Scenario.env Scenario.limit_then_healthy)
                         Scenario.config ""%string
                         (AfsList.mk 2 ["v1"; "v2"]%string) Hin))).
Defined.

Lemma completed_creation_run_settles_each_volume_witness :
  count_alerts SUCCESS
    (emitted (Backupsnappy.run (Scenario.env Scenario.snapshotted_today)
                Scenario.config))
  + count is_skipped_today
      (emitted (Backupsnappy.run (Scenario.env Scenario.snapshotted_today)
                  Scenario.config)) = 1.
Proof.
  assert (Hout :
    out (Backupsnappy.run (Scenario.env Scenario.snapshotted_today)
           Scenario.config) = Ret tt) by reflexivity.
  assert (Hin :
    In (EvCall (GetAfsList "")
          (Returns (VAfsList (AfsList.mk 1 ["v1"%string]))))
       (emitted (Backupsnappy.run (Scenario.env Scenario.snapshotted_today)
                   Scenario.config))).
  { vm_compute. in_trace. }
  exact (proj1 (completed_creation_run_settles_each_volume
                  (Scenario.env Scenario.snapshotted_today) Scenario.config
                  ""%string (AfsList.mk 1 ["v1"%string]) Hout Hin)).
Defined.

(** ** The retention days are validated before anything else *)

Section RetentionFirst.
Variables (cfg : Config) (cid : string) (now : datetime)
  (alerting : Alerting.t).

Let main_try := Backupsnappy.main_try cfg cid now alerting.
Let retention := Backupsnappy.retention_days cfg.
Let numeric := ValidateIsNumeric retention "RetentionDays".

Lemma backup_try_validates_first E h g :
  let r := main_try E h g in
  (forall c reply,
     reaches_backend c = true -> In (EvCall c reply) (emitted r) ->
     In (EvCall numeric (Returns VNone)) (emitted r) /\
     (Backupsnappy.is_adhoc_backup cfg = true ->
      Backupsnappy.__validate_allowed_adhoc_backup_retention_days (env_int E)
        retention = Ret tt)) /\
  (forall value label text,
     In (EvCall (ValidateIsNumeric value label) (Raises text)) (emitted r) ->
     value = retention /\ label = "RetentionDays"%string /\
     out r = Raise (Exception text) /\
     emitted r = [EvCall numeric (Raises text)]) /\
  (forall s,
     Backupsnappy.is_adhoc_backup cfg = true ->
     Backupsnappy.__validate_allowed_adhoc_backup_retention_days (env_int E)
       retention = Raise s ->
     In (EvCall numeric (Returns VNone)) (emitted r) ->
     out r = Raise s /\ emitted r = [EvCall numeric (Returns VNone)]).
Proof.
  subst main_try retention numeric. cbv zeta.
  unfold Backupsnappy.main_try, validate_is_numeric.
  rewrite step_call. destruct_reply.
  2:{ cbn [out emitted].
      split; [intros c reply Hc Hin; exfalso; not_in_trace Hin;
              injection Hin as <- _; discriminate Hc |].
      split; [| intros s _ _ Hin; exfalso; not_in_trace Hin].
      intros value label text0 Hin. not_in_trace Hin.
      injection Hin as <- <- <-. repeat split; reflexivity. }
  destruct (Backupsnappy.is_adhoc_backup cfg) eqn:Hadhoc.
  - rewrite step_builtin. cbv beta.
    destruct (Backupsnappy.__validate_allowed_adhoc_backup_retention_days
                (env_int E) (Backupsnappy.retention_days cfg))
      as [[] | s] eqn:Hval.
    + continuation_quiet (is_call is_ValidateIsNumeric).
      split; [intros c reply _ _; split; [left; reflexivity | reflexivity] |].
      split; [| intros s _ Hs; discriminate Hs].
      intros value label text Hin. exfalso. in_cases Hin.
    + cbn [prepend out emitted app].
      split; [intros c reply Hc Hin; exfalso; not_in_trace Hin;
              injection Hin as <- _; discriminate Hc |].
      split; [intros value label text Hin; exfalso; not_in_trace Hin |].
      intros s0 _ Hs _. injection Hs as <-. split; reflexivity.
  - rewrite step_ret.
    continuation_quiet (is_call is_ValidateIsNumeric).
    split; [intros c reply _ _; split; [left; reflexivity | discriminate] |].
    split; [| intros s Hs; discriminate Hs].
    intros value label text Hin. exfalso. in_cases Hin.
Qed.

End RetentionFirst.

Lemma validate_allowed_inv (int : string -> reply Z) (rdays : string) :
  Backupsnappy.__validate_allowed_adhoc_backup_retention_days int rdays
  = Ret tt ->
  exists z,
    int rdays = Returns z /\
    In z Backupsnappy.allowed_adhoc_backup_retention_days_list.
Proof.
  unfold Backupsnappy.__validate_allowed_adhoc_backup_retention_days.
  destruct (int rdays) as [z | s]; [| discriminate].
  destruct (Backupsnappy.contains z
              Backupsnappy.allowed_adhoc_backup_retention_days_list) eqn:Hc;
    cbn [negb]; [| discriminate].
  intros _. exists z. split; [reflexivity |]. apply contains_In. exact Hc.
Qed.

(** X13: a creation run reaches the credential service and the storage
    backend only after the retention days have passed validation: every
    such call of a run comes after a numeric check that returned and, in
    ad-hoc mode, with a retention value that the runtime's [int] reads as
    one of the allowed values.  A numeric check that raises, or an ad-hoc
    value on which the validation raises, ends the run with status 1 and
    exactly one FAIL alert, and no such call is made. *)
Theorem retention_is_validated_before_any_access E cfg :
  let r := Backupsnappy.run E cfg in
  let retention := Backupsnappy.retention_days cfg in
  let numeric := ValidateIsNumeric retention "RetentionDays" in
  (forall c reply,
     reaches_backend c = true -> In (EvCall c reply) (emitted r) ->
     In (EvCall numeric (Returns VNone)) (emitted r) /\
     (Backupsnappy.is_adhoc_backup cfg = true ->
      exists z,
        env_int E retention = Returns z /\
        In z Backupsnappy.allowed_adhoc_backup_retention_days_list)) /\
  (forall value label text,
     In (EvCall (ValidateIsNumeric value label) (Raises text)) (emitted r) ->
     value = retention /\ label = "RetentionDays"%string /\
     exit_status (out r) = 1 /\
     count_alerts FAIL (emitted r) = 1 /\
     Forall (fun e => is_call reaches_backend e = false) (emitted r)) /\
  (forall text,
     Backupsnappy.is_adhoc_backup cfg = true ->
     Backupsnappy.__validate_allowed_adhoc_backup_retention_days (env_int E)
       retention = Raise (Exception text) ->
     In (EvCall numeric (Returns VNone)) (emitted r) ->
     exit_status (out r) = 1 /\
     count_alerts FAIL (emitted r) = 1 /\
     Forall (fun e => is_call reaches_backend e = false) (emitted r)).
Proof.
  cbv zeta.
  destruct (backup_run_shape E cfg)
    as (startup & Hst
        & [(t & g0 & _ & Hrun) | (cid & now & al & g0 & _ & Hcases)]).
  { rewrite Hrun. cbn [emitted]. rewrite Forall_forall in Hst.
    split; [| split].
    - intros c reply Hc Hin. apply Hst in Hin. destruct c; discriminate.
    - intros value label text Hin. apply Hst in Hin. discriminate Hin.
    - intros text _ _ Hin. apply Hst in Hin. discriminate Hin. }
  cbv zeta in Hcases.
  destruct (backup_try_validates_first cfg cid now al E startup g0)
    as (Haccess & Hnumeric & Hrefused).
  set (tried := Backupsnappy.main_try cfg cid now al E startup g0) in *.
  assert (Hs1 := startup_quiet (is_alert FAIL) startup
                   ltac:(startup_side) Hst).
  assert (Hs2 := startup_quiet (is_call reaches_backend) startup
                   ltac:(startup_side) Hst).
  split; [| split].
  - intros c reply Hc Hin.
    apply (shape_call _ _ _ Hst Hcases) in Hin;
      [| destruct c; first [discriminate Hc | reflexivity]].
    destruct (Haccess c reply Hc Hin) as [Hcheck Hallowed].
    split; [exact (shape_in _ _ _ Hcases _ Hcheck) |].
    intros Hadhoc. apply validate_allowed_inv, Hallowed, Hadhoc.
  - intros value label text Hin.
    apply (shape_call _ _ _ Hst Hcases) in Hin; [| reflexivity].
    destruct (Hnumeric value label text Hin) as (-> & -> & Hout & Hem).
    destruct (shape_raised _ _ _ Hcases text Hout)
      as (report & (a & t & m & ->) & ->).
    rewrite Hem. cbn [out emitted exit_status].
    split; [reflexivity |]. split; [reflexivity |]. split; [reflexivity |].
    split; [count_tac | forall_tac].
  - intros text Hadhoc Hval Hin.
    apply (shape_call _ _ _ Hst Hcases) in Hin; [| reflexivity].
    destruct (Hrefused _ Hadhoc Hval Hin) as (Hout & Hem).
    destruct (shape_raised _ _ _ Hcases text Hout)
      as (report & (a & t & m & ->) & ->).
    rewrite Hem. cbn [out emitted exit_status].
    split; [reflexivity |]. split; [count_tac |]. forall_tac.
Qed.

Lemma retention_is_validated_before_any_access_witness :
  exit_status
    (out (Backupsnappy.run (Scenario.env Scenario.no_volumes)
            (Scenario.adhoc_config "91"))) = 1 /\
  Forall (fun e => is_call reaches_backend e = false)
    (emitted (Backupsnappy.run (Scenario.env Scenario.no_volumes)
                (Scenario.adhoc_config "91"))).
Proof.
  assert (Hin :
    In (EvCall (ValidateIsNumeric "91" "RetentionDays") (Returns VNone))
       (emitted (Backupsnappy.run (Scenario.env Scenario.no_volumes)
                   (Scenario.adhoc_config "91")))).
  { vm_compute. in_trace. }
  destruct (proj2 (proj2 (retention_is_validated_before_any_access
                            (Scenario.env Scenario.no_volumes)
                            (Scenario.adhoc_config "91")))
              _ eq_refl eq_refl Hin) as (H1 & _ & H3).
  split; assumption.
Defined.

(** ** The soft-delete guard of the creation flow *)

(** X14: the guard asks whether soft delete is enabled and acts on the
    answer.  When the answer is yes it logs that and returns: nothing is
    enabled, no alert is sent.  When the answer is no it asks the backend
    to enable soft delete, once, with a retention of 7 days.  It never
    asks to enable soft delete without that answer. *)
Theorem softdelete_is_enabled_only_when_off sm cid now alerting E h g :
  let r := Backupsnappy.__enable_softdelete_in_file_share sm cid now alerting
             E h g in
  let storage := StorageManager.object_storage sm in
  (In (EvCall IsSoftdeleteEnabled (Returns (VBool true))) (emitted r) ->
   r = mk_result (Ret tt)
         [EvLog INFO (CheckingSoftDelete storage);
          EvCall IsSoftdeleteEnabled (Returns (VBool true));
          EvLog INFO (SoftDeleteAlreadyEnabled storage)] g) /\
  (In (EvCall IsSoftdeleteEnabled (Returns (VBool false))) (emitted r) ->
   exists reply,
     In (EvCall (EnableFileShareSoftdelete 7) reply) (emitted r)) /\
  (forall days reply,
     In (EvCall (EnableFileShareSoftdelete days) reply) (emitted r) ->
     days = 7 /\
     In (EvCall IsSoftdeleteEnabled (Returns (VBool false))) (emitted r) /\
     count (is_call is_EnableFileShareSoftdelete) (emitted r) = 1).
Proof.
  unfold Backupsnappy.__enable_softdelete_in_file_share. run_all.
  all: split;
    [intros Hin; first [reflexivity | solve [exfalso; not_in_trace Hin]] |].
  all: split; [intros Hin;
               first [solve [eexists; in_trace]
                     | solve [exfalso; not_in_trace Hin]] |].
  all: intros days reply Hin; not_in_trace Hin.
  all: injection Hin as <- _.
  all: split; [reflexivity |].
  all: split; [in_trace | reflexivity].
Qed.

Lemma softdelete_is_enabled_only_when_off_witness :
  exists reply,
    In (EvCall (EnableFileShareSoftdelete 7) reply)
       (emitted (Backupsnappy.__enable_softdelete_in_file_share
                   Fixture.storage_manager "cid" Scenario.march_first
                   Fixture.alerting
                   (Scenario.env
                      (Scenario.mk Scenario.march_first true (Returns false)
                         true []))
                   [] (Backupsnappy.initial_globals Scenario.config))).
Proof.
  apply (proj1 (proj2 (softdelete_is_enabled_only_when_off
                         Fixture.storage_manager "cid" Scenario.march_first
                         Fixture.alerting
                         (Scenario.env
                            (Scenario.mk Scenario.march_first true
                               (Returns false) true []))
                         [] (Backupsnappy.initial_globals Scenario.config)))).
  vm_compute. in_trace.
Defined.

(** ** What a creation run passes to the backend and to the alerts *)

(** X15: every snapshot a creation run asks for carries the retention days
    and the ad-hoc flag of the run, which the command line decides alone:
    with a first argument the run is ad-hoc and that argument is the
    retention, without one it is automated and the RetentionDays variable
    is.  The snapshot limit is always validated against 200, soft delete
    is always enabled with 7 days, and the listing and the customer id are
    asked with the automation variables. *)
Theorem creation_run_carries_its_parameters E cfg :
  Forall (carries_run_parameters cfg) (emitted (Backupsnappy.run E cfg)) /\
  (forall script retention rest,
     argv cfg = script :: retention :: rest ->
     Backupsnappy.retention_days cfg = retention /\
     Backupsnappy.is_adhoc_backup cfg = true) /\
  (forall script,
     argv cfg = [script] ->
     Backupsnappy.retention_days cfg = RetentionDays cfg /\
     Backupsnappy.is_adhoc_backup cfg = false).
Proof.
  split; [| split].
  - unfold Backupsnappy.run.
    assert (H : always (Forall (carries_run_parameters cfg))
                  (Backupsnappy.main cfg)).
    { always_with ltac:(constructor; [cbn; auto | constructor]). }
    apply H.
  - intros script retention rest Hargv.
    unfold Backupsnappy.retention_days, Backupsnappy.is_adhoc_backup.
    rewrite Hargv. split; reflexivity.
  - intros script Hargv.
    unfold Backupsnappy.retention_days, Backupsnappy.is_adhoc_backup.
    rewrite Hargv. split; reflexivity.
Qed.

Lemma creation_try_alerts_from cfg cid now alerting :
  always (alerts_from alerting now)
    (try_except (Backupsnappy.main_try cfg cid now alerting)
                (Backupsnappy.main_except cid now alerting)).
Proof.
  unfold alerts_from.
  always_with ltac:(constructor; [cbn; auto | constructor]).
Qed.

Lemma creation_try_draws_no_id cfg cid now alerting :
  quiet (is_call is_Uuid4)
    (try_except (Backupsnappy.main_try cfg cid now alerting)
                (Backupsnappy.main_except cid now alerting)).
Proof. quiet_tac. Qed.

(** X16: all the alerts of a creation run are sent by one alerting object
    and carry one start time.  The object is built from the automation
    variables and the command line: the subscription as account, the
    storage account, script version 1.0.0, as host the VM name given as
    fourth argument when it is not empty and the storage account
    otherwise, the sid given on the command line or "SID", and as
    correlation id the one given on the command line when it is not empty;
    only without it does the run draw a fresh one, once. *)
Theorem creation_alerts_share_sender_and_start_time E cfg :
  let r := Backupsnappy.run E cfg in
  let given := Backupsnappy.correlation_id (Backupsnappy.initial_globals cfg) in
  let correlation_id := if truthy_str given then given else env_uuid4 E [] in
  let vm := Backupsnappy.triggered_from_vm cfg in
  let hostname := if truthy_str vm then vm else OBJECT_STORAGE cfg in
  exists customer now,
    alerts_from
      (Alerting.TICHttpBasedAlerting (SUBSCRIPTION_ID cfg) customer hostname
         Backupsnappy.VERSION correlation_id (Backupsnappy.sid cfg)
         (OBJECT_STORAGE cfg))
      now (emitted r) /\
    count (is_call is_Uuid4) (emitted r) = (if truthy_str given then 0 else 1).
Proof.
  cbv zeta.
  unfold Backupsnappy.run, Backupsnappy.main.
  steps; flatten.
  all: match goal with
       | H : negb (truthy_str ?x) = _ |- _ =>
           destruct (truthy_str x) eqn:Hgiven; try discriminate H; clear H
       end.
  all: cbn [Backupsnappy.correlation_id].
  all: match goal with
       | |- context [try_except (Backupsnappy.main_try ?c ?ci ?n ?al)
                       (Backupsnappy.main_except ?ci ?n ?al) ?E ?h ?g] =>
           pose proof (creation_try_alerts_from c ci n al E h g) as Hal;
           pose proof (creation_try_draws_no_id c ci n al E h g) as Hid;
           destruct (try_except (Backupsnappy.main_try c ci n al)
                       (Backupsnappy.main_except ci n al) E h g)
             as [o d g1];
           cbn [emitted] in Hal, Hid |- *;
           eexists; eexists; split;
             [repeat (constructor; [exact I |]); exact Hal
             | count_tac; cbn [is_Uuid4]; lia]
       | |- _ =>
           exists ""%string, (env_get_current_datetime E []); split;
             [repeat constructor | count_tac; cbn [is_Uuid4]; lia]
       end.
Qed.

Lemma deletion_try_alerts_sent_by cfg cid now alerting :
  always (alerts_sent_by alerting now)
    (try_except (Deletionsnappy.main_try cfg cid now alerting)
                (Deletionsnappy.main_except cid now alerting)).
Proof.
  unfold alerts_sent_by.
  always_with ltac:(constructor;
                    [cbn; first [exact I
                                | split; [reflexivity
                                         | first [reflexivity | discriminate]]]
                    | constructor]).
Qed.

Lemma deletion_try_draws_no_id cfg cid now alerting :
  quiet (is_call is_Uuid4)
    (try_except (Deletionsnappy.main_try cfg cid now alerting)
                (Deletionsnappy.main_except cid now alerting)).
Proof. quiet_tac. Qed.

(** X17: the deletion flow takes nothing from the command line.  Every run
    draws one fresh correlation id, and all its alerts are sent by one
    alerting object built from the automation variables, with the storage
    account as host and "SID" as sid; its SUCCESS alerts carry the clock
    reading taken at the start of the run. *)
Theorem deletion_alerts_share_sender E cfg :
  let r := Deletionsnappy.run E cfg in
  count (is_call is_Uuid4) (emitted r) = 1 /\
  exists customer,
    alerts_sent_by
      (Alerting.TICHttpBasedAlerting (SUBSCRIPTION_ID cfg) customer
         (OBJECT_STORAGE cfg) Deletionsnappy.VERSION (env_uuid4 E []) "SID"
         (OBJECT_STORAGE cfg))
      (run_start_time E) (emitted r).
Proof.
  cbv zeta.
  unfold Deletionsnappy.run, Deletionsnappy.main, run_start_time.
  steps; flatten.
  all: match goal with
       | |- context [try_except (Deletionsnappy.main_try ?c ?ci ?n ?al)
                       (Deletionsnappy.main_except ?ci ?n ?al) ?E ?h ?g] =>
           pose proof (deletion_try_alerts_sent_by c ci n al E h g) as Hal;
           pose proof (deletion_try_draws_no_id c ci n al E h g) as Hid;
           destruct (try_except (Deletionsnappy.main_try c ci n al)
                       (Deletionsnappy.main_except ci n al) E h g)
             as [o d g1];
           cbn [emitted] in Hal, Hid |- *;
           split; [count_tac; cbn [is_Uuid4]; lia |];
           eexists; repeat (constructor; [exact I |]); exact Hal
       | |- _ =>
           split; [count_tac; cbn [is_Uuid4]; lia |];
           exists ""%string; repeat constructor
       end.
Qed.

(** ** Failures outside the [try] block of [main] *)

Lemma creation_try_asks_no_customer_id cfg cid now alerting :
  quiet (is_call is_GetCid)
    (try_except (Backupsnappy.main_try cfg cid now alerting)
                (Backupsnappy.main_except cid now alerting)).
Proof. quiet_tac. Qed.

Lemma deletion_try_asks_no_customer_id cfg cid now alerting :
  quiet (is_call is_GetCid)
    (try_except (Deletionsnappy.main_try cfg cid now alerting)
                (Deletionsnappy.main_except cid now alerting)).
Proof. quiet_tac. Qed.

(** X18: in both flows the customer id is asked before the alerting object
    exists and outside the [try] block of [main].  When [get_cid] raises,
    the exception leaves [main] uncaught: the call is the last event of the
    run, no alert is sent, no error line is logged, and nothing has reached
    the credential service or the storage backend. *)
Theorem customer_id_failure_goes_unreported E cfg resource_group text :
  (let r := Backupsnappy.run E cfg in
   In (EvCall (GetCid resource_group) (Raises text)) (emitted r) ->
   out r = Raise (Exception text) /\
   (exists before,
      emitted r = before ++ [EvCall (GetCid resource_group) (Raises text)]) /\
   count_alerts FAIL (emitted r) = 0 /\
   count_alerts SUCCESS (emitted r) = 0 /\
   Forall (fun e => is_error_log e = false) (emitted r) /\
   Forall (fun e => is_call reaches_backend e = false) (emitted r)) /\
  (let r := Deletionsnappy.run E cfg in
   In (EvCall (GetCid resource_group) (Raises text)) (emitted r) ->
   out r = Raise (Exception text) /\
   (exists before,
      emitted r = before ++ [EvCall (GetCid resource_group) (Raises text)]) /\
   count_alerts FAIL (emitted r) = 0 /\
   count_alerts SUCCESS (emitted r) = 0 /\
   Forall (fun e => is_error_log e = false) (emitted r) /\
   Forall (fun e => is_call reaches_backend e = false) (emitted r)).
Proof.
  split; cbv zeta.
  - unfold Backupsnappy.run, Backupsnappy.main.
    steps; flatten.
    all: try match goal with
         | |- context [try_except (Backupsnappy.main_try ?c ?ci ?n ?al)
                         (Backupsnappy.main_except ?ci ?n ?al) ?E ?h ?g] =>
             pose proof (creation_try_asks_no_customer_id c ci n al E h g)
               as Hq;
             destruct (try_except (Backupsnappy.main_try c ci n al)
                         (Backupsnappy.main_except ci n al) E h g)
               as [o d g1];
             cbn [emitted] in Hq |- *
         end.
    all: intros Hin; in_cases Hin.
    all: injection Hin as <- <-.
    all: split; [reflexivity |].
    all: split;
      [match goal with
       | |- exists before, ?tr = _ =>
           exists (removelast tr); reflexivity
       end |].
    all: split; [reflexivity |].
    all: split; [reflexivity |].
    all: split; repeat constructor.
  - unfold Deletionsnappy.run, Deletionsnappy.main.
    steps; flatten.
    all: try match goal with
         | |- context [try_except (Deletionsnappy.main_try ?c ?ci ?n ?al)
                         (Deletionsnappy.main_except ?ci ?n ?al) ?E ?h ?g] =>
             pose proof (deletion_try_asks_no_customer_id c ci n al E h g)
               as Hq;
             destruct (try_except (Deletionsnappy.main_try c ci n al)
                         (Deletionsnappy.main_except ci n al) E h g)
               as [o d g1];
             cbn [emitted] in Hq |- *
         end.
    all: intros Hin; in_cases Hin.
    all: injection Hin as <- <-.
    all: split; [reflexivity |].
    all: split;
      [match goal with
       | |- exists before, ?tr = _ =>
           exists (removelast tr); reflexivity
       end |].
    all: split; [reflexivity |].
    all: split; [reflexivity |].
    all: split; repeat constructor.
Qed.

Lemma customer_id_failure_goes_unreported_witness :
  out (Deletionsnappy.run
         (Fixture.without_customer (Scenario.env Fixture.bare))
         Scenario.config) = Raise (Exception "CustomerNotFound") /\
  count_alerts FAIL
    (emitted (Deletionsnappy.run
                (Fixture.without_customer (Scenario.env Fixture.bare))
                Scenario.config)) = 0.
Proof.
  assert (Hin :
    In (EvCall (GetCid "rg") (Raises "CustomerNotFound"))
       (emitted (Deletionsnappy.run
                   (Fixture.without_customer (Scenario.env Fixture.bare))
                   Scenario.config))).
  { vm_compute. in_trace. }
  destruct (proj2 (customer_id_failure_goes_unreported
                     (Fixture.without_customer (Scenario.env Fixture.bare))
                     Scenario.config "rg" "CustomerNotFound") Hin)
    as (Hout & _ & Hfail & _).
  split; assumption.
Defined.

(** ** How a run can end *)

Lemma validate_allowed_raise_inv (int : string -> reply Z) (rdays : string)
  (s : signal) :
  Backupsnappy.__validate_allowed_adhoc_backup_retention_days int rdays
  = Raise s ->
  exists text, s = Exception text.
Proof.
  unfold Backupsnappy.__validate_allowed_adhoc_backup_retention_days.
  destruct (int rdays) as [z | text].
  - destruct (negb _); [| discriminate].
    intros H. injection H as <-. eexists. reflexivity.
  - intros H. injection H as <-. eexists. reflexivity.
Qed.

Section TryOutcome.
Variables (cfg : Config) (cid : string) (now : datetime)
  (alerting : Alerting.t).

(** The [try] block ends by returning, by [sys.exit(0)] or by an
    exception. *)
Lemma creation_try_outcome E h g s :
  out (Backupsnappy.main_try cfg cid now alerting E h g) = Raise s ->
  s = SystemExit 0 \/ exists text, s = Exception text.
Proof.
  unfold Backupsnappy.main_try. walk.
  all: try solve [intros Hs; injection Hs as <-; right; eexists; reflexivity].
  all: try solve [intros Hs; injection Hs as <-; right;
                  eapply validate_allowed_raise_inv; eassumption].
  all: rewrite step_bind;
    match goal with
    | |- context [out (Backupsnappy.__enable_softdelete_in_file_share
                         ?sm ?c ?n ?a ?E ?h ?g)] =>
        pose proof (softdelete_run sm c n a E h g) as Hsoft;
        cbv zeta in Hsoft;
        destruct (Backupsnappy.__enable_softdelete_in_file_share sm c n a
                    E h g) as [o0 d0 g0]
    end;
    cbn [out emitted globals] in *;
    destruct Hsoft as (-> & -> & _); walk.
  all: try solve [intros Hs; injection Hs as <-;
                  first [left; reflexivity | right; eexists; reflexivity]].
  all: rewrite step_bind;
    match goal with
    | |- context [for_each ?l (Backupsnappy.volume_loop_body ?c ?t ?sm ?ci ?n
                                 ?a) ?E ?h ?g] =>
        pose proof (for_each_outcome
                      (Backupsnappy.volume_loop_body c t sm ci n a)
                      (fun s => exists text, s = Exception text) l
                      (fun x E0 h0 g0 =>
                         proj1 (backup_volume_step_account c t sm ci n a x
                                  E0 h0 g0))
                      E h g) as Hloop;
        destruct (for_each l (Backupsnappy.volume_loop_body c t sm ci n a)
                    E h g) as [o d g1]
    end;
    cbn [out emitted globals] in *;
    destruct o as [[] | s0]; walk.
  all: intros Hs; try discriminate Hs.
  all: injection Hs as <-.
  all: right; apply Hloop; reflexivity.
Qed.

Lemma deletion_try_outcome E h g s :
  out (Deletionsnappy.main_try cfg cid now alerting E h g) = Raise s ->
  s = SystemExit 0 \/ exists text, s = Exception text.
Proof.
  unfold Deletionsnappy.main_try. walk.
  all: try solve [intros Hs; injection Hs as <-;
                  first [left; reflexivity | right; eexists; reflexivity]].
  all: rewrite step_bind;
    match goal with
    | |- context [for_each ?l (Deletionsnappy.volume_loop_body ?t ?sm ?ci ?n
                                 ?a) ?E ?h ?g] =>
        assert (Hstep : forall x E0 h0 g0 s0,
          out (Deletionsnappy.volume_loop_body t sm ci n a x E0 h0 g0)
          = Raise s0 ->
          s0 = LoopContinue \/ exists text, s0 = Exception text);
        [ intros x E0 h0 g0 s0 Hs;
          destruct (deletion_volume_step_cases t sm ci n a x E0 h0 g0)
            as [(text & Hr) | (d0 & Hout & _)]; cbv zeta in *;
          [ rewrite Hr in Hs; injection Hs as <-; right; eexists; reflexivity
          | rewrite Hout in Hs; discriminate Hs ]
        | pose proof (for_each_outcome
                        (Deletionsnappy.volume_loop_body t sm ci n a)
                        (fun s => exists text, s = Exception text) l
                        Hstep E h g) as Hloop;
          destruct (for_each l (Deletionsnappy.volume_loop_body t sm ci n a)
                      E h g) as [o d g1] ]
    end;
    cbn [out emitted globals] in *;
    destruct o as [[] | s0]; walk.
  all: intros Hs; try discriminate Hs.
  all: injection Hs as <-.
  all: right; apply Hloop; reflexivity.
Qed.

End TryOutcome.

Lemma creation_run_uncaught E cfg text :
  out (Backupsnappy.run E cfg) = Raise (Exception text) ->
  In (EvCall (GetCid (RESOURCE_GROUP cfg)) (Raises text))
     (emitted (Backupsnappy.run E cfg)).
Proof.
  unfold Backupsnappy.run, Backupsnappy.main.
  steps; flatten.
  all: try match goal with
       | |- context [try_except (Backupsnappy.main_try ?c ?ci ?n ?al)
                       (Backupsnappy.main_except ?ci ?n ?al) ?E ?h ?g] =>
           pose proof (attempt_cases (Backupsnappy.main_try c ci n al)
                         (Backupsnappy.main_except ci n al) E h g
                         (backup_except_run ci n al)) as Hc;
           cbv zeta in Hc;
           destruct Hc as [(ex & report & _ & _ & Hr) | (Hno & Hr)];
           rewrite Hr; cbn [out]; intros Hout;
           [discriminate Hout | exfalso; eapply Hno; exact Hout]
       end.
  all: intros Hout; injection Hout as <-; in_find.
Qed.

Lemma deletion_run_uncaught E cfg text :
  out (Deletionsnappy.run E cfg) = Raise (Exception text) ->
  In (EvCall (GetCid (RESOURCE_GROUP cfg)) (Raises text))
     (emitted (Deletionsnappy.run E cfg)).
Proof.
  unfold Deletionsnappy.run, Deletionsnappy.main.
  steps; flatten.
  all: try match goal with
       | |- context [try_except (Deletionsnappy.main_try ?c ?ci ?n ?al)
                       (Deletionsnappy.main_except ?ci ?n ?al) ?E ?h ?g] =>
           pose proof (attempt_cases (Deletionsnappy.main_try c ci n al)
                         (Deletionsnappy.main_except ci n al) E h g
                         (deletion_except_run ci n al)) as Hc;
           cbv zeta in Hc;
           destruct Hc as [(ex & report & _ & _ & Hr) | (Hno & Hr)];
           rewrite Hr; cbn [out]; intros Hout;
           [discriminate Hout | exfalso; eapply Hno; exact Hout]
       end.
  all: intros Hout; injection Hout as <-; in_find.
Qed.

Section RunOutcome.
Context {G : Type}.
Variables (r tried : result G unit) (startup : list Event).
Hypothesis Hstartup : Forall (fun e => is_startup_event e = true) startup.
Hypothesis Hcases :
  (exists ex report,
     out tried = Raise (Exception ex) /\ is_fatal_report ex report /\
     r = mk_result (Raise (SystemExit 1)) (startup ++ emitted tried ++ report)
                   (globals tried)) \/
  ((forall ex, out tried <> Raise (Exception ex)) /\
   r = prepend startup tried).
Hypothesis Htried : forall s,
  out tried = Raise s -> s = SystemExit 0 \/ exists text, s = Exception text.
Hypothesis Hquiet : Forall (fun e => is_error_log e = false) (emitted tried).


End RunOutcome.


(** ** Failures and FAIL alerts *)

Section Accounted.
Context {G : Type}.
Variable E : Env.

Lemma accounted_ret {A} (a : A) : accounted E (ret (G := G) a).
Proof. intros h g. reflexivity. Qed.

Lemma accounted_raise {A} (s : signal) :
  pending (Raise (A := A) s) = 0 -> accounted E (raise (G := G) (A := A) s).
Proof. intros H h g. cbn [raise out emitted]. rewrite H. reflexivity. Qed.

Lemma accounted_get : accounted E (get (G := G)).
Proof. intros h g. reflexivity. Qed.

Lemma accounted_put (g0 : G) : accounted E (put g0).
Proof. intros h g. reflexivity. Qed.

Lemma accounted_lift {A} (o : outcome A) :
  pending o = 0 -> accounted E (lift (G := G) o).
Proof. intros H h g. cbn [lift out emitted]. rewrite H. reflexivity. Qed.

Lemma accounted_builtin {A} (f : Env -> outcome A) :
  pending (f E) = 0 -> accounted E (builtin (G := G) f).
Proof.
  intros H h g. cbn [builtin out emitted]. rewrite H. reflexivity.
Qed.

Lemma accounted_emit (e : Event) :
  is_raised e = false -> is_alert FAIL e = false ->
  accounted E (emit (G := G) e).
Proof.
  intros H1 H2 h g. cbn [emit out emitted]. unfold count_alerts.
  rewrite !count_cons, H1, H2. reflexivity.
Qed.

Lemma accounted_call {A} (c : Call) (inj : A -> Value) ask :
  accounted E (call (G := G) c inj ask).
Proof. intros h g. unfold call. destruct (ask E h); reflexivity. Qed.

Lemma accounted_call_total {A} (c : Call) (inj : A -> Value) ask :
  accounted E (call_total (G := G) c inj ask).
Proof. intros h g. reflexivity. Qed.

Lemma accounted_bind {A B} (m : M G A) (f : A -> M G B) :
  accounted E m -> (forall a, accounted E (f a)) -> accounted E (bind m f).
Proof.
  intros Hm Hf h g. unfold bind.
  specialize (Hm h g). destruct (m E h g) as [o d g1].
  cbn [out emitted] in Hm.
  destruct o as [a | s]; [| exact Hm].
  specialize (Hf a (h ++ d) g1).
  destruct (f a E (h ++ d) g1) as [o' d' g2]. cbn [out emitted] in *.
  unfold count_alerts in *. rewrite !count_app. cbn [pending] in Hm. lia.
Qed.

Lemma accounted_try_except {A} (body : M G A) (handler : string -> M G A) :
  accounted E body -> (forall ex, settles (handler ex)) ->
  accounted E (try_except body handler).
Proof.
  intros Hm Hf h g. unfold try_except.
  specialize (Hm h g). destruct (body E h g) as [o d g1].
  cbn [out emitted] in Hm.
  destruct o as [a | [ex | code |]]; try exact Hm.
  specialize (Hf ex E (h ++ d) g1).
  destruct (handler ex E (h ++ d) g1) as [o' d' g2]. cbn [out emitted] in *.
  unfold count_alerts in *. rewrite !count_app. cbn [pending] in Hm. lia.
Qed.

Lemma accounted_try_finally {A} (body : M G A) (final : M G unit) :
  accounted E body -> silent final -> accounted E (try_finally body final).
Proof.
  intros Hm Hf h g. unfold try_finally.
  specialize (Hm h g). destruct (body E h g) as [o d g1].
  cbn [out emitted] in Hm.
  destruct (Hf E (h ++ d) g1) as (Ho & Hr & Ha).
  destruct (final E (h ++ d) g1) as [o' d' g2]. cbn [out emitted] in *.
  subst o'. cbn [out emitted].
  unfold count_alerts in *. rewrite !count_app. lia.
Qed.

Lemma accounted_for_each {A} (l : list A) (body : A -> M G unit) :
  (forall x, accounted E (body x)) -> accounted E (for_each l body).
Proof.
  intros Hb. induction l as [| x l IH]; intros h g; cbn [for_each].
  - reflexivity.
  - specialize (Hb x h g). destruct (body x E h g) as [o d g1].
    cbn [out emitted] in Hb.
    specialize (IH (h ++ d) g1).
    destruct (for_each l body E (h ++ d) g1) as [o' d' g2].
    cbn [out emitted] in IH.
    destruct o as [a | [ex | code |]]; cbn [out emitted]; try exact Hb;
      unfold count_alerts in *; rewrite !count_app; cbn [pending] in Hb; lia.
Qed.

Lemma accounted_for_fold {A S} (l : list A) (acc : S)
  (body : A -> S -> M G S) :
  (forall x s, accounted E (body x s)) -> accounted E (for_fold l acc body).
Proof.
  intros Hb. revert acc. induction l as [| x l IH]; intros acc; cbn.
  - apply accounted_ret.
  - apply accounted_bind; [apply Hb | intros a; apply IH].
Qed.

End Accounted.

(** [accounted m] by recursion on [m]; [known] closes the goals that need
    a fact of their own. *)
Ltac accounted_with known :=
  repeat (intros; cbv zeta;
    first
    [ solve [known]
    | lazymatch goal with
      | |- accounted _ (bind _ _) => apply accounted_bind; [| intros ?]
      | |- accounted _ (try_except _ _) =>
          apply accounted_try_except;
          [| intros ? ? ? ?; autounfold with afs_snappy runbook; reflexivity]
      | |- accounted _ (try_finally _ _) =>
          apply accounted_try_finally;
          [| intros ? ? ?; autounfold with afs_snappy;
             split; [reflexivity | split; reflexivity]]
      | |- accounted _ (for_each _ _) => apply accounted_for_each; intros ?
      | |- accounted _ (for_fold _ _ _) => apply accounted_for_fold; intros ? ?
      | |- accounted _ (ret _) => apply accounted_ret
      | |- accounted _ (raise _) => apply accounted_raise; reflexivity
      | |- accounted _ get => apply accounted_get
      | |- accounted _ (put _) => apply accounted_put
      | |- accounted _ (lift _) => apply accounted_lift; reflexivity
      | |- accounted _ (emit _) => apply accounted_emit; reflexivity
      | |- accounted _ (call _ _ _) => apply accounted_call
      | |- accounted _ (call_total _ _ _) => apply accounted_call_total
      | |- accounted _ (if ?b then _ else _) => destruct b
      | |- accounted _ (match ?x with _ => _ end) => destruct x
      | |- accounted _ _ => progress autounfold with afs_snappy runbook
      end ]).

Lemma snapshot_loop_body_accounted E afs_manager cid now alerting snapshot
  acc :
  accounted E (Deletionsnappy.snapshot_loop_body afs_manager cid now alerting
               snapshot acc).
Proof.
  unfold Deletionsnappy.snapshot_loop_body.
  destruct (Deletionsnappy.retention_gate snapshot) eqn:Hgate;
    [| apply accounted_ret].
  destruct (gated_check_returns now snapshot Hgate) as [expired Hexp].
  rewrite Hexp. accounted_with fail.
Qed.

Lemma deletion_main_accounted E cfg : accounted E (Deletionsnappy.main cfg).
Proof.
  accounted_with ltac:(apply snapshot_loop_body_accounted).
Qed.

Lemma creation_main_accounted E cfg :
  (Backupsnappy.is_adhoc_backup cfg = true ->
   Backupsnappy.__validate_allowed_adhoc_backup_retention_days (env_int E)
     (Backupsnappy.retention_days cfg) = Ret tt) ->
  accounted E (Backupsnappy.main cfg).
Proof.
  intros Hvalid.
  accounted_with ltac:(apply accounted_builtin; rewrite (Hvalid eq_refl);
                       reflexivity).
Qed.

(** X20: every failure of a run is alerted exactly once.  In a deletion
    run, and in a creation run in which the check of the retention days
    against the ad-hoc list does not raise (whatever the runtime's [int]
    reads), the FAIL alerts number the external calls that raised,
    less the one call whose exception nothing catches when the run ends by
    an exception (the customer id, asked outside the [try] block). *)
Theorem every_failure_is_alerted_once E cfg :
  (let r := Deletionsnappy.run E cfg in
   count_alerts FAIL (emitted r)
   = count is_raised (emitted r) - pending (out r)) /\
  ((Backupsnappy.is_adhoc_backup cfg = true ->
    Backupsnappy.__validate_allowed_adhoc_backup_retention_days (env_int E)
      (Backupsnappy.retention_days cfg) = Ret tt) ->
   let r := Backupsnappy.run E cfg in
   count_alerts FAIL (emitted r)
   = count is_raised (emitted r) - pending (out r)).
Proof.
  split.
  - cbv zeta. unfold Deletionsnappy.run.
    rewrite (deletion_main_accounted E cfg [] Deletionsnappy.initial_globals).
    lia.
  - intros Hvalid. cbv zeta. unfold Backupsnappy.run.
    rewrite (creation_main_accounted E cfg Hvalid []
               (Backupsnappy.initial_globals cfg)).
    lia.
Qed.

Lemma every_failure_is_alerted_once_witness :
  count_alerts FAIL
    (emitted (Backupsnappy.run (Scenario.env Scenario.softdelete_broken)
                (Scenario.adhoc_config "90")))
  = count is_raised
      (emitted (Backupsnappy.run (Scenario.env Scenario.softdelete_broken)
                  (Scenario.adhoc_config "90")))
    - pending (out (Backupsnappy.run (Scenario.env Scenario.softdelete_broken)
                      (Scenario.adhoc_config "90"))) /\
  count is_raised
    (emitted (Backupsnappy.run (Scenario.env Scenario.softdelete_broken)
                (Scenario.adhoc_config "90"))) = 1.
Proof.
  split; [| reflexivity].
  apply (proj2 (every_failure_is_alerted_once
                  (Scenario.env Scenario.softdelete_broken) (Scenario.adhoc_config "90"))).
  intros _. reflexivity.
Defined.

(** ** Which failures end a run *)

Ltac fails_fast_gen :=
  repeat (intros; cbv zeta;
    lazymatch goal with
    | |- fails_fast _ (bind _ _) => apply fails_fast_bind; [| intros ?]
    | |- fails_fast _ (for_each _ _) => apply fails_fast_for_each; intros ?
    | |- fails_fast _ (call _ _ _) => apply fails_fast_call
    | |- fails_fast _ (if ?b then _ else _) => destruct b
    | |- fails_fast _ (Backupsnappy.__create_afs_snapshot _ _ _ _ _ _) =>
        apply fails_fast_quiet; always_with forall_event
    | |- fails_fast _ (Backupsnappy.__enable_softdelete_in_file_share
                         _ _ _ _) =>
        apply fails_fast_quiet; always_with forall_event
    | |- fails_fast _ (Deletionsnappy.__delete_snapshots_in_afs _ _ _ _) =>
        apply fails_fast_quiet; always_with forall_event
    | |- fails_fast _ _ =>
        first
          [ progress unfold Backupsnappy.volume_loop_body,
              Deletionsnappy.volume_loop_body, Backupsnappy.main_try,
              Deletionsnappy.main_try
          | progress autounfold with afs_snappy
          | apply fails_fast_quiet; always_with forall_event ]
    end).

Lemma creation_try_fails_fast cfg cid now alerting :
  fails_fast (raised_by is_unguarded)
    (Backupsnappy.main_try cfg cid now alerting).
Proof. fails_fast_gen. Qed.

Lemma deletion_try_fails_fast cfg cid now alerting :
  fails_fast (raised_by is_unguarded)
    (Deletionsnappy.main_try cfg cid now alerting).
Proof. fails_fast_gen. Qed.

(** X21: in both flows, a call that [main] makes inside its [try] block
    but outside the guarded procedures (the numeric check of the retention
    days, the identity token, the validation of the storage account, the
    listing of the volumes, the existence check of a volume, the
    created-today check) ends the run when it raises: the failed call is
    followed by the traceback, one FAIL alert and one error line only, and
    the process exits with status 1. *)
Theorem unguarded_failure_ends_the_run E cfg c text :
  is_unguarded c = true ->
  (let r := Backupsnappy.run E cfg in
   In (EvCall c (Raises text)) (emitted r) ->
   exists before report,
     emitted r = before ++ EvCall c (Raises text) :: report /\
     is_fatal_report text report /\
     out r = Raise (SystemExit 1)) /\
  (let r := Deletionsnappy.run E cfg in
   In (EvCall c (Raises text)) (emitted r) ->
   exists before report,
     emitted r = before ++ EvCall c (Raises text) :: report /\
     is_fatal_report text report /\
     out r = Raise (SystemExit 1)).
Proof.
  intros Hc.
  assert (Hstart : is_startup_event (EvCall c (Raises text)) = false)
    by (destruct c; first [discriminate Hc | reflexivity]).
  split; cbv zeta; intros Hin.
  - destruct (backup_run_shape E cfg)
      as (startup & Hst
          & [(t & g0 & _ & Hrun) | (cid & now & al & g0 & _ & Hcases)]).
    { exfalso. rewrite Hrun in Hin. cbn [emitted] in Hin.
      rewrite Forall_forall in Hst. apply Hst in Hin. congruence. }
    cbv zeta in Hcases.
    exact (shape_fatal _ _ _ Hst Hcases is_unguarded c text Hc Hstart
             (creation_try_fails_fast cfg cid now al E startup g0) Hin).
  - destruct (deletion_run_shape E cfg)
      as (startup & Hst
          & [(t & g0 & _ & Hrun) | (cid & al & g0 & _ & Hcases)]).
    { exfalso. rewrite Hrun in Hin. cbn [emitted] in Hin.
      rewrite Forall_forall in Hst. apply Hst in Hin. congruence. }
    cbv zeta in Hcases.
    exact (shape_fatal _ _ _ Hst Hcases is_unguarded c text Hc Hstart
             (deletion_try_fails_fast cfg cid (run_start_time E) al E startup g0)
             Hin).
Qed.

Lemma unguarded_failure_ends_the_run_witness :
  is_unguarded ValidateStorage = true /\
  out (Deletionsnappy.run (Scenario.env Scenario.invalid_storage)
         Scenario.config) = Raise (SystemExit 1).
Proof.
  split; [reflexivity |].
  assert (Hin :
    In (EvCall ValidateStorage (Raises "StorageValidationError"))
       (emitted (Deletionsnappy.run (Scenario.env Scenario.invalid_storage)
                   Scenario.config))).
  { vm_compute. in_trace. }
  destruct (proj2 (unguarded_failure_ends_the_run
                     (Scenario.env Scenario.invalid_storage) Scenario.config
                     ValidateStorage "StorageValidationError" eq_refl) Hin)
    as (before & report & _ & _ & Hout).
  exact Hout.
Defined.

Section RaisesFrom.
Context {G : Type}.
Variable sel : Call -> bool.
Variable E : Env.

Lemma raises_from_builtin {A} (f : Env -> outcome A) :
  (forall text, f E <> Raise (Exception text)) ->
  raises_from sel E (builtin (G := G) f).
Proof. intros H h g text Hout. destruct (H text Hout). Qed.

Lemma raises_from_returns {A} (m : M G A) :
  (forall h g text, out (m E h g) <> Raise (Exception text)) ->
  raises_from sel E m.
Proof. intros H h g text Hout. destruct (H h g text Hout). Qed.

Lemma raises_from_call {A} (c : Call) (inj : A -> Value) ask :
  sel c = true -> raises_from sel E (call (G := G) c inj ask).
Proof.
  intros Hc h g text. unfold call. destruct (ask E h) as [a | text'];
    cbn [out emitted]; intros Hout; [discriminate Hout |].
  injection Hout as ->. exists [], c. split; [reflexivity | exact Hc].
Qed.

Lemma raises_from_bind {A B} (m : M G A) (f : A -> M G B) :
  raises_from sel E m -> (forall a, raises_from sel E (f a)) ->
  raises_from sel E (bind m f).
Proof.
  intros Hm Hf h g text. unfold bind.
  specialize (Hm h g text). destruct (m E h g) as [o d g1].
  cbn [out emitted] in Hm.
  destruct o as [a | s].
  2:{ cbn [out emitted]. intros Hout. injection Hout as ->.
      exact (Hm eq_refl). }
  specialize (Hf a (h ++ d) g1 text).
  destruct (f a E (h ++ d) g1) as [o' d' g2]. cbn [out emitted] in *.
  intros Hout. destruct (Hf Hout) as (before & c & -> & Hc).
  exists (d ++ before), c. split; [now rewrite app_assoc | exact Hc].
Qed.

(** A handler that does not raise makes its [try] block safe, whatever
    the block does. *)
Lemma raises_from_guarded {A} (body : M G A) (handler : string -> M G A) :
  (forall ex h g text, out (handler ex E h g) <> Raise (Exception text)) ->
  raises_from sel E (try_except body handler).
Proof.
  intros Hh h g text. unfold try_except.
  destruct (body E h g) as [o d g1].
  destruct o as [a | [ex | code |]]; cbn [out]; try discriminate.
  specialize (Hh ex (h ++ d) g1 text).
  destruct (handler ex E (h ++ d) g1) as [o' d' g2]. cbn [out] in *.
  intros Hout. destruct (Hh Hout).
Qed.

Lemma raises_from_for_each {A} (l : list A) (body : A -> M G unit) :
  (forall x, raises_from sel E (body x)) -> raises_from sel E (for_each l body).
Proof.
  intros Hb. induction l as [| x l IH]; intros h g text; cbn [for_each].
  - discriminate.
  - specialize (Hb x h g text). destruct (body x E h g) as [o d g1].
    cbn [out emitted] in Hb.
    specialize (IH (h ++ d) g1 text).
    destruct (for_each l body E (h ++ d) g1) as [o' d' g2].
    cbn [out emitted] in IH.
    destruct o as [a | [ex | code |]]; cbn [out emitted]; try exact Hb;
      intros Hout; destruct (IH Hout) as (before & c & -> & Hc);
      exists (d ++ before), c; (split; [now rewrite app_assoc | exact Hc]).
Qed.

End RaisesFrom.

(** [raises_from sel m] by recursion on [m]; [known] closes the goals that
    need a fact of their own. *)
Ltac raises_from_with known :=
  repeat (intros; cbv zeta;
    first
    [ solve [known]
    | lazymatch goal with
      | |- raises_from _ _ (bind _ _) => apply raises_from_bind; [| intros ?]
      | |- raises_from _ _ (try_except _ _) =>
          apply raises_from_guarded;
          intros ? ? ? ?; autounfold with afs_snappy; discriminate
      | |- raises_from _ _ (for_each _ _) =>
          apply raises_from_for_each; intros ?
      | |- raises_from _ _ (call _ _ _) => apply raises_from_call; reflexivity
      | |- raises_from _ _ (if ?b then _ else _) => destruct b
      | |- raises_from _ _ (ret _) =>
          apply raises_from_returns; intros ? ? ?; discriminate
      | |- raises_from _ _ (raise _) =>
          apply raises_from_returns; intros ? ? ?; discriminate
      | |- raises_from _ _ get =>
          apply raises_from_returns; intros ? ? ?; discriminate
      | |- raises_from _ _ (emit _) =>
          apply raises_from_returns; intros ? ? ?; discriminate
      | |- raises_from _ _ (call_total _ _ _) =>
          apply raises_from_returns; intros ? ? ?; discriminate
      | |- raises_from _ _ _ =>
          first [ progress unfold Backupsnappy.volume_loop_body,
                    Deletionsnappy.volume_loop_body, Backupsnappy.main_try,
                    Deletionsnappy.main_try,
                    Backupsnappy.__create_afs_snapshot,
                    Backupsnappy.__enable_softdelete_in_file_share,
                    Deletionsnappy.__delete_snapshots_in_afs
                | progress autounfold with afs_snappy ]
      end ]).

Lemma deletion_try_raises_from E cfg cid now alerting :
  raises_from is_unguarded E (Deletionsnappy.main_try cfg cid now alerting).
Proof. raises_from_with fail. Qed.

Lemma creation_try_raises_from E cfg cid now alerting :
  (Backupsnappy.is_adhoc_backup cfg = true ->
   Backupsnappy.__validate_allowed_adhoc_backup_retention_days (env_int E)
     (Backupsnappy.retention_days cfg) = Ret tt) ->
  raises_from is_unguarded E (Backupsnappy.main_try cfg cid now alerting).
Proof.
  intros Hvalid.
  raises_from_with ltac:(apply raises_from_builtin;
                         rewrite (Hvalid eq_refl); intros ?; discriminate).
Qed.

Section RunFailure.
Context {G : Type}.
Variables (r tried : result G unit) (startup : list Event).
Hypothesis Hcases :
  (exists ex report,
     out tried = Raise (Exception ex) /\ is_fatal_report ex report /\
     r = mk_result (Raise (SystemExit 1)) (startup ++ emitted tried ++ report)
                   (globals tried)) \/
  ((forall ex, out tried <> Raise (Exception ex)) /\
   r = prepend startup tried).
Hypothesis Htried : forall s,
  out tried = Raise s -> s = SystemExit 0 \/ exists text, s = Exception text.
Hypothesis Hfrom : forall text,
  out tried = Raise (Exception text) ->
  exists before c,
    emitted tried = before ++ [EvCall c (Raises text)] /\
    is_unguarded c = true.

Lemma shape_failure :
  exit_status (out r) = 1 ->
  exists c text,
    is_unguarded c = true /\ In (EvCall c (Raises text)) (emitted r).
Proof.
  destruct Hcases as [(ex & report & Hex & _ & ->) | (Hno & ->)];
    cbn [out emitted prepend exit_status].
  - intros _. destruct (Hfrom ex Hex) as (before & c & Hem & Hc).
    exists c, ex. split; [exact Hc |].
    apply in_or_app. right. apply in_or_app. left.
    rewrite Hem. apply in_or_app. right. left. reflexivity.
  - destruct (out tried) as [[] | s] eqn:Ho; cbn [exit_status];
      [discriminate |].
    destruct (Htried s eq_refl) as [-> | (text & ->)].
    + discriminate.
    + destruct (Hno text eq_refl).
Qed.

End RunFailure.

(** X22: failures inside the guarded procedures never make a run fail.  A
    deletion run, and a creation run in which the check of the retention
    days against the ad-hoc list does not raise (whatever the runtime's
    [int] reads), ends with status 1 only when the customer id or
    one of the unguarded calls of [main] raised: when every call that
    raised was made under the soft-delete guard, the creation procedure or
    the deletion procedure of a volume, the run ends with status 0. *)
Theorem run_fails_only_on_unguarded_failures E cfg :
  (let r := Deletionsnappy.run E cfg in
   exit_status (out r) = 1 ->
   exists c text,
     (is_unguarded c = true \/ is_GetCid c = true) /\
     In (EvCall c (Raises text)) (emitted r)) /\
  ((Backupsnappy.is_adhoc_backup cfg = true ->
    Backupsnappy.__validate_allowed_adhoc_backup_retention_days (env_int E)
      (Backupsnappy.retention_days cfg) = Ret tt) ->
   let r := Backupsnappy.run E cfg in
   exit_status (out r) = 1 ->
   exists c text,
     (is_unguarded c = true \/ is_GetCid c = true) /\
     In (EvCall c (Raises text)) (emitted r)).
Proof.
  split.
  - cbv zeta. intros Hexit.
    pose proof (deletion_run_uncaught E cfg) as Hun.
    destruct (deletion_run_shape E cfg)
      as (startup & Hst
          & [(t & g0 & _ & Hrun) | (cid & al & g0 & _ & Hcases)]).
    { exists (GetCid (RESOURCE_GROUP cfg)), t.
      split; [right; reflexivity |]. apply Hun. rewrite Hrun. reflexivity. }
    cbv zeta in Hcases.
    destruct (shape_failure _ _ _ Hcases
                (deletion_try_outcome cfg cid (run_start_time E) al E
                   startup g0)
                (deletion_try_raises_from E cfg cid (run_start_time E) al
                   startup g0) Hexit) as (c & text & Hc & Hin).
    exists c, text. split; [left; exact Hc | exact Hin].
  - intros Hvalid. cbv zeta. intros Hexit.
    pose proof (creation_run_uncaught E cfg) as Hun.
    destruct (backup_run_shape E cfg)
      as (startup & Hst
          & [(t & g0 & _ & Hrun) | (cid & now & al & g0 & _ & Hcases)]).
    { exists (GetCid (RESOURCE_GROUP cfg)), t.
      split; [right; reflexivity |]. apply Hun. rewrite Hrun. reflexivity. }
    cbv zeta in Hcases.
    destruct (shape_failure _ _ _ Hcases
                (creation_try_outcome cfg cid now al E startup g0)
                (creation_try_raises_from E cfg cid now al Hvalid startup g0)
                Hexit) as (c & text & Hc & Hin).
    exists c, text. split; [left; exact Hc | exact Hin].
Qed.

Lemma run_fails_only_on_unguarded_failures_witness :
  exit_status
    (out (Backupsnappy.run (Scenario.env Scenario.missing_then_healthy)
            (Scenario.adhoc_config "90"))) = 1 /\
  exists c text,
    (is_unguarded c = true \/ is_GetCid c = true) /\
    In (EvCall c (Raises text))
       (emitted (Backupsnappy.run (Scenario.env Scenario.missing_then_healthy)
                   (Scenario.adhoc_config "90"))).
Proof.
  split; [reflexivity |].
  apply (proj2 (run_fails_only_on_unguarded_failures
                  (Scenario.env Scenario.missing_then_healthy)
                  (Scenario.adhoc_config "90"))).
  - intros _. reflexivity.
  - reflexivity.
Defined.

(** ** Which volumes a run touches *)

Lemma within_weaken (a b : list string) (tr : list Event) :
  (forall x, In x a -> In x b) -> within a tr -> within b tr.
Proof.
  intros Hab. apply Forall_impl. intros [c r | | |]; try (intros; exact I).
  destruct (volume_of c); [apply Hab | intros; exact I].
Qed.

Lemma within_quiet (names : list string) (tr : list Event) :
  Forall (fun e => is_call is_volume_call e = false) tr -> within names tr.
Proof.
  apply Forall_impl. intros [c r | | |]; try (intros; exact I).
  destruct c; cbn; first [discriminate | intros; exact I].
Qed.

Lemma for_each_within {G} (l : list string) (body : string -> M G unit) :
  (forall x, always (within [x]) (body x)) ->
  always (within l) (for_each l body).
Proof.
  intros Hb. induction l as [| x l IH]; intros E h g; cbn [for_each].
  - constructor.
  - specialize (Hb x E h g). destruct (body x E h g) as [o d g1].
    cbn [emitted] in Hb.
    assert (Hd : within (x :: l) d).
    { apply within_weaken with (2 := Hb). intros y [<- | []]. left.
      reflexivity. }
    specialize (IH E (h ++ d) g1).
    destruct (for_each l body E (h ++ d) g1) as [o' d' g2].
    cbn [emitted] in IH.
    assert (Hd' : within (x :: l) d').
    { apply within_weaken with (2 := IH). intros y Hy. right. exact Hy. }
    destruct o as [a | [ex | code |]]; cbn [emitted]; try exact Hd;
      apply Forall_app; split; assumption.
Qed.

Lemma creation_step_within cfg token sm cid now alerting afs :
  always (within [afs])
    (Backupsnappy.volume_loop_body cfg token sm cid now alerting afs).
Proof.
  unfold within.
  always_with ltac:(constructor; [cbn; auto | constructor]).
Qed.

Lemma deletion_step_within token sm cid now alerting afs :
  always (within [afs])
    (Deletionsnappy.volume_loop_body token sm cid now alerting afs).
Proof.
  unfold within.
  always_with ltac:(constructor; [cbn; auto | constructor]).
Qed.

Lemma closed_touches_only_listed exclude :
  closed (touches_only_listed exclude).
Proof.
  split.
  - intros c reply afs [].
  - intros a b Ha Hb c reply afs Hin Hv.
    apply in_app_or in Hin. destruct Hin as [Hin | Hin].
    + destruct (Ha c reply afs Hin Hv) as (Hs & l & Hl & Ht & Hn).
      split; [apply in_or_app; left; exact Hs |].
      exists l. split; [apply in_or_app; left; exact Hl | split; assumption].
    + destruct (Hb c reply afs Hin Hv) as (Hs & l & Hl & Ht & Hn).
      split; [apply in_or_app; right; exact Hs |].
      exists l. split; [apply in_or_app; right; exact Hl | split; assumption].
Qed.

Lemma quiet_touches_only_listed exclude (tr : list Event) :
  Forall (fun e => is_call is_volume_call e = false) tr ->
  touches_only_listed exclude tr.
Proof.
  intros Hq c reply afs Hin Hv. exfalso.
  rewrite Forall_forall in Hq. apply Hq in Hin.
  destruct c; discriminate.
Qed.

Lemma within_touches (names : list string) (tr : list Event) c reply afs :
  within names tr -> In (EvCall c reply) tr -> volume_of c = Some afs ->
  In afs names.
Proof.
  intros Hw Hin Hv. unfold within in Hw. rewrite Forall_forall in Hw.
  apply Hw in Hin. rewrite Hv in Hin. exact Hin.
Qed.

Section TouchesListed.
Variables (cfg : Config) (cid : string) (now : datetime)
  (alerting : Alerting.t).

Lemma deletion_try_touches_only_listed :
  always (touches_only_listed (EXCLUDE_AFS cfg))
    (Deletionsnappy.main_try cfg cid now alerting).
Proof.
  intros E h g. unfold Deletionsnappy.main_try. walk.
  all: try solve [apply quiet_touches_only_listed; repeat constructor].
  rewrite step_bind.
  match goal with
  | |- context [for_each ?l (Deletionsnappy.volume_loop_body ?t ?sm ?c ?n ?a)
                  ?E ?h ?g] =>
      pose proof (for_each_within l
                    (Deletionsnappy.volume_loop_body t sm c n a)
                    (deletion_step_within t sm c n a) E h g) as Hw;
      destruct (for_each l (Deletionsnappy.volume_loop_body t sm c n a) E h g)
        as [o d g1]
  end.
  cbn [out emitted globals] in *.
  destruct o as [[] | s]; walk.
  all: intros c reply afs Hin Hv.
  all: split; [in_find |].
  all: match goal with
       | H : (AfsList.total ?l <? 1) = false |- _ =>
           exists l; split; [in_find |];
           split; [apply Z.ltb_ge; exact H |]
       end.
  all: in_cases Hin; try (injection Hin as <- _; discriminate Hv).
  all: eapply within_touches; eassumption.
Qed.

Lemma creation_try_touches_only_listed :
  always (touches_only_listed (EXCLUDE_AFS cfg))
    (Backupsnappy.main_try cfg cid now alerting).
Proof.
  intros E h g. unfold Backupsnappy.main_try. walk.
  all: try solve [apply quiet_touches_only_listed; repeat constructor].
  all: rewrite step_bind;
    match goal with
    | |- context [out (Backupsnappy.__enable_softdelete_in_file_share
                         ?sm ?c ?n ?a ?E ?h ?g)] =>
        pose proof (softdelete_run sm c n a E h g) as Hsoft;
        cbv zeta in Hsoft;
        assert (Hq : quiet (is_call is_volume_call)
                  (Backupsnappy.__enable_softdelete_in_file_share sm c n a))
          by quiet_tac;
        specialize (Hq E h g);
        destruct (Backupsnappy.__enable_softdelete_in_file_share sm c n a
                    E h g) as [o0 d0 g0]
    end;
    cbn [out emitted globals] in *;
    destruct Hsoft as (-> & -> & _); walk.
  all: try solve [apply quiet_touches_only_listed; forall_tac].
  all: rewrite step_bind;
    match goal with
    | |- context [for_each ?l (Backupsnappy.volume_loop_body ?c ?t ?sm ?ci ?n
                                 ?a) ?E ?h ?g] =>
        pose proof (for_each_within l
                      (Backupsnappy.volume_loop_body c t sm ci n a)
                      (creation_step_within c t sm ci n a) E h g) as Hw;
        destruct (for_each l (Backupsnappy.volume_loop_body c t sm ci n a)
                    E h g) as [o d g1]
    end;
    cbn [out emitted globals] in *;
    destruct o as [[] | s]; walk.
  all: intros c reply afs Hin Hv.
  all: split; [in_find |].
  all: match goal with
       | H : (AfsList.total ?l <? 1) = false |- _ =>
           exists l; split; [in_find |];
           split; [apply Z.ltb_ge; exact H |]
       end.
  all: in_cases Hin; try (injection Hin as <- _; discriminate Hv).
  all: try solve [eapply within_touches; eassumption].
  all: exfalso; rewrite Forall_forall in Hq; apply Hq in Hin.
  all: destruct c; discriminate.
Qed.

End TouchesListed.

(** X23: a run works only on volumes it was shown.  In both flows, every
    call on a volume (existence check, created-today check, limit
    validation, snapshot creation, snapshot listing, snapshot deletion)
    comes in a run whose storage validation returned and names a volume of
    a listing that [get_afs_list], asked with the EXCLUDE_AFS variable,
    returned in that run with a total of at least 1. *)
Theorem run_touches_only_listed_volumes E cfg :
  touches_only_listed (EXCLUDE_AFS cfg) (emitted (Backupsnappy.run E cfg)) /\
  touches_only_listed (EXCLUDE_AFS cfg) (emitted (Deletionsnappy.run E cfg)).
Proof.
  split.
  - unfold Backupsnappy.run.
    assert (H : always (touches_only_listed (EXCLUDE_AFS cfg))
                  (Backupsnappy.main cfg)).
    { always_gen ltac:(apply closed_touches_only_listed)
                 ltac:(apply quiet_touches_only_listed; forall_event)
                 ltac:(apply creation_try_touches_only_listed). }
    apply H.
  - unfold Deletionsnappy.run.
    assert (H : always (touches_only_listed (EXCLUDE_AFS cfg))
                  (Deletionsnappy.main cfg)).
    { always_gen ltac:(apply closed_touches_only_listed)
                 ltac:(apply quiet_touches_only_listed; forall_event)
                 ltac:(apply deletion_try_touches_only_listed). }
    apply H.
Qed.

(** ** What comes before a snapshot is created or deleted *)

Lemma closed_creation_is_cleared adhoc : closed (creation_is_cleared adhoc).
Proof.
  split.
  - intros afs ret a reply [].
  - intros a b Ha Hb afs ret ad reply Hin.
    apply in_app_or in Hin. destruct Hin as [Hin | Hin].
    + destruct (Ha afs ret ad reply Hin) as (H1 & H2 & H3).
      split; [apply in_or_app; left; exact H1 |].
      split; [apply in_or_app; left; exact H2 |].
      intros H. apply in_or_app. left. exact (H3 H).
    + destruct (Hb afs ret ad reply Hin) as (H1 & H2 & H3).
      split; [apply in_or_app; right; exact H1 |].
      split; [apply in_or_app; right; exact H2 |].
      intros H. apply in_or_app. right. exact (H3 H).
Qed.

Lemma quiet_creation_is_cleared adhoc (tr : list Event) :
  Forall (fun e => is_call is_CreateSnapshot e = false) tr ->
  creation_is_cleared adhoc tr.
Proof.
  intros Hq afs ret a reply Hin. exfalso. revert Hin.
  apply quiet_not_in with (1 := Hq). reflexivity.
Qed.

Lemma closed_deletion_is_cleared : closed deletion_is_cleared.
Proof.
  split.
  - intros c reply afs [].
  - intros a b Ha Hb c reply afs Hin Hc Hv.
    apply in_app_or in Hin. destruct Hin as [Hin | Hin].
    + apply in_or_app. left. exact (Ha c reply afs Hin Hc Hv).
    + apply in_or_app. right. exact (Hb c reply afs Hin Hc Hv).
Qed.

Lemma quiet_deletion_is_cleared (tr : list Event) :
  Forall (fun e => is_call is_volume_call e = false) tr ->
  deletion_is_cleared tr.
Proof.
  intros Hq c reply afs Hin Hc Hv. exfalso.
  rewrite Forall_forall in Hq. apply Hq in Hin.
  destruct c; discriminate.
Qed.

(** Inside the creation procedure, [create_snapshot] follows a limit
    validation of the same volume that returned. *)
Lemma create_follows_validation cfg afs_manager cid now alerting adhoc E h g :
  let r := Backupsnappy.__create_afs_snapshot cfg afs_manager cid now
             alerting adhoc E h g in
  forall afs retention is_adhoc reply,
    In (EvCall (CreateSnapshot afs retention is_adhoc) reply) (emitted r) ->
    afs = AFSManager.afs_name afs_manager /\
    In (EvCall (ValidateAfsSnapshotsStorageLimit afs
                  Backupsnappy.AFS_TOTAL_SNAPSHOTS_LIMIT) (Returns VNone))
       (emitted r).
Proof.
  unfold Backupsnappy.__create_afs_snapshot. run.
  all: intros afs ret ad reply Hin; not_in_trace Hin.
  all: injection Hin as <- _ _ _.
  all: split; [reflexivity | in_trace].
Qed.

Lemma creation_step_is_cleared cfg token sm cid now alerting afs :
  always (creation_is_cleared (Backupsnappy.is_adhoc_backup cfg))
    (Backupsnappy.volume_loop_body cfg token sm cid now alerting afs).
Proof.
  intros E h g. unfold Backupsnappy.volume_loop_body. cbv zeta. walk.
  all: try solve [apply quiet_creation_is_cleared; repeat constructor].
  all: rewrite step_bind;
    match goal with
    | |- context [Backupsnappy.__create_afs_snapshot ?c ?am ?ci ?n ?a ?ad
                    ?E ?h ?g] =>
        pose proof (create_follows_validation c am ci n a ad E h g) as Hrun;
        pose proof (create_afs_snapshot_run c am ci n a ad E h g) as Hret;
        cbv zeta in Hrun, Hret;
        destruct (Backupsnappy.__create_afs_snapshot c am ci n a ad E h g)
          as [o d g1]
    end;
    cbn [out emitted globals AFSManager.afs_name] in Hrun, Hret |- *;
    destruct Hret as (-> & _); walk.
  all: intros afs0 ret ad reply Hin; in_cases Hin.
  all: destruct (Hrun afs0 ret ad reply Hin) as (-> & Hlimit).
  all: split; [in_find |].
  all: split; [do 3 right; try right; apply in_or_app; left; exact Hlimit |].
  all: intros Hadhoc; first [discriminate Hadhoc | in_find].
Qed.

Lemma deletion_step_is_cleared token sm cid now alerting afs :
  always deletion_is_cleared
    (Deletionsnappy.volume_loop_body token sm cid now alerting afs).
Proof.
  intros E h g.
  pose proof (deletion_step_within token sm cid now alerting afs E h g) as Hw.
  destruct (deletion_volume_step_cases token sm cid now alerting afs E h g)
    as [(text & Hr) | (d & _ & Hr & _)]; cbv zeta in Hr;
    rewrite Hr in Hw |- *; cbn [emitted] in Hw |- *.
  - intros c reply afs0 Hin Hc Hv. exfalso. not_in_trace Hin.
    injection Hin as <- _. discriminate Hc.
  - intros c reply afs0 Hin Hc Hv.
    assert (Hafs : In afs0 [afs]) by (eapply within_touches; eassumption).
    destruct Hafs as [<- | []]. in_find.
Qed.

(** X24: a run creates or deletes snapshots only on volumes it has checked.
    In a creation run, every [create_snapshot] call is on a volume whose
    existence check returned and whose snapshot limit was validated
    against 200 and, in automated mode, for which the created-today check
    answered no.  In a deletion run, every [get_snapshots] and every
    [delete_snapshot] call is on a volume whose existence check
    returned. *)
Theorem snapshots_change_only_on_checked_volumes E cfg :
  creation_is_cleared (Backupsnappy.is_adhoc_backup cfg)
    (emitted (Backupsnappy.run E cfg)) /\
  deletion_is_cleared (emitted (Deletionsnappy.run E cfg)).
Proof.
  split.
  - unfold Backupsnappy.run.
    assert (H : always (creation_is_cleared (Backupsnappy.is_adhoc_backup cfg))
                  (Backupsnappy.main cfg)).
    { always_gen ltac:(apply closed_creation_is_cleared)
                 ltac:(apply quiet_creation_is_cleared; forall_event)
                 ltac:(apply creation_step_is_cleared). }
    apply H.
  - unfold Deletionsnappy.run.
    assert (H : always deletion_is_cleared (Deletionsnappy.main cfg)).
    { always_gen ltac:(apply closed_deletion_is_cleared)
                 ltac:(apply quiet_deletion_is_cleared; forall_event)
                 ltac:(apply deletion_step_is_cleared). }
    apply H.
Qed.

(** X25: the two flows keep to their own work.  A creation run never lists
    or deletes snapshots; a deletion run never validates retention days,
    never asks about or enables soft delete, never asks whether a snapshot
    was created today, never validates the snapshot limit and never
    creates a snapshot. *)
Theorem flows_keep_to_their_own_calls E cfg :
  Forall (fun e => is_call deletion_only e = false)
         (emitted (Backupsnappy.run E cfg)) /\
  Forall (fun e => is_call creation_only e = false)
         (emitted (Deletionsnappy.run E cfg)).
Proof.
  split.
  - assert (H : quiet (is_call deletion_only) (Backupsnappy.main cfg))
      by quiet_tac.
    apply H.
  - assert (H : quiet (is_call creation_only) (Deletionsnappy.main cfg))
      by quiet_tac.
    apply H.
Qed.

(** ** One correlation id per run *)

Lemma creation_try_correlates cfg cid now alerting :
  Alerting.correlation_id alerting = cid ->
  always (Forall (correlates cid))
    (try_except (Backupsnappy.main_try cfg cid now alerting)
                (Backupsnappy.main_except cid now alerting)).
Proof.
  intros Hal.
  always_with ltac:(constructor; [cbn; auto | constructor]).
Qed.

Lemma deletion_try_correlates cfg cid now alerting :
  Alerting.correlation_id alerting = cid ->
  always (Forall (correlates cid))
    (try_except (Deletionsnappy.main_try cfg cid now alerting)
                (Deletionsnappy.main_except cid now alerting)).
Proof.
  intros Hal.
  always_with ltac:(constructor; [cbn; auto | constructor]).
Qed.

(** X26: a run has one correlation id.  In a creation run it is the one
    given as second argument when that is not empty, and otherwise the
    [uuid4] drawn at the start; in a deletion run it is always the [uuid4]
    drawn at the start.  The request for the identity token, every log
    line that carries a correlation id of its own and the alerting object
    of every alert carry that id. *)
Theorem run_has_one_correlation_id E cfg :
  (let given :=
     Backupsnappy.correlation_id (Backupsnappy.initial_globals cfg) in
   Forall (correlates (if truthy_str given then given else env_uuid4 E []))
          (emitted (Backupsnappy.run E cfg))) /\
  Forall (correlates (env_uuid4 E [])) (emitted (Deletionsnappy.run E cfg)).
Proof.
  split; cbv zeta.
  - unfold Backupsnappy.run, Backupsnappy.main.
    steps; flatten.
    all: match goal with
         | H : negb (truthy_str ?x) = _ |- _ =>
             destruct (truthy_str x) eqn:Hgiven; try discriminate H; clear H
         end.
    all: cbn [Backupsnappy.correlation_id].
    all: try match goal with
         | |- context [try_except (Backupsnappy.main_try ?c ?ci ?n ?al)
                         (Backupsnappy.main_except ?ci ?n ?al) ?E ?h ?g] =>
             pose proof (creation_try_correlates c ci n al eq_refl E h g)
               as Hal;
             destruct (try_except (Backupsnappy.main_try c ci n al)
                         (Backupsnappy.main_except ci n al) E h g)
               as [o d g1];
             cbn [emitted] in Hal |- *
         end.
    all: repeat (constructor; [first [exact I | reflexivity] |]).
    all: first [exact Hal | constructor].
  - unfold Deletionsnappy.run, Deletionsnappy.main.
    steps; flatten.
    all: try match goal with
         | |- context [try_except (Deletionsnappy.main_try ?c ?ci ?n ?al)
                         (Deletionsnappy.main_except ?ci ?n ?al) ?E ?h ?g] =>
             pose proof (deletion_try_correlates c ci n al eq_refl E h g)
               as Hal;
             destruct (try_except (Deletionsnappy.main_try c ci n al)
                         (Deletionsnappy.main_except ci n al) E h g)
               as [o d g1];
             cbn [emitted] in Hal |- *
         end.
    all: repeat (constructor; [first [exact I | reflexivity] |]).
    all: first [exact Hal | constructor].
Qed.
